(** * couchdb-promise: the request normalisation layer, embedded and verified

    The repository consists of two JavaScript modules that wrap the HTTP API
    of a document database:

    - the _free-function_ module, whose functions take the base endpoint on
      every call ([Legacy] below), and
    - the _factory_ module, whose constructor captures the base endpoint and
      the connection options once and returns the bound methods
      ([Factory] below).

    Both are translated function by function.  JavaScript values are an
    inductive type, objects whose key order matters are association lists,
    header objects and status tables are finite maps, a promise is its
    settlement state, and the HTTP transport is the list of events that it
    and the sink of a download emit, together with the points at which the
    engine runs the promise reactions queued so far: a callback hears an
    event only if it is registered when the event is emitted.  Strings are
    sequences of UTF-8 bytes.

    Of what Node provides, the pure functions the code calls on its own
    data ([JSON.stringify], [querystring.stringify], [encodeURIComponent],
    [Number], [parseInt], [Buffer.byteLength] of a string) are written out
    for the values of the model.  [url.parse], [JSON.parse],
    [http.STATUS_CODES] and the release dependent result of
    [Buffer.byteLength(undefined)] are parameters, gathered in [Platform].
    [lib.request] is taken to accept every options object; what it does on
    the network is the trace of events.

    The development has three parts: the two modules and a reference
    platform to run them on; the vocabulary of the statements; and the
    proofs, first of the properties the specification claims (C1 to C10),
    then of further properties read off the code (X1 onwards). *)

From Stdlib Require Import ZArith String Ascii List Bool Lia DecimalString.
From stdpp Require Import base option gmap strings list.

Local Open Scope string_scope.
Local Open Scope Z_scope.
#[local] Set Warnings "-register-all".

(** ** JavaScript values *)

(** The values the code inspects.  [JNum] carries the integral numbers that
    JavaScript writes in plain decimal (the model has no fractional ones).
    [JObj ps] is an object with the own enumerable properties [ps], in
    enumeration order, and no [toJSON] method.  [JCircular ps] is the object
    built by [o = {ps}; o.self = o], the one source of a failing
    [JSON.stringify] in a finite value.  [JFun] is a function value, which
    the model never calls.  [JBuffer] is a Node [Buffer] with its bytes and
    [JError] an [Error] instance with its [name] and [message]. *)
Inductive JsValue : Type :=
| JUndefined
| JNull
| JBool (b : bool)
| JNum (n : Z)
| JStr (s : string)
| JArr (items : list JsValue)
| JObj (props : list (string * JsValue))
| JCircular (props : list (string * JsValue))
| JFun
| JBuffer (bytes : string)
| JError (name message : string).

(** The result of evaluating an expression that may throw. *)
Inductive Completion (A : Type) : Type :=
| Return (a : A)
| Throw (exn : JsValue).
Arguments Return {A} a.
Arguments Throw {A} exn.

Definition bindC {A B : Type} (c : Completion A) (k : A -> Completion B) : Completion B :=
  match c with
  | Return a => k a
  | Throw e => Throw e
  end.

Notation "'let!' x ':=' c 'in' k" := (bindC c (fun x => k))
  (at level 10, x name, c at level 100, k at level 200).

(** ToBoolean. *)
Definition truthy (v : JsValue) : bool :=
  match v with
  | JUndefined | JNull => false
  | JBool b => b
  | JNum n => negb (n =? 0)
  | JStr s => negb (String.eqb s "")
  | _ => true
  end.

(** Lookup in an association list: the first binding of the key. *)
Fixpoint assoc {A : Type} (k : string) (ps : list (string * A)) : option A :=
  match ps with
  | [] => None
  | (k', v) :: r => if String.eqb k k' then Some v else assoc k r
  end.

(** [obj[k] = v]: an existing key keeps its place, a new key goes last. *)
Fixpoint obj_set {A : Type} (k : string) (v : A) (ps : list (string * A)) : list (string * A) :=
  match ps with
  | [] => [(k, v)]
  | (k', v') :: r => if String.eqb k k' then (k', v) :: r else (k', v') :: obj_set k v r
  end.

(** [Object.assign(target, source)] on own enumerable properties. *)
Definition obj_assign {A : Type} (target source : list (string * A)) : list (string * A) :=
  fold_left (fun acc kv => obj_set (fst kv) (snd kv) acc) source target.

(** [v.k] for the property names the code reads. *)
Definition get_prop (v : JsValue) (k : string) : JsValue :=
  match v with
  | JObj ps => default JUndefined (assoc k ps)
  | JCircular ps =>
      match assoc k ps with
      | Some x => x
      | None => if String.eqb k "self" then v else JUndefined
      end
  | JError n m =>
      if String.eqb k "message" then JStr m
      else if String.eqb k "name" then JStr n
      else JUndefined
  | _ => JUndefined
  end.

(** [typeof v === 'function'] *)
Definition is_function (v : JsValue) : bool :=
  match v with JFun => true | _ => false end.

(** [a || b] *)
Definition js_or (a b : JsValue) : JsValue := if truthy a then a else b.

(** ** Strings *)

(** [String(n)] for an integral number. *)
Definition Z_to_string (n : Z) : string := NilZero.string_of_int (Z.to_int n).

Definition dquote : ascii := ascii_of_nat 34.
Definition backslash : ascii := ascii_of_nat 92.

Fixpoint concat_map (f : ascii -> string) (s : string) : string :=
  match s with
  | EmptyString => EmptyString
  | String c r => f c +:+ concat_map f r
  end.

(** [s.length]: the number of UTF-16 code units of the text whose UTF-8
    encoding is [s].  A continuation byte adds nothing, the lead byte of a
    four-byte sequence stands for a surrogate pair. *)
Definition utf16_units (c : ascii) : nat :=
  let n := nat_of_ascii c in
  if (n <? 128)%nat then 1%nat
  else if (n <? 192)%nat then 0%nat
  else if (n <? 240)%nat then 1%nat
  else 2%nat.

Fixpoint js_length (s : string) : nat :=
  match s with
  | EmptyString => 0%nat
  | String c r => (utf16_units c + js_length r)%nat
  end.

(** [Buffer.byteLength(s)] of a string: the length of its UTF-8 encoding. *)
Definition byteLength (s : string) : nat := String.length s.

Definition hex_digit (upper : bool) (n : nat) : ascii :=
  if (n <? 10)%nat then ascii_of_nat (48 + n)
  else ascii_of_nat ((if upper then 55 else 87) + n).

(** The characters [encodeURIComponent] and [querystring.escape] leave
    alone: letters, digits and [- _ . ! ~ * ' ( )]. *)
Definition unreserved (c : ascii) : bool :=
  let n := nat_of_ascii c in
  ((48 <=? n) && (n <=? 57) || (65 <=? n) && (n <=? 90) || (97 <=? n) && (n <=? 122)
   || (n =? 45) || (n =? 95) || (n =? 46) || (n =? 33) || (n =? 126)
   || (n =? 42) || (n =? 39) || (n =? 40) || (n =? 41))%nat.

Definition percent_byte (c : ascii) : string :=
  if unreserved c then String c EmptyString
  else
    let n := nat_of_ascii c in
    String "%" (String (hex_digit true (n / 16)) (String (hex_digit true (n mod 16)) EmptyString)).

Definition encodeURIComponent (s : string) : string := concat_map percent_byte s.

Definition querystring_escape (s : string) : string := concat_map percent_byte s.

(** [JSON.stringify] of a string: QuoteJSONString. *)
Definition json_char (c : ascii) : string :=
  let n := nat_of_ascii c in
  if (n =? 34)%nat then String backslash (String dquote EmptyString)
  else if (n =? 92)%nat then String backslash (String backslash EmptyString)
  else if (n =? 8)%nat then String backslash "b"
  else if (n =? 12)%nat then String backslash "f"
  else if (n =? 10)%nat then String backslash "n"
  else if (n =? 13)%nat then String backslash "r"
  else if (n =? 9)%nat then String backslash "t"
  else if (n <? 32)%nat then
    String backslash ("u00" +:+ String (hex_digit false (n / 16)) (String (hex_digit false (n mod 16)) EmptyString))
  else String c EmptyString.

Definition json_quote (s : string) : string :=
  String dquote (concat_map json_char s +:+ String dquote EmptyString).

Fixpoint join (sep : string) (l : list string) : string :=
  match l with
  | [] => EmptyString
  | [x] => x
  | x :: r => x +:+ sep +:+ join sep r
  end.

(** ** The JSON and query-string codecs *)

(** [JSON.stringify(v)]: the text, [None] for [undefined], or the exception.
    A property whose value is [undefined] or a function is left out of an
    object and is [null] in an array; a [Buffer] serialises through its
    [toJSON], an [Error] has no enumerable property, and a circular object
    throws once its other properties are written. *)
Fixpoint JSON_stringify (v : JsValue) : Completion (option string) :=
  match v with
  | JUndefined | JFun => Return None
  | JNull => Return (Some "null")
  | JBool b => Return (Some (if b then "true" else "false"))
  | JNum n => Return (Some (Z_to_string n))
  | JStr s => Return (Some (json_quote s))
  | JArr xs =>
      let! l :=
        (fix elements (xs : list JsValue) : Completion (list string) :=
           match xs with
           | [] => Return []
           | x :: r =>
               let! o := JSON_stringify x in
               let! l := elements r in
               Return (default "null" o :: l)
           end) xs in
      Return (Some ("[" +:+ join "," l +:+ "]"))
  | JObj ps =>
      let! l :=
        (fix members (ps : list (string * JsValue)) : Completion (list string) :=
           match ps with
           | [] => Return []
           | (k, x) :: r =>
               let! o := JSON_stringify x in
               let! l := members r in
               Return (match o with
                       | Some t => (json_quote k +:+ ":" +:+ t) :: l
                       | None => l
                       end)
           end) ps in
      Return (Some ("{" +:+ join "," l +:+ "}"))
  | JCircular ps =>
      let! _ :=
        (fix members (ps : list (string * JsValue)) : Completion (list string) :=
           match ps with
           | [] => Return []
           | (k, x) :: r =>
               let! o := JSON_stringify x in
               let! l := members r in
               Return l
           end) ps in
      Throw (JError "TypeError" "Converting circular structure to JSON")
  | JBuffer b =>
      Return (Some ("{" +:+ json_quote "type" +:+ ":" +:+ json_quote "Buffer" +:+ ","
                    +:+ json_quote "data" +:+ ":["
                    +:+ join "," (map (fun c => Z_to_string (Z.of_nat (nat_of_ascii c))) (list_ascii_of_string b))
                    +:+ "]}"))
  | JError _ _ => Return (Some "{}")
  end.

(** [querystring.stringify]'s view of a value: strings, numbers and
    booleans are written, anything else is the empty string. *)
Definition stringifyPrimitive (v : JsValue) : string :=
  match v with
  | JStr s => s
  | JNum n => Z_to_string n
  | JBool b => if b then "true" else "false"
  | _ => ""
  end.

(** One [key=value] field per property, one per element for an array
    value (none for an empty array). *)
Definition qs_fields (kv : string * JsValue) : list string :=
  let ks := querystring_escape (fst kv) +:+ "=" in
  match snd kv with
  | JArr vs => map (fun v => ks +:+ querystring_escape (stringifyPrimitive v)) vs
  | v => [ks +:+ querystring_escape (stringifyPrimitive v)]
  end.

(** [querystring.stringify(obj)] with the default separators. *)
Definition querystring_stringify (obj : list (string * JsValue)) : string :=
  join "&" (flat_map qs_fields obj).

(** ** Numbers read from strings *)

Definition is_digit (c : ascii) : bool :=
  let n := nat_of_ascii c in ((48 <=? n) && (n <=? 57))%nat.

Definition is_space (c : ascii) : bool :=
  let n := nat_of_ascii c in ((9 <=? n) && (n <=? 13) || (n =? 32))%nat.

Definition is_sign (c : ascii) : bool :=
  let n := nat_of_ascii c in ((n =? 43) || (n =? 45))%nat.

Fixpoint drop_while (p : ascii -> bool) (l : list ascii) : list ascii :=
  match l with
  | c :: r => if p c then drop_while p r else l
  | [] => []
  end.

Definition trim (l : list ascii) : list ascii :=
  rev (drop_while is_space (rev (drop_while is_space l))).

Definition drop_sign (l : list ascii) : list ascii :=
  match l with
  | c :: r => if is_sign c then r else l
  | [] => []
  end.

Definition starts_with_digit (l : list ascii) : bool :=
  match l with
  | c :: _ => is_digit c
  | [] => false
  end.

(** [Number.isNaN(parseInt(port, 10))] for a port that is [null] or a
    string: leading white space and one sign are skipped, and the result is
    a number exactly when a decimal digit follows.  [null] reads as the text
    null, which has none. *)
Definition parseInt_isNaN (port : option string) : bool :=
  match port with
  | None => true
  | Some s => negb (starts_with_digit (drop_sign (drop_while is_space (list_ascii_of_string s))))
  end.

Definition all_in (p : ascii -> bool) (l : list ascii) : bool :=
  match l with
  | [] => false
  | _ => forallb p l
  end.

Definition is_hex (c : ascii) : bool :=
  let n := nat_of_ascii c in
  (is_digit c || (65 <=? n) && (n <=? 70) || (97 <=? n) && (n <=? 102))%nat.

Definition is_octal (c : ascii) : bool :=
  let n := nat_of_ascii c in ((48 <=? n) && (n <=? 55))%nat.

Definition is_binary (c : ascii) : bool :=
  let n := nat_of_ascii c in ((n =? 48) || (n =? 49))%nat.

(** An exponent part, or nothing. *)
Definition exponent_opt (l : list ascii) : bool :=
  match l with
  | [] => true
  | c :: r =>
      let n := nat_of_ascii c in
      ((n =? 101) || (n =? 69))%nat && all_in is_digit (drop_sign r)
  end.

(** StrUnsignedDecimalLiteral. *)
Definition unsigned_decimal (l : list ascii) : bool :=
  if String.eqb (string_of_list_ascii l) "Infinity" then true
  else
    let after_int := drop_while is_digit l in
    let has_int := starts_with_digit l in
    match after_int with
    | c :: r =>
        if (nat_of_ascii c =? 46)%nat then
          let after_frac := drop_while is_digit r in
          (has_int || starts_with_digit r) && exponent_opt after_frac
        else has_int && exponent_opt after_int
    | [] => has_int
    end.

(** StrNumericLiteral: a radix-prefixed integer, or a signed decimal. *)
Definition numeric_literal (l : list ascii) : bool :=
  match l with
  | z :: x :: r =>
      let n := nat_of_ascii x in
      if ((nat_of_ascii z =? 48) && ((n =? 120) || (n =? 88)))%nat then all_in is_hex r
      else if ((nat_of_ascii z =? 48) && ((n =? 111) || (n =? 79)))%nat then all_in is_octal r
      else if ((nat_of_ascii z =? 48) && ((n =? 98) || (n =? 66)))%nat then all_in is_binary r
      else unsigned_decimal (drop_sign l)
  | _ => unsigned_decimal (drop_sign l)
  end.

(** [Number.isNaN(Number(port))] for a port that is [null] or a string:
    [null] and the blank string read as 0. *)
Definition Number_isNaN (port : option string) : bool :=
  match port with
  | None => false
  | Some s =>
      match trim (list_ascii_of_string s) with
      | [] => false
      | t => negb (numeric_literal t)
      end
  end.

(** ** The platform *)

(** What [url.parse] returns, with the fields the code reads.  [None] is
    [null]. *)
Record UrlObject : Type := {
  url_protocol : option string;
  url_slashes : option bool;
  url_auth : option string;
  url_host : option string;
  url_port : option string;
  url_hostname : option string;
  url_path : option string
}.

(** Node's part: the URL parser, the JSON reader (the text's value or the
    [SyntaxError] it throws), the table [http.STATUS_CODES], and what
    [Buffer.byteLength(undefined)] does (a number in old releases, a
    [TypeError] in current ones). *)
Record Platform : Type := {
  urlParse : string -> UrlObject;
  JSON_parse : string -> Completion JsValue;
  STATUS_CODES : gmap Z string;
  byteLength_undefined : Completion Z
}.

(** ** Envelopes, promises and the transport *)

(** The object every call settles with.  [data] is absent from the stream
    executor's envelope, [duration] from every envelope of the free-function
    module. *)
Record Envelope : Type := {
  headers : gmap string JsValue;
  data : option JsValue;
  status : Z;
  message : JsValue;
  duration : option Z
}.

(** The state of a promise.  [Failed] is a rejection with a thrown value
    instead of an envelope. *)
Inductive Settlement : Type :=
| Pending
| Fulfilled (e : Envelope)
| Rejected (e : Envelope)
| Failed (exn : JsValue).

(** [resolve] and [reject] of a promise: the first settlement stays. *)
Definition resolve (e : Envelope) (p : Settlement) : Settlement :=
  match p with Pending => Fulfilled e | _ => p end.

Definition reject (e : Envelope) (p : Settlement) : Settlement :=
  match p with Pending => Rejected e | _ => p end.

Definition settled (p : Settlement) : bool :=
  match p with Pending => false | _ => true end.

(** What the transport and the sink emit, whether or not a callback is
    registered for it; and [Jobs], the point at which the engine runs the
    promise reactions queued so far.  Events with no [Jobs] between them
    are emitted one after the other before any reaction to the first of
    them has run, as the events of one turn of the event loop are. *)
Inductive Event : Type :=
| Response (statusCode : Z) (hs : gmap string JsValue)
| Data (chunk : string)
| End
| Timeout
| Error (err : JsValue)
| SinkClose
| SinkError (err : JsValue)
| Jobs.

(** An event with the clock reading ([Date.now()]) at its delivery. *)
Definition Trace : Type := list (Z * Event).

Inductive Lib : Type := http | https.

(** The options object handed to [lib.request]. *)
Record HttpOptions : Type := {
  hostname : option string;
  port : JsValue;
  path : option string;
  auth : option string;
  protocol : option string;
  method : option string;
  rejectUnauthorized : option bool;
  req_headers : gmap string JsValue
}.

(** What is written to the request before it is ended. *)
Inductive Written : Type :=
| WriteNothing
| WriteText (s : string)
| WriteBuffer (bytes : string)
| WriteStream (source : JsValue).

(** One request on the wire. *)
Record Request : Type := {
  lib : Lib;
  options : HttpOptions;
  timeout : Z;
  written : Written
}.

(** What a call of an API function does: it throws, it returns no promise,
    it returns a promise settled without any network traffic, or it issues
    a request and returns the promise that the transport's events settle. *)
Inductive CallResult : Type :=
| Threw (exn : JsValue)
| NoPromise
| Settled (s : Settlement)
| Sent (r : Request) (outcome : Trace -> Settlement).

(** The request a call puts on the wire, if any. *)
Definition wire (c : CallResult) : option Request :=
  match c with Sent r _ => Some r | _ => None end.

(** The promise a call returned, after the transport delivered [t]. *)
Definition settlement (c : CallResult) (t : Trace) : option Settlement :=
  match c with
  | Sent _ k => Some (k t)
  | Settled s => Some s
  | _ => None
  end.

(** [o.host && o.host.split(':')[0]] *)
Fixpoint before_colon (s : string) : string :=
  match s with
  | EmptyString => EmptyString
  | String c r => if (nat_of_ascii c =? 58)%nat then EmptyString else String c (before_colon r)
  end.

Definition host_name (o : UrlObject) : option string := before_colon <$> url_host o.

(** [Buffer.isBuffer(v)] *)
Definition isBuffer (v : JsValue) : bool :=
  match v with JBuffer _ => true | _ => false end.

(** The bytes of a buffer, for [Buffer.byteLength(buffer)]. *)
Definition buffer_bytes (v : JsValue) : string :=
  match v with JBuffer b => b | _ => "" end.

(** [typeof v === 'string'], and the text of a string value. *)
Definition is_string (v : JsValue) : bool :=
  match v with JStr _ => true | _ => false end.

Definition string_of (v : JsValue) : string :=
  match v with JStr s => s | _ => "" end.

(** [v === null] *)
Definition is_null (v : JsValue) : bool :=
  match v with JNull => true | _ => false end.

(** [v && v.readable && typeof v._read === 'function'] *)
Definition is_readable (v : JsValue) : bool :=
  truthy v && truthy (get_prop v "readable") && is_function (get_prop v "_read").

(** [Object.prototype.toString.call(v) === '[object Object]'] *)
Definition is_plain_object (v : JsValue) : bool :=
  match v with JObj _ | JCircular _ => true | _ => false end.

(** [stream && stream.writable && typeof stream.pipe === 'function'] *)
Definition is_writable (v : JsValue) : bool :=
  truthy v && truthy (get_prop v "writable") && is_function (get_prop v "pipe").

Definition AssertionError : JsValue := JError "AssertionError" "is writeable stream".

(** The local variables [body], [stream] and [error] of [request] after its
    payload block. *)
Record Payload : Type := {
  body : JsValue;
  stream : JsValue;
  error : JsValue
}.

(** [Buffer.byteLength(body)] for the result of [JSON.stringify]. *)
Definition byteLength_of (P : Platform) (body : option string) : Completion Z :=
  match body with
  | Some s => Return (Z.of_nat (byteLength s))
  | None => byteLength_undefined P
  end.

Definition of_option (o : option string) : JsValue :=
  match o with Some s => JStr s | None => JUndefined end.

(** [if (body) ... else if (stream) ... else ...] at the end of [request]. *)
Definition write_of (p : Payload) : Written :=
  if truthy (body p) then
    match body p with
    | JBuffer b => WriteBuffer b
    | JStr s => WriteText s
    | _ => WriteNothing
    end
  else if truthy (stream p) then WriteStream (stream p)
  else WriteNothing.

Definition lib_of (protocol : option string) : Lib :=
  if decide (protocol = Some "https:") then https else http.

(** The state of one buffered exchange: the promise, the response once its
    callback ran, and the body text gathered so far. *)
Record Exchange : Type := {
  promise : Settlement;
  res : option (Z * gmap string JsValue);
  buffer : string
}.

Definition exchange0 : Exchange :=
  {| promise := Pending; res := None; buffer := "" |}.

(** [table[code] || otherwise] *)
Definition entry_or (table : gmap Z string) (code : Z) (otherwise : string) : string :=
  match table !! code with
  | Some s => if String.eqb s "" then otherwise else s
  | None => otherwise
  end.

(** [.then(response => new Promise(...))] of [getAttachment].  The
    callback is a promise reaction: it runs with the first [Jobs] after the
    stream executor's promise [k] is fulfilled, and only then are the two
    listeners attached to the sink.  From there on [close] resolves the
    promise made in the callback with the response and [error] rejects it;
    what the sink emitted before is not heard.  [seen] is what was
    delivered before [rest], and [listening] tells whether the callback has
    run. *)
Fixpoint sink_promise (stream_error : JsValue -> Envelope) (k : Trace -> Settlement)
    (seen rest : Trace) (listening : bool) (final : Settlement) : Settlement :=
  match rest with
  | [] => final
  | ev :: rest' =>
      sink_promise stream_error k (seen ++ [ev])%list rest'
        match k seen, snd ev with
        | Fulfilled _, Jobs => true
        | _, _ => listening
        end
        match k seen with
        | Fulfilled response =>
            if listening then
              match snd ev with
              | SinkClose => resolve response final
              | SinkError err => reject (stream_error err) final
              | _ => final
              end
            else final
        | _ => final
        end
  end.

(** The promise [getAttachment] returns, as the events delivered decide
    it: the promise made in the callback once the stream executor's promise
    is fulfilled; a rejection of the executor passes through. *)
Definition await_sink (stream_error : JsValue -> Envelope) (k : Trace -> Settlement)
    (t : Trace) : Settlement :=
  match k t with
  | Fulfilled _ => sink_promise stream_error k [] t false Pending
  | s => s
  end.

(** [Promise.resolve().then(() => requestStream(...).then(...))]: a throw
    of [requestStream] becomes a rejection with the thrown value. *)
Definition then_await_sink (stream_error : JsValue -> Envelope) (c : CallResult) : CallResult :=
  match c with
  | Threw e => Settled (Failed e)
  | NoPromise => NoPromise
  | Settled s => Settled s
  | Sent r k => Sent r (await_sink stream_error k)
  end.

(** The calls of the API surface, with their arguments.  A query object is
    [None] when the caller passes none.  Names, ids and revisions are
    strings and a count is a number; where the code tests one for
    truthiness ([if (docId)], [rev ? ... : ''], [count || 1]) the empty
    string and 0 stand for an argument the caller left out as well. *)
Inductive Call : Type :=
| GetInfo
| ListDatabases
| CreateDatabase (dbName : string)
| GetDatabase (dbName : string)
| GetDatabaseHead (dbName : string)
| DeleteDatabase (dbName : string)
| GetAllDocuments (dbName : string) (queryObj : option (list (string * JsValue)))
| GetDocumentHead (dbName docId : string) (queryObj : option (list (string * JsValue)))
| GetDocument (dbName docId : string) (queryObj : option (list (string * JsValue)))
| CopyDocument (dbName docId newDocId : string)
| CreateDocument (dbName : string) (doc : JsValue) (docId : string)
| DeleteDocument (dbName docId rev : string)
| FindDocuments (dbName : string) (queryObj : JsValue)
| GetUuids (count : Z)
| GetDesignDocument (dbName docId : string) (queryObj : option (list (string * JsValue)))
| GetDesignDocumentInfo (dbName docId : string)
| CreateDesignDocument (dbName : string) (doc : JsValue) (docId : string)
| DeleteDesignDocument (dbName docId rev : string)
| GetView (dbName docId viewName : string) (queryObj : option (list (string * JsValue)))
| CreateBulkDocuments (dbName : string) (docs : JsValue) (opts : option (list (string * JsValue)))
| GetAttachmentHead (dbName docId attName rev : string)
| GetAttachment (dbName docId attName : string) (sink : JsValue) (rev : string)
| AddAttachment (dbName docId attName rev : string) (contentType : JsValue) (att : JsValue)
| DeleteAttachment (dbName docId attName rev : string)
| CreateIndex (dbName : string) (queryObj : JsValue)
| GetIndex (dbName : string)
| DeleteIndex (dbName docId name : string)
| GetUrlPath (path : string).

(** [rev ? `?rev=${rev}` : ''] *)
Definition rev_query (rev : string) : string :=
  if String.eqb rev "" then "" else "?rev=" +:+ rev.

(** [count || 1] *)
Definition count_or_1 (count : Z) : Z := if count =? 0 then 1 else count.

(** * The free-function module *)

Module Legacy.

Definition GENERIC_STATUS_CODES : gmap Z string :=
  list_to_map [
    (200, "OK");
    (201, "Created");
    (202, "Accepted");
    (304, "Not Modified");
    (400, "Bad Request");
    (401, "Unauthorized");
    (403, "Forbidden");
    (404, "Not Found");
    (405, "Resource Not Allowed");
    (406, "Not Acceptable");
    (409, "Conflict");
    (412, "Precondition Failed");
    (415, "Bad Content Type");
    (416, "Requested Range Not Satisfiable");
    (417, "Expectation Failed");
    (500, "Internal Server Error")
  ].

Definition QUERY_KEYS_JSON : list string := ["key"; "keys"; "startkey"; "endkey"].

(** The [forEach] of [createQueryString]. *)
Fixpoint stringify_keys (keys : list string) (obj : list (string * JsValue))
    : Completion (list (string * JsValue)) :=
  match keys with
  | [] => Return obj
  | key :: rest =>
      match assoc key obj with
      | Some v =>
          let! s := JSON_stringify v in
          stringify_keys rest (obj_set key (of_option s) obj)
      | None => stringify_keys rest obj
      end
  end.

Definition createQueryString (queryObj : option (list (string * JsValue))) : Completion string :=
  let obj := obj_assign [] (default [] queryObj) in
  let! obj := stringify_keys QUERY_KEYS_JSON obj in
  Return (if (length obj =? 0)%nat then "" else "?" +:+ querystring_stringify obj).

(** [statusCodes[code] || GENERIC_STATUS_CODES[code] || 'unknown status'] *)
Definition status_message (statusCodes : gmap Z string) (code : Z) : string :=
  entry_or statusCodes code (entry_or GENERIC_STATUS_CODES code "unknown status").

(** The parameter object of [request] and [requestStream].  A field the
    caller leaves out is [JUndefined] ([None] for the method and the status
    table). *)
Record Param : Type := {
  p_url : string;
  p_method : option string;
  p_statusCodes : option (gmap Z string);
  p_postData : JsValue;
  p_postContentType : JsValue;
  p_stream : JsValue
}.

Definition bad_request : Envelope :=
  {| headers := ∅; data := Some (JError "Error" "Bad request"); status := 400;
     message := JStr "Error: Bad request"; duration := None |}.

Definition timed_out : Envelope :=
  {| headers := ∅; data := Some (JError "Error" "request timed out"); status := 500;
     message := JStr "Error: request timed out"; duration := None |}.

Definition transport_error (err : JsValue) : Envelope :=
  {| headers := ∅; data := Some err; status := 500;
     message := js_or (get_prop err "message") (JStr "internal error"); duration := None |}.

Definition stream_error (err : JsValue) : Envelope :=
  {| headers := ∅; data := Some err; status := 500;
     message := js_or (get_prop err "message") (JStr "stream error"); duration := None |}.

Definition invalid_post_data (error : JsValue) : Envelope :=
  {| headers := ∅; data := Some error; status := 400;
     message := JStr "invalid post data"; duration := None |}.

Section WithPlatform.
Context (P : Platform).

(** The module variable [requestTimeout], as it is when the call starts. *)
Context (requestTimeout : Z).

Definition isValidUrl (url : string) : bool :=
  let o := urlParse P url in
  if negb (bool_decide (url_protocol o ∈ [Some "http:"; Some "https:"]))
     || bool_decide (url_slashes o = Some false)
     || Number_isNaN (url_port o)
     || negb (truthy (of_option (url_hostname o)))
  then false
  else true.

(** The payload block of [request]: the headers as the block leaves them,
    and its local variables unless [Buffer.byteLength] threw. *)
Definition payload (postData postContentType : JsValue) (hs : gmap string JsValue)
    : gmap string JsValue * Completion Payload :=
  if isBuffer postData then
    (<["content-length" := JNum (Z.of_nat (byteLength (buffer_bytes postData)))]>
       (<["content-type" := postContentType]> hs),
     Return {| body := postData; stream := JUndefined; error := JUndefined |})
  else if is_readable postData then
    (<["Transfer-Encoding" := JStr "chunked"]> (<["content-type" := postContentType]> hs),
     Return {| body := JUndefined; stream := postData; error := JUndefined |})
  else if is_plain_object postData then
    let r := JSON_stringify postData in
    let body := match r with Return o => o | Throw _ => None end in
    let error := match r with Return _ => JUndefined | Throw err => err end in
    let hs := <["content-type" := JStr "application/json"]> hs in
    match byteLength_of P body with
    | Throw e => (hs, Throw e)
    | Return n =>
        (<["content-length" := JNum n]> hs,
         Return {| body := of_option body; stream := JUndefined; error := error |})
    end
  else if is_string postData then
    (<["content-length" := JNum (Z.of_nat (js_length (string_of postData)))]>
       (<["content-type" := postContentType]> hs),
     Return {| body := postData; stream := JUndefined; error := JUndefined |})
  else if truthy postData then
    (hs, Return {| body := JUndefined; stream := JUndefined; error := JStr "unsoported post data" |})
  else
    (hs, Return {| body := JUndefined; stream := JUndefined; error := JUndefined |}).

(** The [end] handler of the response: the envelope built in the [try]
    block, or the one built in its [catch]. *)
Definition on_end (statusCodes : gmap Z string) (code : Z) (hs : gmap string JsValue)
    (buffer : string) : Envelope :=
  match JSON_parse P (if String.eqb buffer "" then "{}" else buffer) with
  | Return d =>
      {| headers := hs; data := Some d; status := code;
         message := JStr (status_message statusCodes code); duration := None |}
  | Throw err =>
      {| headers := hs; data := Some err; status := 500;
         message := js_or (get_prop err "message") (JStr "internal error"); duration := None |}
  end.

(** The callbacks [request] registers, run on one event. *)
Definition request_step (statusCodes : gmap Z string) (x : Exchange) (ev : Z * Event) : Exchange :=
  match snd ev with
  | Response code hs => {| promise := promise x; res := Some (code, hs); buffer := "" |}
  | Data chunk =>
      match res x with
      | Some _ => {| promise := promise x; res := res x; buffer := buffer x +:+ chunk |}
      | None => x
      end
  | End =>
      match res x with
      | Some (code, hs) =>
          {| promise := resolve (on_end statusCodes code hs (buffer x)) (promise x);
             res := res x; buffer := buffer x |}
      | None => x
      end
  | Timeout => {| promise := reject timed_out (promise x); res := res x; buffer := buffer x |}
  | Error err =>
      {| promise := reject (transport_error err) (promise x); res := res x; buffer := buffer x |}
  | SinkClose | SinkError _ | Jobs => x
  end.

Definition request (param : Param) : CallResult :=
  let statusCodes := default ∅ (p_statusCodes param) in
  let o := urlParse P (p_url param) in
  let httpOptions :=
    {| hostname := host_name o;
       port := js_or (of_option (url_port o)) (JNum 443);
       path := url_path o;
       auth := url_auth o;
       protocol := url_protocol o;
       method := p_method param;
       rejectUnauthorized := None;
       req_headers :=
         <["accept" := JStr "application/json"]> {["user-agent" := JStr "couchdb-promises"]} |} in
  if negb (isValidUrl (p_url param)) then Settled (Rejected bad_request)
  else
    let (hs, r) := payload (p_postData param) (p_postContentType param) (req_headers httpOptions) in
    match r with
    | Throw e => Threw e
    | Return pl =>
        if truthy (error pl) then Settled (Rejected (invalid_post_data (error pl)))
        else
          Sent {| lib := lib_of (protocol httpOptions);
                  options :=
                    {| hostname := hostname httpOptions; port := port httpOptions;
                       path := path httpOptions; auth := auth httpOptions;
                       protocol := protocol httpOptions; method := method httpOptions;
                       rejectUnauthorized := None; req_headers := hs |};
                  timeout := requestTimeout;
                  written := write_of pl |}
               (fun t => promise (fold_left (request_step statusCodes) t exchange0))
    end.

(** The response callback of [requestStream] and its two other handlers. *)
Definition requestStream_step (statusCodes : gmap Z string) (p : Settlement) (ev : Z * Event)
    : Settlement :=
  match snd ev with
  | Response code hs =>
      let ret := {| headers := hs; data := None; status := code;
                    message := JStr (status_message statusCodes code); duration := None |} in
      if status ret <? 400 then resolve ret p else reject ret p
  | Timeout => reject timed_out p
  | Error err => reject (transport_error err) p
  | _ => p
  end.

Definition requestStream (param : Param) : CallResult :=
  let statusCodes := default ∅ (p_statusCodes param) in
  if negb (is_writable (p_stream param)) then Threw AssertionError
  else
    let o := urlParse P (p_url param) in
    let httpOptions :=
      {| hostname := host_name o;
         port := js_or (of_option (url_port o)) (JNum 443);
         path := url_path o;
         auth := url_auth o;
         protocol := url_protocol o;
         method := Some "GET";
         rejectUnauthorized := None;
         req_headers := {["user-agent" := JStr "couchdb-promises"]} |} in
    if negb (isValidUrl (p_url param)) then Settled (Rejected bad_request)
    else
      Sent {| lib := lib_of (protocol httpOptions); options := httpOptions;
              timeout := requestTimeout; written := WriteNothing |}
           (fun t => fold_left (requestStream_step statusCodes) t Pending).

(** [setTimeout(t)]: the value returned and the module variable after it. *)
Definition setTimeout (t : JsValue) : Z * Z :=
  match t with
  | JNum n => if 0 <=? n then (n, n) else (requestTimeout, requestTimeout)
  | _ => (requestTimeout, requestTimeout)
  end.

Definition getTimeout : Z := requestTimeout.

(** ** The API surface *)

Definition getInfo_codes : gmap Z string :=
  list_to_map [
    (200, "OK - Request completed successfully")
  ].

Definition getInfo (baseUrl : string) : CallResult :=
  request
    {| p_url := baseUrl +:+ "/";
       p_method := Some "GET";
       p_statusCodes := Some getInfo_codes;
       p_postData := JUndefined;
       p_postContentType := JUndefined;
       p_stream := JUndefined |}.

Definition listDatabases_codes : gmap Z string :=
  list_to_map [
    (200, "OK - Request completed successfully")
  ].

Definition listDatabases (baseUrl : string) : CallResult :=
  request
    {| p_url := baseUrl +:+ "/_all_dbs";
       p_method := Some "GET";
       p_statusCodes := Some listDatabases_codes;
       p_postData := JUndefined;
       p_postContentType := JUndefined;
       p_stream := JUndefined |}.

Definition createDatabase_codes : gmap Z string :=
  list_to_map [
    (201, "Created - Database created successfully");
    (400, "Bad Request - Invalid database name");
    (401, "Unauthorized - CouchDB Server Administrator privileges required");
    (412, "Precondition Failed - Database already exists")
  ].

Definition createDatabase (baseUrl : string) (dbName : string) : CallResult :=
  request
    {| p_url := baseUrl +:+ "/" +:+ encodeURIComponent dbName;
       p_method := Some "PUT";
       p_statusCodes := Some createDatabase_codes;
       p_postData := JUndefined;
       p_postContentType := JUndefined;
       p_stream := JUndefined |}.

Definition getDatabase_codes : gmap Z string :=
  list_to_map [
    (200, "OK - Request completed successfully");
    (404, "Not Found – Requested database not found")
  ].

Definition getDatabase (baseUrl : string) (dbName : string) : CallResult :=
  request
    {| p_url := baseUrl +:+ "/" +:+ encodeURIComponent dbName;
       p_method := Some "GET";
       p_statusCodes := Some getDatabase_codes;
       p_postData := JUndefined;
       p_postContentType := JUndefined;
       p_stream := JUndefined |}.

Definition getDatabaseHead_codes : gmap Z string :=
  list_to_map [
    (200, "OK - Database exists");
    (404, "Not Found – Requested database not found")
  ].

Definition getDatabaseHead (baseUrl : string) (dbName : string) : CallResult :=
  request
    {| p_url := baseUrl +:+ "/" +:+ encodeURIComponent dbName;
       p_method := Some "HEAD";
       p_statusCodes := Some getDatabaseHead_codes;
       p_postData := JUndefined;
       p_postContentType := JUndefined;
       p_stream := JUndefined |}.

Definition deleteDatabase_codes : gmap Z string :=
  list_to_map [
    (200, "OK - Database removed successfully");
    (400, "Bad Request - Invalid database name or forgotten document id by accident");
    (401, "Unauthorized - CouchDB Server Administrator privileges required");
    (404, "Not Found - Database doesn’t exist")
  ].

Definition deleteDatabase (baseUrl : string) (dbName : string) : CallResult :=
  request
    {| p_url := baseUrl +:+ "/" +:+ encodeURIComponent dbName;
       p_method := Some "DELETE";
       p_statusCodes := Some deleteDatabase_codes;
       p_postData := JUndefined;
       p_postContentType := JUndefined;
       p_stream := JUndefined |}.

Definition getAllDocuments_codes : gmap Z string :=
  list_to_map [
    (200, "OK - Request completed successfully")
  ].

Definition getAllDocuments (baseUrl : string) (dbName : string) (queryObj : option (list (string * JsValue))) : CallResult :=
  match createQueryString queryObj with
  | Throw e => Threw e
  | Return queryStr =>
      request
        {| p_url := baseUrl +:+ "/" +:+ encodeURIComponent dbName +:+ "/_all_docs" +:+ queryStr;
           p_method := Some "GET";
           p_statusCodes := Some getAllDocuments_codes;
           p_postData := JUndefined;
           p_postContentType := JUndefined;
           p_stream := JUndefined |}
  end.

Definition getDocumentHead_codes : gmap Z string :=
  list_to_map [
    (200, "OK - Document exists");
    (304, "Not Modified - Document wasn’t modified since specified revision");
    (401, "Unauthorized - Read privilege required");
    (404, "Not Found - Document not found")
  ].

Definition getDocumentHead (baseUrl : string) (dbName : string) (docId : string) (queryObj : option (list (string * JsValue))) : CallResult :=
  match createQueryString queryObj with
  | Throw e => Threw e
  | Return queryStr =>
      request
        {| p_url := baseUrl +:+ "/" +:+ encodeURIComponent dbName +:+ "/" +:+ encodeURIComponent docId +:+ queryStr;
           p_method := Some "HEAD";
           p_statusCodes := Some getDocumentHead_codes;
           p_postData := JUndefined;
           p_postContentType := JUndefined;
           p_stream := JUndefined |}
  end.

Definition getDocument_codes : gmap Z string :=
  list_to_map [
    (200, "OK - Request completed successfully");
    (304, "Not Modified - Document wasn’t modified since specified revision");
    (400, "Bad Request - The format of the request or revision was invalid");
    (401, "Unauthorized - Read privilege required");
    (404, "Not Found - Document not found")
  ].

Definition getDocument (baseUrl : string) (dbName : string) (docId : string) (queryObj : option (list (string * JsValue))) : CallResult :=
  match createQueryString queryObj with
  | Throw e => Threw e
  | Return queryStr =>
      request
        {| p_url := baseUrl +:+ "/" +:+ encodeURIComponent dbName +:+ "/" +:+ encodeURIComponent docId +:+ queryStr;
           p_method := Some "GET";
           p_statusCodes := Some getDocument_codes;
           p_postData := JUndefined;
           p_postContentType := JUndefined;
           p_stream := JUndefined |}
  end.

Definition createDocument_put_codes : gmap Z string :=
  list_to_map [
    (201, "Created – Document created and stored on disk");
    (202, "Accepted – Document data accepted, but not yet stored on disk");
    (400, "Bad Request – Invalid request body or parameters");
    (401, "Unauthorized – Write privileges required");
    (404, "Not Found – Specified database or document ID doesn’t exists");
    (409, "Conflict – Document with the specified ID already exists or specified revision is not latest for target document")
  ].

Definition createDocument_post_codes : gmap Z string :=
  list_to_map [
    (201, "Created – Document created and stored on disk");
    (202, "Accepted – Document data accepted, but not yet stored on disk");
    (400, "Bad Request – Invalid database name");
    (401, "Unauthorized – Write privileges required");
    (404, "Not Found – Database doesn’t exists");
    (409, "Conflict – A Conflicting Document with same ID already exists")
  ].

Definition createDocument (baseUrl : string) (dbName : string) (doc : JsValue) (docId : string) : CallResult :=
  if truthy (JStr docId) then
    request
      {| p_url := baseUrl +:+ "/" +:+ encodeURIComponent dbName +:+ "/" +:+ encodeURIComponent docId;
         p_method := Some "PUT";
         p_statusCodes := Some createDocument_put_codes;
         p_postData := doc;
         p_postContentType := JStr "application/json";
         p_stream := JUndefined |}
  else
    request
      {| p_url := baseUrl +:+ "/" +:+ encodeURIComponent dbName;
         p_method := Some "POST";
         p_statusCodes := Some createDocument_post_codes;
         p_postData := doc;
         p_postContentType := JUndefined;
         p_stream := JUndefined |}.

Definition deleteDocument_codes : gmap Z string :=
  list_to_map [
    (200, "OK - Document successfully removed");
    (202, "Accepted - Request was accepted, but changes are not yet stored on disk");
    (400, "Bad Request - Invalid request body or parameters");
    (401, "Unauthorized - Write privilege required");
    (404, "Not Found - Specified database or document ID doesn't exist");
    (409, "Conflict - Specified revision is not the latest for target document")
  ].

Definition deleteDocument (baseUrl : string) (dbName : string) (docId : string) (rev : string) : CallResult :=
  request
    {| p_url := baseUrl +:+ "/" +:+ encodeURIComponent dbName +:+ "/" +:+ encodeURIComponent docId +:+ "?rev=" +:+ rev;
       p_method := Some "DELETE";
       p_statusCodes := Some deleteDocument_codes;
       p_postData := JUndefined;
       p_postContentType := JUndefined;
       p_stream := JUndefined |}.

Definition getUuids_codes : gmap Z string :=
  list_to_map [
    (200, "OK - Request completed successfully");
    (403, "Forbidden – Requested more UUIDs than is allowed to retrieve")
  ].

Definition getUuids (baseUrl : string) (count : Z) : CallResult :=
  request
    {| p_url := baseUrl +:+ "/_uuids?count=" +:+ Z_to_string (count_or_1 count);
       p_method := Some "GET";
       p_statusCodes := Some getUuids_codes;
       p_postData := JUndefined;
       p_postContentType := JUndefined;
       p_stream := JUndefined |}.

Definition getDesignDocument_codes : gmap Z string :=
  list_to_map [
    (200, "OK - Request completed successfully");
    (304, "Not Modified - Document wasn’t modified since specified revision");
    (400, "Bad Request - The format of the request or revision was invalid");
    (401, "Unauthorized - Read privilege required");
    (404, "Not Found - Document not found")
  ].

Definition getDesignDocument (baseUrl : string) (dbName : string) (docId : string) (queryObj : option (list (string * JsValue))) : CallResult :=
  match createQueryString queryObj with
  | Throw e => Threw e
  | Return queryStr =>
      request
        {| p_url := baseUrl +:+ "/" +:+ encodeURIComponent dbName +:+ "/_design/" +:+ encodeURIComponent docId +:+ queryStr;
           p_method := Some "GET";
           p_statusCodes := Some getDesignDocument_codes;
           p_postData := JUndefined;
           p_postContentType := JUndefined;
           p_stream := JUndefined |}
  end.

Definition getDesignDocumentInfo_codes : gmap Z string :=
  list_to_map [
    (200, "OK - Request completed successfully")
  ].

Definition getDesignDocumentInfo (baseUrl : string) (dbName : string) (docId : string) : CallResult :=
  request
    {| p_url := baseUrl +:+ "/" +:+ encodeURIComponent dbName +:+ "/_design/" +:+ encodeURIComponent docId +:+ "/_info";
       p_method := Some "GET";
       p_statusCodes := Some getDesignDocumentInfo_codes;
       p_postData := JUndefined;
       p_postContentType := JUndefined;
       p_stream := JUndefined |}.

Definition createDesignDocument_codes : gmap Z string :=
  list_to_map [
    (201, "Created – Document created and stored on disk");
    (202, "Accepted – Document data accepted, but not yet stored on disk");
    (400, "Bad Request – Invalid request body or parameters");
    (401, "Unauthorized – Write privileges required");
    (404, "Not Found – Specified database or document ID doesn’t exists");
    (409, "Conflict – Document with the specified ID already exists or specified revision is not latest for target document")
  ].

Definition createDesignDocument (baseUrl : string) (dbName : string) (doc : JsValue) (docId : string) : CallResult :=
  request
    {| p_url := baseUrl +:+ "/" +:+ encodeURIComponent dbName +:+ "/_design/" +:+ encodeURIComponent docId;
       p_method := Some "PUT";
       p_statusCodes := Some createDesignDocument_codes;
       p_postData := doc;
       p_postContentType := JUndefined;
       p_stream := JUndefined |}.

Definition deleteDesignDocument_codes : gmap Z string :=
  list_to_map [
    (200, "OK - Document successfully removed");
    (202, "Accepted - Request was accepted, but changes are not yet stored on disk");
    (400, "Bad Request - Invalid request body or parameters");
    (401, "Unauthorized - Write privilege required");
    (404, "Not Found - Specified database or document ID doesn't exist");
    (409, "Conflict - Specified revision is not the latest for target document")
  ].

Definition deleteDesignDocument (baseUrl : string) (dbName : string) (docId : string) (rev : string) : CallResult :=
  request
    {| p_url := baseUrl +:+ "/" +:+ encodeURIComponent dbName +:+ "/_design/" +:+ encodeURIComponent docId +:+ "?rev=" +:+ rev;
       p_method := Some "DELETE";
       p_statusCodes := Some deleteDesignDocument_codes;
       p_postData := JUndefined;
       p_postContentType := JUndefined;
       p_stream := JUndefined |}.

Definition getView_codes : gmap Z string :=
  list_to_map [
    (200, "OK - Request completed successfully")
  ].

Definition getView (baseUrl : string) (dbName : string) (docId : string) (viewName : string) (queryObj : option (list (string * JsValue))) : CallResult :=
  match createQueryString queryObj with
  | Throw e => Threw e
  | Return queryStr =>
      request
        {| p_url := baseUrl +:+ "/" +:+ encodeURIComponent dbName +:+ "/_design/" +:+ encodeURIComponent docId +:+ "/_view/" +:+ encodeURIComponent viewName +:+ queryStr;
           p_method := Some "GET";
           p_statusCodes := Some getView_codes;
           p_postData := JUndefined;
           p_postContentType := JUndefined;
           p_stream := JUndefined |}
  end.

Definition createBulkDocuments_codes : gmap Z string :=
  list_to_map [
    (201, "Created – Document(s) have been created or updated");
    (400, "Bad Request – The request provided invalid JSON data");
    (417, "Expectation Failed – Occurs when all_or_nothing option set as true and at least one document was rejected by validation function");
    (500, "Internal Server Error – Malformed data provided, while it’s still valid JSON")
  ].

Definition createBulkDocuments (baseUrl : string) (dbName : string) (docs : JsValue) (opts : option (list (string * JsValue))) : CallResult :=
  let obj := obj_assign [("docs", docs)] (default [] opts) in
  request
    {| p_url := baseUrl +:+ "/" +:+ encodeURIComponent dbName +:+ "/_bulk_docs";
       p_method := Some "POST";
       p_statusCodes := Some createBulkDocuments_codes;
       p_postData := JObj obj;
       p_postContentType := JUndefined;
       p_stream := JUndefined |}.

Definition getAttachmentHead_codes : gmap Z string :=
  list_to_map [
    (200, "OK - Attachment exists");
    (304, "Not Modified - Attachment wasn’t modified if ETag equals specified If-None-Match header");
    (401, "Unauthorized - Read privilege required");
    (404, "Not Found - Specified database, document or attchment was not found")
  ].

Definition getAttachmentHead (baseUrl : string) (dbName : string) (docId : string) (attName : string) (rev : string) : CallResult :=
  let queryStr := rev_query rev in
  request
    {| p_url := baseUrl +:+ "/" +:+ encodeURIComponent dbName +:+ "/" +:+ encodeURIComponent docId +:+ "/" +:+ encodeURIComponent attName +:+ queryStr;
       p_method := Some "HEAD";
       p_statusCodes := Some getAttachmentHead_codes;
       p_postData := JUndefined;
       p_postContentType := JUndefined;
       p_stream := JUndefined |}.

Definition getAttachment_codes : gmap Z string :=
  list_to_map [
    (200, "OK - Attachment exists");
    (304, "Not Modified - Attachment wasn’t modified if ETag equals specified If-None-Match header");
    (401, "Unauthorized - Read privilege required");
    (404, "Not Found - Specified database, document or attchment was not found")
  ].

Definition getAttachment (baseUrl : string) (dbName : string) (docId : string) (attName : string) (sink : JsValue) (rev : string) : CallResult :=
  let queryStr := rev_query rev in
  then_await_sink stream_error
    (requestStream
      {| p_url := baseUrl +:+ "/" +:+ encodeURIComponent dbName +:+ "/" +:+ encodeURIComponent docId +:+ "/" +:+ encodeURIComponent attName +:+ queryStr;
         p_method := None;
         p_statusCodes := Some getAttachment_codes;
         p_postData := JUndefined;
         p_postContentType := JUndefined;
         p_stream := sink |}).

Definition addAttachment_codes : gmap Z string :=
  list_to_map [
    (201, "OK - Created");
    (202, "Accepted - Request was but changes are not yet stored on disk");
    (401, "Unauthorized - Write privilege required");
    (404, "Not Found - Specified database, document or attchment was not found");
    (409, "409 Conflict – Document’s revision wasn’t specified or it’s not the latest")
  ].

Definition addAttachment (baseUrl : string) (dbName : string) (docId : string) (attName : string) (rev : string) (contentType : JsValue) (att : JsValue) : CallResult :=
  let queryStr := rev_query rev in
  request
    {| p_url := baseUrl +:+ "/" +:+ encodeURIComponent dbName +:+ "/" +:+ encodeURIComponent docId +:+ "/" +:+ encodeURIComponent attName +:+ queryStr;
       p_method := Some "PUT";
       p_statusCodes := Some addAttachment_codes;
       p_postData := att;
       p_postContentType := contentType;
       p_stream := JUndefined |}.

Definition deleteAttachment_codes : gmap Z string :=
  list_to_map [
    (200, "OK – Attachment successfully removed");
    (202, "Accepted - Request was but changes are not yet stored on disk");
    (400, "400 Bad Request – Invalid request body or parameters");
    (401, "Unauthorized - Write privilege required");
    (404, "Not Found - Specified database, document or attchment was not found");
    (409, "409 Conflict – Document’s revision wasn’t specified or it’s not the latest")
  ].

Definition deleteAttachment (baseUrl : string) (dbName : string) (docId : string) (attName : string) (rev : string) : CallResult :=
  let queryStr := rev_query rev in
  request
    {| p_url := baseUrl +:+ "/" +:+ encodeURIComponent dbName +:+ "/" +:+ encodeURIComponent docId +:+ "/" +:+ encodeURIComponent attName +:+ queryStr;
       p_method := Some "DELETE";
       p_statusCodes := Some deleteAttachment_codes;
       p_postData := JUndefined;
       p_postContentType := JUndefined;
       p_stream := JUndefined |}.

(** [module.exports]: the function a call names, applied to its arguments;
    [None] when the module exports no such function. *)
Definition invoke (baseUrl : string) (c : Call) : option CallResult :=
  match c with
  | GetInfo => Some (getInfo baseUrl)
  | ListDatabases => Some (listDatabases baseUrl)
  | CreateDatabase dbName => Some (createDatabase baseUrl dbName)
  | GetDatabase dbName => Some (getDatabase baseUrl dbName)
  | GetDatabaseHead dbName => Some (getDatabaseHead baseUrl dbName)
  | DeleteDatabase dbName => Some (deleteDatabase baseUrl dbName)
  | GetAllDocuments dbName queryObj => Some (getAllDocuments baseUrl dbName queryObj)
  | GetDocumentHead dbName docId queryObj => Some (getDocumentHead baseUrl dbName docId queryObj)
  | GetDocument dbName docId queryObj => Some (getDocument baseUrl dbName docId queryObj)
  | CreateDocument dbName doc docId => Some (createDocument baseUrl dbName doc docId)
  | DeleteDocument dbName docId rev => Some (deleteDocument baseUrl dbName docId rev)
  | GetUuids count => Some (getUuids baseUrl count)
  | GetDesignDocument dbName docId queryObj => Some (getDesignDocument baseUrl dbName docId queryObj)
  | GetDesignDocumentInfo dbName docId => Some (getDesignDocumentInfo baseUrl dbName docId)
  | CreateDesignDocument dbName doc docId => Some (createDesignDocument baseUrl dbName doc docId)
  | DeleteDesignDocument dbName docId rev => Some (deleteDesignDocument baseUrl dbName docId rev)
  | GetView dbName docId viewName queryObj => Some (getView baseUrl dbName docId viewName queryObj)
  | CreateBulkDocuments dbName docs opts => Some (createBulkDocuments baseUrl dbName docs opts)
  | GetAttachmentHead dbName docId attName rev => Some (getAttachmentHead baseUrl dbName docId attName rev)
  | GetAttachment dbName docId attName sink rev => Some (getAttachment baseUrl dbName docId attName sink rev)
  | AddAttachment dbName docId attName rev contentType att =>
      Some (addAttachment baseUrl dbName docId attName rev contentType att)
  | DeleteAttachment dbName docId attName rev => Some (deleteAttachment baseUrl dbName docId attName rev)
  | CopyDocument _ _ _ | FindDocuments _ _ | CreateIndex _ _ | GetIndex _ | DeleteIndex _ _ _
  | GetUrlPath _ => None
  end.

End WithPlatform.
End Legacy.

(** * The factory module *)

Module Factory.

Definition QUERY_KEYS_JSON : list string := ["key"; "keys"; "startkey"; "endkey"].

(** The argument of the constructor.  [None] is a property the caller did
    not give. *)
Record Options : Type := {
  baseUrl : option string;
  opt_requestTimeout : option Z;
  opt_verifyCertificate : option bool
}.

(** [config] once the defaults and the caller's options are merged. *)
Record Config : Type := {
  requestTimeout : Z;
  verifyCertificate : bool
}.

(** What the constructor's closure holds: [config], and the one
    [httpOptions] object every call of the client writes to. *)
Record Client : Type := {
  config : Config;
  httpOptions : HttpOptions
}.

(** A method of the client reads and updates the shared [httpOptions]. *)
Definition M (A : Type) : Type := HttpOptions -> A * HttpOptions.

Definition ret {A : Type} (a : A) : M A := fun o => (a, o).

Definition bind {A B : Type} (m : M A) (k : A -> M B) : M B :=
  fun o => let (a, o') := m o in k a o'.

(** The parameter object of [request] and [requestStream]. *)
Record Param : Type := {
  p_path : string;
  p_method : option string;
  p_headers : option (list (string * JsValue));
  p_statusCodes : option (gmap Z string);
  p_postData : JsValue;
  p_postContentType : JsValue;
  p_stream : JsValue
}.

(** The [forEach] of [createQueryString]. *)
Fixpoint stringify_keys (keys : list string) (obj : list (string * JsValue))
    : Completion (list (string * JsValue)) :=
  match keys with
  | [] => Return obj
  | key :: rest =>
      match assoc key obj with
      | Some v =>
          let! s := JSON_stringify v in
          stringify_keys rest (obj_set key (of_option s) obj)
      | None => stringify_keys rest obj
      end
  end.

Definition createQueryString (queryObj : option (list (string * JsValue))) : Completion string :=
  let obj := obj_assign [] (default [] queryObj) in
  let! obj := stringify_keys QUERY_KEYS_JSON obj in
  Return (if (length obj =? 0)%nat then "" else "?" +:+ querystring_stringify obj).

Definition stream_error (err : JsValue) : Envelope :=
  {| headers := ∅; data := Some (JObj [("error", err)]); status := 500;
     message := js_or (get_prop err "message") (JStr "stream error"); duration := None |}.

Section WithPlatform.
Context (P : Platform).

(** [module.exports = function (opt)]: the client, or the error thrown. *)
Definition factory (opt : Options) : Completion Client :=
  let config :=
    {| requestTimeout := default 10000 (opt_requestTimeout opt);
       verifyCertificate := default true (opt_verifyCertificate opt) |} in
  match baseUrl opt with
  | None =>
      Throw (JError "Error"
               ("missing property " +:+ String dquote ("baseUrl" +:+ String dquote EmptyString)))
  | Some url =>
      let o := urlParse P url in
      if negb (bool_decide (url_protocol o ∈ [Some "http:"; Some "https:"])
               && bool_decide (url_slashes o = Some true)
               && negb (parseInt_isNaN (url_port o))
               && truthy (of_option (url_hostname o)))
      then Throw (JError "Error" "invalid baseUrl")
      else
        Return
          {| config := config;
             httpOptions :=
               {| hostname := host_name o;
                  port := of_option (url_port o);
                  path := None;
                  auth := url_auth o;
                  protocol := url_protocol o;
                  method := None;
                  rejectUnauthorized := Some (verifyCertificate config);
                  req_headers :=
                    <["accept" := JStr "application/json"]>
                      {["user-agent" := JStr "couchdb-promises"]} |} |}
  end.

Definition statusCode (statusCodes : option (gmap Z string)) (status : Z) : string :=
  let codes := default ∅ statusCodes ∪ STATUS_CODES P in
  entry_or codes status "unknown status".

(** The closure of one client: its [config], and the clock ([Date.now()])
    when a call starts and when it refuses its payload. *)
Context (config : Config) (t0 t1 : Z).

Definition with_request (o : HttpOptions) (m : option string) (p : string) : HttpOptions :=
  {| hostname := hostname o; port := port o; path := Some p; auth := auth o;
     protocol := protocol o; method := m; rejectUnauthorized := rejectUnauthorized o;
     req_headers := req_headers o |}.

Definition with_headers (o : HttpOptions) (hs : gmap string JsValue) : HttpOptions :=
  {| hostname := hostname o; port := port o; path := path o; auth := auth o;
     protocol := protocol o; method := method o; rejectUnauthorized := rejectUnauthorized o;
     req_headers := hs |}.

(** The payload block of [request]: the shared headers as the block
    leaves them, and its local variables unless [Buffer.byteLength] threw. *)
Definition payload (postData postContentType : JsValue) (hs : gmap string JsValue)
    : gmap string JsValue * Completion Payload :=
  if isBuffer postData then
    (<["content-length" := JNum (Z.of_nat (byteLength (buffer_bytes postData)))]>
       (<["content-type" := postContentType]> hs),
     Return {| body := postData; stream := JUndefined; error := JUndefined |})
  else if is_readable postData then
    (<["Transfer-Encoding" := JStr "chunked"]> (<["content-type" := postContentType]> hs),
     Return {| body := JUndefined; stream := postData; error := JUndefined |})
  else if is_plain_object postData then
    let r := JSON_stringify postData in
    let body := match r with Return o => o | Throw _ => None end in
    let error := match r with Return _ => JUndefined | Throw err => err end in
    let hs := <["content-type" := JStr "application/json"]> hs in
    match byteLength_of P body with
    | Throw e => (hs, Throw e)
    | Return n =>
        (<["content-length" := JNum n]> hs,
         Return {| body := of_option body; stream := JUndefined; error := error |})
    end
  else if is_string postData then
    (<["content-length" := JNum (Z.of_nat (js_length (string_of postData)))]>
       (<["content-type" := postContentType]> hs),
     Return {| body := postData; stream := JUndefined; error := JUndefined |})
  else if truthy postData || is_null postData then
    (hs, Return {| body := JUndefined; stream := JUndefined; error := JStr "unsupported post data" |})
  else
    (hs, Return {| body := JUndefined; stream := JUndefined; error := JUndefined |}).

Definition invalid_post_data (error : JsValue) : Envelope :=
  {| headers := ∅; data := Some (JObj [("error", error)]); status := 400;
     message := JStr "invalid post data"; duration := Some (t1 - t0) |}.

Definition timed_out (now : Z) : Envelope :=
  {| headers := ∅; data := Some (JObj [("error", JStr "request timed out")]); status := 500;
     message := JStr "Error: request timed out"; duration := Some (now - t0) |}.

Definition transport_error (err : JsValue) (now : Z) : Envelope :=
  {| headers := ∅; data := Some (JObj [("error", err)]); status := 500;
     message := js_or (get_prop err "message") (JStr "internal error");
     duration := Some (now - t0) |}.

(** The envelope the [end] handler builds, in its [try] block or in its
    [catch]. *)
Definition on_end (statusCodes : option (gmap Z string)) (code : Z) (hs : gmap string JsValue)
    (buffer : string) (now : Z) : Envelope :=
  match JSON_parse P (if String.eqb buffer "" then "{}" else buffer) with
  | Return d =>
      {| headers := hs; data := Some d; status := code;
         message := JStr (statusCode statusCodes code); duration := Some (now - t0) |}
  | Throw err =>
      {| headers := hs; data := Some (JObj [("error", get_prop err "message")]); status := 500;
         message := js_or (get_prop err "message") (JStr "internal error");
         duration := Some (now - t0) |}
  end.

(** The callbacks [request] registers, run on one event. *)
Definition request_step (statusCodes : option (gmap Z string)) (x : Exchange) (ev : Z * Event)
    : Exchange :=
  match snd ev with
  | Response code hs => {| promise := promise x; res := Some (code, hs); buffer := "" |}
  | Data chunk =>
      match res x with
      | Some _ => {| promise := promise x; res := res x; buffer := buffer x +:+ chunk |}
      | None => x
      end
  | End =>
      match res x with
      | Some (code, hs) =>
          let ret := on_end statusCodes code hs (buffer x) (fst ev) in
          {| promise := if status ret <? 400 then resolve ret (promise x) else reject ret (promise x);
             res := res x; buffer := buffer x |}
      | None => x
      end
  | Timeout =>
      {| promise := reject (timed_out (fst ev)) (promise x); res := res x; buffer := buffer x |}
  | Error err =>
      {| promise := reject (transport_error err (fst ev)) (promise x);
         res := res x; buffer := buffer x |}
  | SinkClose | SinkError _ | Jobs => x
  end.

Definition request (param : Param) : M CallResult := fun httpOptions =>
  let httpOptions := with_request httpOptions (p_method param) ("/" +:+ p_path param) in
  let statusCodes := p_statusCodes param in
  let destination := get_prop (JObj (default [] (p_headers param))) "Destination" in
  let httpOptions :=
    if truthy destination
    then with_headers httpOptions (<["Destination" := destination]> (req_headers httpOptions))
    else httpOptions in
  let (hs, r) := payload (p_postData param) (p_postContentType param) (req_headers httpOptions) in
  let httpOptions := with_headers httpOptions hs in
  match r with
  | Throw e => (Threw e, httpOptions)
  | Return pl =>
      if truthy (error pl) then (Settled (Rejected (invalid_post_data (error pl))), httpOptions)
      else
        (Sent {| lib := lib_of (protocol httpOptions); options := httpOptions;
                 timeout := requestTimeout config; written := write_of pl |}
              (fun t => promise (fold_left (request_step statusCodes) t exchange0)),
         httpOptions)
  end.

(** The response callback of [requestStream] and its two other handlers. *)
Definition requestStream_step (statusCodes : option (gmap Z string)) (p : Settlement)
    (ev : Z * Event) : Settlement :=
  match snd ev with
  | Response code hs =>
      let ret := {| headers := hs; data := None; status := code;
                    message := JStr (statusCode statusCodes code);
                    duration := Some (fst ev - t0) |} in
      if status ret <? 400 then resolve ret p else reject ret p
  | Timeout => reject (timed_out (fst ev)) p
  | Error err => reject (transport_error err (fst ev)) p
  | _ => p
  end.

Definition requestStream (param : Param) : M CallResult := fun httpOptions =>
  let statusCodes := p_statusCodes param in
  if negb (is_writable (p_stream param)) then (Threw AssertionError, httpOptions)
  else
    let httpOptions := with_request httpOptions (Some "GET") ("/" +:+ p_path param) in
    (Sent {| lib := lib_of (protocol httpOptions); options := httpOptions;
             timeout := requestTimeout config; written := WriteNothing |}
          (fun t => fold_left (requestStream_step statusCodes) t Pending),
     httpOptions).

(** ** The API surface *)

Definition getInfo_codes : gmap Z string :=
  list_to_map [
    (200, "OK - Request completed successfully")
  ].

Definition getInfo : M CallResult :=
  request
    {| p_path := "";
       p_method := Some "GET";
       p_headers := None;
       p_statusCodes := Some getInfo_codes;
       p_postData := JUndefined;
       p_postContentType := JUndefined;
       p_stream := JUndefined |}.

Definition listDatabases_codes : gmap Z string :=
  list_to_map [
    (200, "OK - Request completed successfully")
  ].

Definition listDatabases : M CallResult :=
  request
    {| p_path := "_all_dbs";
       p_method := Some "GET";
       p_headers := None;
       p_statusCodes := Some listDatabases_codes;
       p_postData := JUndefined;
       p_postContentType := JUndefined;
       p_stream := JUndefined |}.

Definition createDatabase_codes : gmap Z string :=
  list_to_map [
    (201, "Created - Database created successfully");
    (400, "Bad Request - Invalid database name");
    (401, "Unauthorized - CouchDB Server Administrator privileges required");
    (412, "Precondition Failed - Database already exists")
  ].

Definition createDatabase (dbName : string) : M CallResult :=
  request
    {| p_path := encodeURIComponent dbName;
       p_method := Some "PUT";
       p_headers := None;
       p_statusCodes := Some createDatabase_codes;
       p_postData := JUndefined;
       p_postContentType := JUndefined;
       p_stream := JUndefined |}.

Definition getDatabase_codes : gmap Z string :=
  list_to_map [
    (200, "OK - Request completed successfully");
    (404, "Not Found – Requested database not found")
  ].

Definition getDatabase (dbName : string) : M CallResult :=
  request
    {| p_path := encodeURIComponent dbName;
       p_method := Some "GET";
       p_headers := None;
       p_statusCodes := Some getDatabase_codes;
       p_postData := JUndefined;
       p_postContentType := JUndefined;
       p_stream := JUndefined |}.

Definition getDatabaseHead_codes : gmap Z string :=
  list_to_map [
    (200, "OK - Database exists");
    (404, "Not Found – Requested database not found")
  ].

Definition getDatabaseHead (dbName : string) : M CallResult :=
  request
    {| p_path := encodeURIComponent dbName;
       p_method := Some "HEAD";
       p_headers := None;
       p_statusCodes := Some getDatabaseHead_codes;
       p_postData := JUndefined;
       p_postContentType := JUndefined;
       p_stream := JUndefined |}.

Definition deleteDatabase_codes : gmap Z string :=
  list_to_map [
    (200, "OK - Database removed successfully");
    (400, "Bad Request - Invalid database name or forgotten document id by accident");
    (401, "Unauthorized - CouchDB Server Administrator privileges required");
    (404, "Not Found - Database doesn’t exist")
  ].

Definition deleteDatabase (dbName : string) : M CallResult :=
  request
    {| p_path := encodeURIComponent dbName;
       p_method := Some "DELETE";
       p_headers := None;
       p_statusCodes := Some deleteDatabase_codes;
       p_postData := JUndefined;
       p_postContentType := JUndefined;
       p_stream := JUndefined |}.

Definition getAllDocuments_codes : gmap Z string :=
  list_to_map [
    (200, "OK - Request completed successfully")
  ].

Definition getAllDocuments (dbName : string) (queryObj : option (list (string * JsValue))) : M CallResult :=
  match createQueryString queryObj with
  | Throw e => fun o => (Threw e, o)
  | Return queryStr =>
      request
        {| p_path := encodeURIComponent dbName +:+ "/_all_docs" +:+ queryStr;
           p_method := Some "GET";
           p_headers := None;
           p_statusCodes := Some getAllDocuments_codes;
           p_postData := JUndefined;
           p_postContentType := JUndefined;
           p_stream := JUndefined |}
  end.

Definition getDocumentHead_codes : gmap Z string :=
  list_to_map [
    (200, "OK - Document exists");
    (304, "Not Modified - Document wasn’t modified since specified revision");
    (401, "Unauthorized - Read privilege required");
    (404, "Not Found - Document not found")
  ].

Definition getDocumentHead (dbName : string) (docId : string) (queryObj : option (list (string * JsValue))) : M CallResult :=
  match createQueryString queryObj with
  | Throw e => fun o => (Threw e, o)
  | Return queryStr =>
      request
        {| p_path := encodeURIComponent dbName +:+ "/" +:+ encodeURIComponent docId +:+ queryStr;
           p_method := Some "HEAD";
           p_headers := None;
           p_statusCodes := Some getDocumentHead_codes;
           p_postData := JUndefined;
           p_postContentType := JUndefined;
           p_stream := JUndefined |}
  end.

Definition getDocument_codes : gmap Z string :=
  list_to_map [
    (200, "OK - Request completed successfully");
    (304, "Not Modified - Document wasn’t modified since specified revision");
    (400, "Bad Request - The format of the request or revision was invalid");
    (401, "Unauthorized - Read privilege required");
    (404, "Not Found - Document not found")
  ].

Definition getDocument (dbName : string) (docId : string) (queryObj : option (list (string * JsValue))) : M CallResult :=
  match createQueryString queryObj with
  | Throw e => fun o => (Threw e, o)
  | Return queryStr =>
      request
        {| p_path := encodeURIComponent dbName +:+ "/" +:+ encodeURIComponent docId +:+ queryStr;
           p_method := Some "GET";
           p_headers := None;
           p_statusCodes := Some getDocument_codes;
           p_postData := JUndefined;
           p_postContentType := JUndefined;
           p_stream := JUndefined |}
  end.

Definition copyDocument_codes : gmap Z string :=
  list_to_map [
    (201, "Created – Document created and stored on disk");
    (202, "Accepted – Document data accepted, but not yet stored on disk");
    (400, "Bad Request – Invalid request body or parameters");
    (401, "Unauthorized – Write privileges required");
    (404, "Not Found – Specified database or document ID doesn’t exists");
    (409, "Conflict – Document with the specified ID already exists or specified revision is not latest for target document")
  ].

Definition copyDocument (dbName : string) (docId : string) (newDocId : string) : M CallResult :=
  if truthy (JStr docId) && truthy (JStr newDocId) then
    request
      {| p_path := encodeURIComponent dbName +:+ "/" +:+ encodeURIComponent docId;
         p_method := Some "COPY";
         p_headers := Some [("Destination", JStr newDocId)];
         p_statusCodes := Some copyDocument_codes;
         p_postData := JUndefined;
         p_postContentType := JUndefined;
         p_stream := JUndefined |}
  else ret NoPromise.

Definition createDocument_put_codes : gmap Z string :=
  list_to_map [
    (201, "Created – Document created and stored on disk");
    (202, "Accepted – Document data accepted, but not yet stored on disk");
    (400, "Bad Request – Invalid request body or parameters");
    (401, "Unauthorized – Write privileges required");
    (404, "Not Found – Specified database or document ID doesn’t exists");
    (409, "Conflict – Document with the specified ID already exists or specified revision is not latest for target document")
  ].

Definition createDocument_post_codes : gmap Z string :=
  list_to_map [
    (201, "Created – Document created and stored on disk");
    (202, "Accepted – Document data accepted, but not yet stored on disk");
    (400, "Bad Request – Invalid database name");
    (401, "Unauthorized – Write privileges required");
    (404, "Not Found – Database doesn’t exists");
    (409, "Conflict – A Conflicting Document with same ID already exists")
  ].

Definition createDocument (dbName : string) (doc : JsValue) (docId : string) : M CallResult :=
  if truthy (JStr docId) then
    request
      {| p_path := encodeURIComponent dbName +:+ "/" +:+ encodeURIComponent docId;
         p_method := Some "PUT";
         p_headers := None;
         p_statusCodes := Some createDocument_put_codes;
         p_postData := doc;
         p_postContentType := JStr "application/json";
         p_stream := JUndefined |}
  else
    request
      {| p_path := encodeURIComponent dbName;
         p_method := Some "POST";
         p_headers := None;
         p_statusCodes := Some createDocument_post_codes;
         p_postData := doc;
         p_postContentType := JUndefined;
         p_stream := JUndefined |}.

Definition deleteDocument_codes : gmap Z string :=
  list_to_map [
    (200, "OK - Document successfully removed");
    (202, "Accepted - Request was accepted, but changes are not yet stored on disk");
    (400, "Bad Request - Invalid request body or parameters");
    (401, "Unauthorized - Write privilege required");
    (404, "Not Found - Specified database or document ID doesn't exist");
    (409, "Conflict - Specified revision is not the latest for target document")
  ].

Definition deleteDocument (dbName : string) (docId : string) (rev : string) : M CallResult :=
  request
    {| p_path := encodeURIComponent dbName +:+ "/" +:+ encodeURIComponent docId +:+ "?rev=" +:+ rev;
       p_method := Some "DELETE";
       p_headers := None;
       p_statusCodes := Some deleteDocument_codes;
       p_postData := JUndefined;
       p_postContentType := JUndefined;
       p_stream := JUndefined |}.

Definition findDocuments_codes : gmap Z string :=
  list_to_map [
    (200, "OK - Request completed successfully");
    (400, "Bad Request - Invalid request");
    (401, "Unauthorized - Read permission required");
    (500, "Internal Server Error - Query execution error")
  ].

Definition findDocuments (dbName : string) (queryObj : JsValue) : M CallResult :=
  request
    {| p_path := encodeURIComponent dbName +:+ "/_find";
       p_method := Some "POST";
       p_headers := None;
       p_statusCodes := Some findDocuments_codes;
       p_postData := queryObj;
       p_postContentType := JUndefined;
       p_stream := JUndefined |}.

Definition getUuids_codes : gmap Z string :=
  list_to_map [
    (200, "OK - Request completed successfully");
    (403, "Forbidden – Requested more UUIDs than is allowed to retrieve")
  ].

Definition getUuids (count : Z) : M CallResult :=
  request
    {| p_path := "_uuids?count=" +:+ Z_to_string (count_or_1 count);
       p_method := Some "GET";
       p_headers := None;
       p_statusCodes := Some getUuids_codes;
       p_postData := JUndefined;
       p_postContentType := JUndefined;
       p_stream := JUndefined |}.

Definition getDesignDocument_codes : gmap Z string :=
  list_to_map [
    (200, "OK - Request completed successfully");
    (304, "Not Modified - Document wasn’t modified since specified revision");
    (400, "Bad Request - The format of the request or revision was invalid");
    (401, "Unauthorized - Read privilege required");
    (404, "Not Found - Document not found")
  ].

Definition getDesignDocument (dbName : string) (docId : string) (queryObj : option (list (string * JsValue))) : M CallResult :=
  match createQueryString queryObj with
  | Throw e => fun o => (Threw e, o)
  | Return queryStr =>
      request
        {| p_path := encodeURIComponent dbName +:+ "/_design/" +:+ encodeURIComponent docId +:+ queryStr;
           p_method := Some "GET";
           p_headers := None;
           p_statusCodes := Some getDesignDocument_codes;
           p_postData := JUndefined;
           p_postContentType := JUndefined;
           p_stream := JUndefined |}
  end.

Definition getDesignDocumentInfo_codes : gmap Z string :=
  list_to_map [
    (200, "OK - Request completed successfully")
  ].

Definition getDesignDocumentInfo (dbName : string) (docId : string) : M CallResult :=
  request
    {| p_path := encodeURIComponent dbName +:+ "/_design/" +:+ encodeURIComponent docId +:+ "/_info";
       p_method := Some "GET";
       p_headers := None;
       p_statusCodes := Some getDesignDocumentInfo_codes;
       p_postData := JUndefined;
       p_postContentType := JUndefined;
       p_stream := JUndefined |}.

Definition createDesignDocument_codes : gmap Z string :=
  list_to_map [
    (201, "Created – Document created and stored on disk");
    (202, "Accepted – Document data accepted, but not yet stored on disk");
    (400, "Bad Request – Invalid request body or parameters");
    (401, "Unauthorized – Write privileges required");
    (404, "Not Found – Specified database or document ID doesn’t exists");
    (409, "Conflict – Document with the specified ID already exists or specified revision is not latest for target document")
  ].

Definition createDesignDocument (dbName : string) (doc : JsValue) (docId : string) : M CallResult :=
  request
    {| p_path := encodeURIComponent dbName +:+ "/_design/" +:+ encodeURIComponent docId;
       p_method := Some "PUT";
       p_headers := None;
       p_statusCodes := Some createDesignDocument_codes;
       p_postData := doc;
       p_postContentType := JUndefined;
       p_stream := JUndefined |}.

Definition deleteDesignDocument_codes : gmap Z string :=
  list_to_map [
    (200, "OK - Document successfully removed");
    (202, "Accepted - Request was accepted, but changes are not yet stored on disk");
    (400, "Bad Request - Invalid request body or parameters");
    (401, "Unauthorized - Write privilege required");
    (404, "Not Found - Specified database or document ID doesn't exist");
    (409, "Conflict - Specified revision is not the latest for target document")
  ].

Definition deleteDesignDocument (dbName : string) (docId : string) (rev : string) : M CallResult :=
  request
    {| p_path := encodeURIComponent dbName +:+ "/_design/" +:+ encodeURIComponent docId +:+ "?rev=" +:+ rev;
       p_method := Some "DELETE";
       p_headers := None;
       p_statusCodes := Some deleteDesignDocument_codes;
       p_postData := JUndefined;
       p_postContentType := JUndefined;
       p_stream := JUndefined |}.

Definition getView_codes : gmap Z string :=
  list_to_map [
    (200, "OK - Request completed successfully")
  ].

Definition getView (dbName : string) (docId : string) (viewName : string) (queryObj : option (list (string * JsValue))) : M CallResult :=
  match createQueryString queryObj with
  | Throw e => fun o => (Threw e, o)
  | Return queryStr =>
      request
        {| p_path := encodeURIComponent dbName +:+ "/_design/" +:+ encodeURIComponent docId +:+ "/_view/" +:+ encodeURIComponent viewName +:+ queryStr;
           p_method := Some "GET";
           p_headers := None;
           p_statusCodes := Some getView_codes;
           p_postData := JUndefined;
           p_postContentType := JUndefined;
           p_stream := JUndefined |}
  end.

Definition createBulkDocuments_codes : gmap Z string :=
  list_to_map [
    (201, "Created – Document(s) have been created or updated");
    (400, "Bad Request – The request provided invalid JSON data");
    (417, "Expectation Failed – Occurs when all_or_nothing option set as true and at least one document was rejected by validation function");
    (500, "Internal Server Error – Malformed data provided, while it’s still valid JSON")
  ].

Definition createBulkDocuments (dbName : string) (docs : JsValue) (opts : option (list (string * JsValue))) : M CallResult :=
  let obj := obj_assign [("docs", docs)] (default [] opts) in
  request
    {| p_path := encodeURIComponent dbName +:+ "/_bulk_docs";
       p_method := Some "POST";
       p_headers := None;
       p_statusCodes := Some createBulkDocuments_codes;
       p_postData := JObj obj;
       p_postContentType := JUndefined;
       p_stream := JUndefined |}.

Definition getAttachmentHead_codes : gmap Z string :=
  list_to_map [
    (200, "OK - Attachment exists");
    (304, "Not Modified - Attachment wasn’t modified if ETag equals specified If-None-Match header");
    (401, "Unauthorized - Read privilege required");
    (404, "Not Found - Specified database, document or attchment was not found")
  ].

Definition getAttachmentHead (dbName : string) (docId : string) (attName : string) (rev : string) : M CallResult :=
  let queryStr := rev_query rev in
  request
    {| p_path := encodeURIComponent dbName +:+ "/" +:+ encodeURIComponent docId +:+ "/" +:+ encodeURIComponent attName +:+ queryStr;
       p_method := Some "HEAD";
       p_headers := None;
       p_statusCodes := Some getAttachmentHead_codes;
       p_postData := JUndefined;
       p_postContentType := JUndefined;
       p_stream := JUndefined |}.

Definition getAttachment_codes : gmap Z string :=
  list_to_map [
    (200, "OK - Attachment exists");
    (304, "Not Modified - Attachment wasn’t modified if ETag equals specified If-None-Match header");
    (401, "Unauthorized - Read privilege required");
    (404, "Not Found - Specified database, document or attchment was not found")
  ].

Definition getAttachment (dbName : string) (docId : string) (attName : string) (sink : JsValue) (rev : string) : M CallResult :=
  let queryStr := rev_query rev in
  fun o =>
    let (c, o') :=
      requestStream
        {| p_path := encodeURIComponent dbName +:+ "/" +:+ encodeURIComponent docId +:+ "/" +:+ encodeURIComponent attName +:+ queryStr;
           p_method := None;
           p_headers := None;
           p_statusCodes := Some getAttachment_codes;
           p_postData := JUndefined;
           p_postContentType := JUndefined;
           p_stream := sink |} o in
    (then_await_sink stream_error c, o').

Definition addAttachment_codes : gmap Z string :=
  list_to_map [
    (201, "OK - Created");
    (202, "Accepted - Request was but changes are not yet stored on disk");
    (401, "Unauthorized - Write privilege required");
    (404, "Not Found - Specified database, document or attchment was not found");
    (409, "409 Conflict – Document’s revision wasn’t specified or it’s not the latest")
  ].

Definition addAttachment (dbName : string) (docId : string) (attName : string) (rev : string) (contentType : JsValue) (att : JsValue) : M CallResult :=
  let queryStr := rev_query rev in
  request
    {| p_path := encodeURIComponent dbName +:+ "/" +:+ encodeURIComponent docId +:+ "/" +:+ encodeURIComponent attName +:+ queryStr;
       p_method := Some "PUT";
       p_headers := None;
       p_statusCodes := Some addAttachment_codes;
       p_postData := att;
       p_postContentType := contentType;
       p_stream := JUndefined |}.

Definition deleteAttachment_codes : gmap Z string :=
  list_to_map [
    (200, "OK – Attachment successfully removed");
    (202, "Accepted - Request was but changes are not yet stored on disk");
    (400, "400 Bad Request – Invalid request body or parameters");
    (401, "Unauthorized - Write privilege required");
    (404, "Not Found - Specified database, document or attchment was not found");
    (409, "409 Conflict – Document’s revision wasn’t specified or it’s not the latest")
  ].

Definition deleteAttachment (dbName : string) (docId : string) (attName : string) (rev : string) : M CallResult :=
  let queryStr := rev_query rev in
  request
    {| p_path := encodeURIComponent dbName +:+ "/" +:+ encodeURIComponent docId +:+ "/" +:+ encodeURIComponent attName +:+ queryStr;
       p_method := Some "DELETE";
       p_headers := None;
       p_statusCodes := Some deleteAttachment_codes;
       p_postData := JUndefined;
       p_postContentType := JUndefined;
       p_stream := JUndefined |}.

Definition createIndex_codes : gmap Z string :=
  list_to_map [
    (200, "OK - Index created successfully or already exists");
    (400, "Bad Request - Invalid request");
    (401, "Unauthorized - Admin permission required");
    (500, "Internal Server Error - Execution error")
  ].

Definition createIndex (dbName : string) (queryObj : JsValue) : M CallResult :=
  request
    {| p_path := encodeURIComponent dbName +:+ "/_index";
       p_method := Some "POST";
       p_headers := None;
       p_statusCodes := Some createIndex_codes;
       p_postData := queryObj;
       p_postContentType := JUndefined;
       p_stream := JUndefined |}.

Definition getIndex_codes : gmap Z string :=
  list_to_map [
    (200, "OK - Success");
    (400, "Bad Request - Invalid request");
    (401, "Unauthorized - Read permission required");
    (500, "Internal Server Error - Execution error")
  ].

Definition getIndex (dbName : string) : M CallResult :=
  request
    {| p_path := encodeURIComponent dbName +:+ "/_index";
       p_method := Some "GET";
       p_headers := None;
       p_statusCodes := Some getIndex_codes;
       p_postData := JUndefined;
       p_postContentType := JUndefined;
       p_stream := JUndefined |}.

Definition deleteIndex_codes : gmap Z string :=
  list_to_map [
    (200, "OK - Success");
    (400, "Bad Request - Invalid request");
    (401, "Unauthorized - Writer permission required");
    (404, "Not Found - Index not found");
    (500, "Internal Server Error - Execution error")
  ].

Definition deleteIndex (dbName : string) (docId : string) (name : string) : M CallResult :=
  request
    {| p_path := encodeURIComponent dbName +:+ "/_index/" +:+ encodeURIComponent docId +:+ "/json/" +:+ encodeURIComponent name;
       p_method := Some "DELETE";
       p_headers := None;
       p_statusCodes := Some deleteIndex_codes;
       p_postData := JUndefined;
       p_postContentType := JUndefined;
       p_stream := JUndefined |}.

Definition getUrlPath (path : string) : M CallResult :=
  request
    {| p_path := path;
       p_method := None;
       p_headers := None;
       p_statusCodes := None;
       p_postData := JUndefined;
       p_postContentType := JUndefined;
       p_stream := JUndefined |}.

(** The methods of [couch], by the call that names them. *)
Definition invoke (c : Call) : M CallResult :=
  match c with
  | GetInfo => getInfo
  | ListDatabases => listDatabases
  | CreateDatabase dbName => createDatabase dbName
  | GetDatabase dbName => getDatabase dbName
  | GetDatabaseHead dbName => getDatabaseHead dbName
  | DeleteDatabase dbName => deleteDatabase dbName
  | GetAllDocuments dbName queryObj => getAllDocuments dbName queryObj
  | GetDocumentHead dbName docId queryObj => getDocumentHead dbName docId queryObj
  | GetDocument dbName docId queryObj => getDocument dbName docId queryObj
  | CopyDocument dbName docId newDocId => copyDocument dbName docId newDocId
  | CreateDocument dbName doc docId => createDocument dbName doc docId
  | DeleteDocument dbName docId rev => deleteDocument dbName docId rev
  | FindDocuments dbName queryObj => findDocuments dbName queryObj
  | GetUuids count => getUuids count
  | GetDesignDocument dbName docId queryObj => getDesignDocument dbName docId queryObj
  | GetDesignDocumentInfo dbName docId => getDesignDocumentInfo dbName docId
  | CreateDesignDocument dbName doc docId => createDesignDocument dbName doc docId
  | DeleteDesignDocument dbName docId rev => deleteDesignDocument dbName docId rev
  | GetView dbName docId viewName queryObj => getView dbName docId viewName queryObj
  | CreateBulkDocuments dbName docs opts => createBulkDocuments dbName docs opts
  | GetAttachmentHead dbName docId attName rev => getAttachmentHead dbName docId attName rev
  | GetAttachment dbName docId attName sink rev => getAttachment dbName docId attName sink rev
  | AddAttachment dbName docId attName rev contentType att =>
      addAttachment dbName docId attName rev contentType att
  | DeleteAttachment dbName docId attName rev => deleteAttachment dbName docId attName rev
  | CreateIndex dbName queryObj => createIndex dbName queryObj
  | GetIndex dbName => getIndex dbName
  | DeleteIndex dbName docId name => deleteIndex dbName docId name
  | GetUrlPath path => getUrlPath path
  end.

End WithPlatform.
End Factory.

(** * A reference platform

    An instance of [Platform] to run the two modules on concrete calls.  Its
    URL parser covers the URLs written [scheme://[auth@]host[:port][/path]]
    in lower case whose path and query string hold, besides the characters
    that [url.parse] leaves as they are (letters, digits and
    [- _ . ! ~ * ( ) % / ? & =]), only apostrophes, which it escapes as
    [url.parse] does.  A port that is not made of digits it reads as
    [url.parse] does: as no port, and as the start of the path.  Its JSON
    reader covers the texts with integral numbers and two-character
    escapes.  On these they return what Node returns. *)

Module Reference.

(** The text before the first character that satisfies [p], and the rest. *)
Fixpoint break (p : ascii -> bool) (l : list ascii) : list ascii * list ascii :=
  match l with
  | [] => ([], [])
  | c :: r => if p c then ([], l) else let (a, b) := break p r in (c :: a, b)
  end.

Definition is_char (n : nat) (c : ascii) : bool := (nat_of_ascii c =? n)%nat.

Definition scheme_char (c : ascii) : bool :=
  let n := nat_of_ascii c in
  (is_digit c || (97 <=? n) && (n <=? 122) || (n =? 43) || (n =? 45) || (n =? 46))%nat.

Definition path_start (c : ascii) : bool := is_char 47 c || is_char 63 c.

Definition text (l : list ascii) : string := string_of_list_ascii l.

Definition opt_text (l : list ascii) : option string :=
  match l with [] => None | _ => Some (text l) end.

(** The authority [auth@host:port] taken apart: the credentials, the host
    name, the port, and what is left over.  A colon followed by anything
    but digits starts no port: the host name ends before it, and the text
    from the colon on is left over for the path. *)
Definition authority (l : list ascii)
    : option string * string * option string * list ascii :=
  let (a, h) :=
    match break (is_char 64) l with
    | (a, _ :: h) => (Some (text a), h)
    | (_, []) => (None, l)
    end in
  match break (is_char 58) h with
  | (name, colon :: after) =>
      if forallb is_digit after then (a, text name, opt_text after, [])
      else (a, text name, None, colon :: after)
  | (_, []) => (a, text h, None, [])
  end.

(** The apostrophe is escaped in what follows the host. *)
Fixpoint escape_apostrophe (l : list ascii) : list ascii :=
  match l with
  | [] => []
  | c :: r =>
      if is_char 39 c then list_ascii_of_string "%27" ++ escape_apostrophe r
      else c :: escape_apostrophe r
  end.

Definition no_url (s : string) : UrlObject :=
  {| url_protocol := None; url_slashes := None; url_auth := None; url_host := None;
     url_port := None; url_hostname := None; url_path := Some s |}.

Definition url_parse (s : string) : UrlObject :=
  match break (is_char 58) (list_ascii_of_string s) with
  | (scheme, _ :: rest) =>
      if forallb scheme_char scheme && negb (length scheme =? 0)%nat then
        match rest with
        | s1 :: s2 :: after =>
            if is_char 47 s1 && is_char 47 s2 then
              let (auth_host, p) := break path_start after in
              let '(a, name, prt, left_over) := authority auth_host in
              let p := escape_apostrophe (left_over ++ p) in
              {| url_protocol := Some (text scheme +:+ ":");
                 url_slashes := Some true;
                 url_auth := a;
                 url_host := Some (match prt with Some d => name +:+ ":" +:+ d | None => name end);
                 url_port := prt;
                 url_hostname := Some name;
                 url_path := Some (match p with
                                   | [] => "/"
                                   | c :: _ => if is_char 47 c then text p else "/" +:+ text p
                                   end) |}
            else
              {| url_protocol := Some (text scheme +:+ ":"); url_slashes := None;
                 url_auth := None; url_host := None; url_port := None; url_hostname := None;
                 url_path := opt_text rest |}
        | _ =>
            {| url_protocol := Some (text scheme +:+ ":"); url_slashes := None;
               url_auth := None; url_host := None; url_port := None; url_hostname := None;
               url_path := opt_text rest |}
        end
      else no_url s
  | (_, []) => no_url s
  end.

Definition SyntaxError : JsValue := JError "SyntaxError" "Unexpected token in JSON".

Definition skip (l : list ascii) : list ascii := drop_while is_space l.

(** The characters of a string literal after its opening quote. *)
Fixpoint read_string (l : list ascii) : option (string * list ascii) :=
  match l with
  | [] => None
  | c :: r =>
      if is_char 34 c then Some ("", r)
      else if is_char 92 c then
        match r with
        | e :: r' =>
            let n := nat_of_ascii e in
            let plain (x : nat) :=
              match read_string r' with
              | Some (s, k) => Some (String (ascii_of_nat x) s, k)
              | None => None
              end in
            if (n =? 34)%nat then plain 34%nat
            else if (n =? 92)%nat then plain 92%nat
            else if (n =? 47)%nat then plain 47%nat
            else if (n =? 98)%nat then plain 8%nat
            else if (n =? 102)%nat then plain 12%nat
            else if (n =? 110)%nat then plain 10%nat
            else if (n =? 114)%nat then plain 13%nat
            else if (n =? 116)%nat then plain 9%nat
            else None
        | [] => None
        end
      else if (nat_of_ascii c <? 32)%nat then None
      else
        match read_string r with
        | Some (s, k) => Some (String c s, k)
        | None => None
        end
  end.

Definition digits_value (l : list ascii) : Z :=
  fold_left (fun acc c => 10 * acc + Z.of_nat (nat_of_ascii c - 48)) l 0.

(** An integer literal: an optional minus, then 0 or digits that do not
    start with 0; a fraction or an exponent is outside the fragment. *)
Definition read_number (l : list ascii) : option (Z * list ascii) :=
  let (neg, l') :=
    match l with
    | c :: r => if is_char 45 c then (true, r) else (false, l)
    | [] => (false, l)
    end in
  let (ds, k) := break (fun c => negb (is_digit c)) l' in
  match ds with
  | [] => None
  | d :: more =>
      if is_char 48 d && negb (length more =? 0)%nat then None
      else
        match k with
        | c :: _ =>
            if is_char 46 c || is_char 101 c || is_char 69 c then None
            else Some (if neg then - digits_value ds else digits_value ds, k)
        | [] => Some (if neg then - digits_value ds else digits_value ds, k)
        end
  end.

Definition keyword (w : string) (l : list ascii) : option (list ascii) :=
  let w := list_ascii_of_string w in
  if bool_decide (take (length w) l = w) then Some (drop (length w) l) else None.

(** One JSON value and the text after it; [fuel] bounds the nesting and
    the number of members. *)
Fixpoint read_value (fuel : nat) (l : list ascii) : option (JsValue * list ascii) :=
  match fuel with
  | O => None
  | S fuel =>
      let read_members :=
        fix read_members (n : nat) (acc : list (string * JsValue)) (l : list ascii)
            : option (JsValue * list ascii) :=
          match n with
          | O => None
          | S n =>
              match skip l with
              | q :: r =>
                  if is_char 34 q then
                    match read_string r with
                    | Some (k, r1) =>
                        match skip r1 with
                        | c :: r2 =>
                            if is_char 58 c then
                              match read_value fuel r2 with
                              | Some (v, r3) =>
                                  match skip r3 with
                                  | d :: r4 =>
                                      if is_char 44 d then read_members n (obj_set k v acc) r4
                                      else if is_char 125 d then Some (JObj (obj_set k v acc), r4)
                                      else None
                                  | [] => None
                                  end
                              | None => None
                              end
                            else None
                        | [] => None
                        end
                    | None => None
                    end
                  else None
              | [] => None
              end
          end in
      let read_elements :=
        fix read_elements (n : nat) (acc : list JsValue) (l : list ascii)
            : option (JsValue * list ascii) :=
          match n with
          | O => None
          | S n =>
              match read_value fuel l with
              | Some (v, r) =>
                  match skip r with
                  | d :: r' =>
                      if is_char 44 d then read_elements n (acc ++ [v])%list r'
                      else if is_char 93 d then Some (JArr (acc ++ [v])%list, r')
                      else None
                  | [] => None
                  end
              | None => None
              end
          end in
      match skip l with
      | [] => None
      | c :: r =>
          if is_char 123 c then
            match skip r with
            | d :: r' => if is_char 125 d then Some (JObj [], r') else read_members fuel [] r
            | [] => None
            end
          else if is_char 91 c then
            match skip r with
            | d :: r' => if is_char 93 d then Some (JArr [], r') else read_elements fuel [] r
            | [] => None
            end
          else if is_char 34 c then
            match read_string r with
            | Some (s, k) => Some (JStr s, k)
            | None => None
            end
          else
            match keyword "true" (c :: r), keyword "false" (c :: r), keyword "null" (c :: r) with
            | Some k, _, _ => Some (JBool true, k)
            | _, Some k, _ => Some (JBool false, k)
            | _, _, Some k => Some (JNull, k)
            | _, _, _ =>
                match read_number (c :: r) with
                | Some (n, k) => Some (JNum n, k)
                | None => None
                end
            end
      end
  end.

Definition json_parse (s : string) : Completion JsValue :=
  let l := list_ascii_of_string s in
  match read_value (S (length l)) l with
  | Some (v, k) => match skip k with [] => Return v | _ => Throw SyntaxError end
  | None => Throw SyntaxError
  end.

(** [http.STATUS_CODES]. *)
Definition status_codes : gmap Z string :=
  list_to_map [
    (100, "Continue"); (101, "Switching Protocols"); (102, "Processing");
    (200, "OK"); (201, "Created"); (202, "Accepted");
    (203, "Non-Authoritative Information"); (204, "No Content"); (205, "Reset Content");
    (206, "Partial Content"); (207, "Multi-Status"); (208, "Already Reported");
    (226, "IM Used");
    (300, "Multiple Choices"); (301, "Moved Permanently"); (302, "Found");
    (303, "See Other"); (304, "Not Modified"); (305, "Use Proxy");
    (307, "Temporary Redirect"); (308, "Permanent Redirect");
    (400, "Bad Request"); (401, "Unauthorized"); (402, "Payment Required");
    (403, "Forbidden"); (404, "Not Found"); (405, "Method Not Allowed");
    (406, "Not Acceptable"); (407, "Proxy Authentication Required");
    (408, "Request Timeout"); (409, "Conflict"); (410, "Gone");
    (411, "Length Required"); (412, "Precondition Failed"); (413, "Payload Too Large");
    (414, "URI Too Long"); (415, "Unsupported Media Type");
    (416, "Range Not Satisfiable"); (417, "Expectation Failed");
    (418, "I'm a Teapot"); (421, "Misdirected Request"); (422, "Unprocessable Entity");
    (423, "Locked"); (424, "Failed Dependency"); (426, "Upgrade Required");
    (428, "Precondition Required"); (429, "Too Many Requests");
    (431, "Request Header Fields Too Large"); (451, "Unavailable For Legal Reasons");
    (500, "Internal Server Error"); (501, "Not Implemented"); (502, "Bad Gateway");
    (503, "Service Unavailable"); (504, "Gateway Timeout");
    (505, "HTTP Version Not Supported"); (506, "Variant Also Negotiates");
    (507, "Insufficient Storage"); (508, "Loop Detected");
    (509, "Bandwidth Limit Exceeded"); (510, "Not Extended");
    (511, "Network Authentication Required")
  ].

(** A current Node: [Buffer.byteLength(undefined)] throws. *)
Definition node : Platform :=
  {| urlParse := url_parse;
     JSON_parse := json_parse;
     STATUS_CODES := status_codes;
     byteLength_undefined :=
       Throw (JError "TypeError" "The first argument must be of type string or an instance of Buffer") |}.

(** Node before release 7: [Buffer.byteLength(undefined)] is the length of
    the text undefined. *)
Definition node6 : Platform :=
  {| urlParse := url_parse;
     JSON_parse := json_parse;
     STATUS_CODES := status_codes;
     byteLength_undefined := Return 9 |}.

End Reference.

(** * Specification

    The vocabulary of the statements below: what it means for a promise to
    settle once and for an exchange to end, the spec's reading of the query
    builder and of the payload kinds, the comparison of two requests, and
    the concrete calls the examples run. *)

(** ** Promises that settle once *)

(** A promise that is a function of the events delivered so far settles at
    most once when further events never change a settlement. *)
Definition settles_once (k : Trace -> Settlement) : Prop :=
  forall t t' : Trace, settled (k t) = true -> k (t ++ t')%list = k t.

(** A settlement with an envelope that has all four fields. *)
Definition carries_data (s : Settlement) : Prop :=
  match s with
  | Pending => True
  | Fulfilled e | Rejected e => is_Some (data e)
  | Failed _ => False
  end.

(** A settlement with an envelope. *)
Definition is_envelope (s : Settlement) : Prop :=
  match s with Failed _ => False | _ => True end.

(** The transport ended a buffered exchange: it timed out, it failed, or a
    response ended.  [responded] tells whether the response callback ran. *)
Fixpoint ends_exchange (responded : bool) (t : Trace) : bool :=
  match t with
  | [] => false
  | ev :: rest =>
      match snd ev with
      | Timeout | Error _ => true
      | End => responded || ends_exchange responded rest
      | Response _ _ => ends_exchange true rest
      | _ => ends_exchange responded rest
      end
  end.

(** How far a download is: no response below 400 has arrived; one has,
    and the reaction to it has not run; the reaction has run, and the
    download listens to the sink. *)
Inductive Phase : Type := Waiting | Answered | Listening.

(** The transport and the sink ended a download: the request timed out or
    failed before a response, the response had an error status, or the
    sink closed or failed while the download listened to it, which it does
    from the first [Jobs] after a response below 400. *)
Fixpoint ends_download (phase : Phase) (t : Trace) : bool :=
  match t with
  | [] => false
  | ev :: rest =>
      match phase with
      | Waiting =>
          match snd ev with
          | Timeout | Error _ => true
          | Response code _ => if code <? 400 then ends_download Answered rest else true
          | _ => ends_download Waiting rest
          end
      | Answered =>
          match snd ev with
          | Jobs => ends_download Listening rest
          | _ => ends_download Answered rest
          end
      | Listening =>
          match snd ev with
          | SinkClose | SinkError _ => true
          | _ => ends_download Listening rest
          end
      end
  end.

(** What a buffered call returns when it does not throw: a promise already
    rejected, or one that the transport settles, at most once, as soon as
    the exchange ends, and always with a full envelope. *)
Definition deferred (c : CallResult) : Prop :=
  match c with
  | Threw _ | NoPromise => False
  | Settled s => settled s = true /\ carries_data s
  | Sent _ k =>
      k [] = Pending
      /\ settles_once k
      /\ (forall t, carries_data (k t))
      /\ (forall t, ends_exchange false t = true -> settled (k t) = true)
  end.

(** What the download returns given a writable sink. *)
Definition deferred_download (c : CallResult) : Prop :=
  match c with
  | Threw _ | NoPromise => False
  | Settled s => settled s = true /\ carries_data s
  | Sent _ k =>
      k [] = Pending
      /\ settles_once k
      /\ (forall t, is_envelope (k t))
      /\ (forall t, ends_download Waiting t = true -> settled (k t) = true)
  end.

(** The attachment download, the one call served by the stream executor. *)
Definition is_download (c : Call) : bool :=
  match c with GetAttachment _ _ _ _ _ => true | _ => false end.

(** The calls served by [request]: all but the download, and a copy only
    with both of its ids. *)
Definition buffered (c : Call) : bool :=
  match c with
  | GetAttachment _ _ _ _ _ => false
  | CopyDocument _ docId newDocId => truthy (JStr docId) && truthy (JStr newDocId)
  | _ => true
  end.

(** The calls that are to return a promise: the download given a writable
    sink, a copy given both ids, and every other call. *)
Definition covered (c : Call) : bool :=
  match c with
  | GetAttachment _ _ _ sink _ => is_writable sink
  | _ => buffered c
  end.

(** The download as one machine: the stream executor's promise, whether
    the download listens to the sink yet, and the promise that the sink
    settles. *)
Record Download : Type := {
  executor : Settlement;
  listening : bool;
  awaited : Settlement
}.

Definition download0 : Download :=
  {| executor := Pending; listening := false; awaited := Pending |}.

Definition download_step (step : Settlement -> Z * Event -> Settlement)
    (stream_error : JsValue -> Envelope) (d : Download) (ev : Z * Event) : Download :=
  {| executor := step (executor d) ev;
     listening :=
       match executor d, snd ev with
       | Fulfilled _, Jobs => true
       | _, _ => listening d
       end;
     awaited :=
       match executor d with
       | Fulfilled response =>
           if listening d then
             match snd ev with
             | SinkClose => resolve response (awaited d)
             | SinkError err => reject (stream_error err) (awaited d)
             | _ => awaited d
             end
           else awaited d
       | _ => awaited d
       end |}.

(** The promise the download returns, read off the machine's state. *)
Definition download_promise (d : Download) : Settlement :=
  match executor d with
  | Fulfilled _ => awaited d
  | s => s
  end.

(** The state of the machine in each phase of the download. *)
Definition in_phase (phase : Phase) (d : Download) : Prop :=
  match phase with
  | Waiting => executor d = Pending
  | Answered => exists e, executor d = Fulfilled e
  | Listening => (exists e, executor d = Fulfilled e) /\ listening d = true
  end.

(** ** Status tables *)

(** No entry of the table is the empty string. *)
Definition no_blank_entry (table : gmap Z string) : Prop :=
  forall code, table !! code <> Some "".

(** ** The query string *)

(** The four reserved keys. *)
Definition reserved (k : string) : bool :=
  existsb (String.eqb k) ["key"; "keys"; "startkey"; "endkey"].

(** [JSON.stringify(v)] as a value: the text, or [undefined]. *)
Definition json_text (v : JsValue) : JsValue :=
  match JSON_stringify v with
  | Return o => of_option o
  | Throw _ => JUndefined
  end.

(** A property as the builder hands it to [querystring.stringify]. *)
Definition encoded (ks : list string) (kv : string * JsValue) : string * JsValue :=
  if existsb (String.eqb (fst kv)) ks then (fst kv, json_text (snd kv)) else kv.

(** The spec's reading of the builder: a reserved key carries the JSON text
    of its value, every other key its value as it is; the fields are form
    encoded and joined, and an empty object gives no suffix. *)
Definition query_string (q : list (string * JsValue)) : string :=
  match q with
  | [] => ""
  | _ => "?" +:+ join "&" (flat_map qs_fields (map (encoded Legacy.QUERY_KEYS_JSON) q))
  end.

(** ** The kinds of payload *)

(** The spec's four kinds of payload, in its order of precedence. *)
Inductive PayloadKind : Type := IsBuffer | IsStream | IsObject | IsString | IsOther.

Definition payload_kind (v : JsValue) : PayloadKind :=
  if isBuffer v then IsBuffer
  else if is_readable v then IsStream
  else if is_plain_object v then IsObject
  else if is_string v then IsString
  else IsOther.

(** The headers every request starts from. *)
Definition base_headers : gmap string JsValue :=
  <["accept" := JStr "application/json"]> {["user-agent" := JStr "couchdb-promises"]}.

(** The call issues a request with these headers and writes this. *)
Definition sends (c : CallResult) (hs : gmap string JsValue) (w : Written) : Prop :=
  exists r k, c = Sent r k /\ req_headers (options r) = hs /\ written r = w.

(** The call returns a promise already rejected as an invalid payload. *)
Definition refuses (c : CallResult) (report : JsValue) : Prop :=
  exists e, c = Settled (Rejected e) /\ headers e = ∅ /\ data e = Some report
            /\ status e = 400 /\ message e = JStr "invalid post data".

(** What the spec asks of a request function [call], given the headers
    [hs] it starts from: the encoding of each kind of payload, and for a
    value of no kind the refusal ([refused] says of which values, [report]
    is the envelope's [data]) or a request without a body. *)
Definition dispatch_spec (call : JsValue -> JsValue -> CallResult) (hs : gmap string JsValue)
    (refused : JsValue -> bool) (report : JsValue) : Prop :=
  forall postData postContentType : JsValue,
    match payload_kind postData with
    | IsBuffer =>
        sends (call postData postContentType)
          (<["content-length" := JNum (Z.of_nat (byteLength (buffer_bytes postData)))]>
             (<["content-type" := postContentType]> hs))
          (WriteBuffer (buffer_bytes postData))
    | IsStream =>
        sends (call postData postContentType)
          (<["Transfer-Encoding" := JStr "chunked"]> (<["content-type" := postContentType]> hs))
          (WriteStream postData)
    | IsObject =>
        forall s, JSON_stringify postData = Return (Some s) ->
          sends (call postData postContentType)
            (<["content-length" := JNum (Z.of_nat (byteLength s))]>
               (<["content-type" := JStr "application/json"]> hs))
            (WriteText s)
    | IsString =>
        sends (call postData postContentType)
          (<["content-length" := JNum (Z.of_nat (js_length (string_of postData)))]>
             (<["content-type" := postContentType]> hs))
          (if String.eqb (string_of postData) "" then WriteNothing
           else WriteText (string_of postData))
    | IsOther =>
        if refused postData then refuses (call postData postContentType) report
        else sends (call postData postContentType) hs WriteNothing
    end.

(** ** What a call serialises *)

(** The query object a call hands to the query builder; [None] also for
    the calls that build no query string. *)
Definition query_of (c : Call) : option (list (string * JsValue)) :=
  match c with
  | GetAllDocuments _ q | GetDocumentHead _ _ q | GetDocument _ _ q
  | GetDesignDocument _ _ q | GetView _ _ _ q => q
  | _ => None
  end.

(** The payload a call hands to [request]; [undefined] for the calls that
    carry none. *)
Definition payload_of (c : Call) : JsValue :=
  match c with
  | CreateDocument _ doc _ | CreateDesignDocument _ doc _ => doc
  | FindDocuments _ q | CreateIndex _ q => q
  | CreateBulkDocuments _ docs opts => JObj (obj_assign [("docs", docs)] (default [] opts))
  | AddAttachment _ _ _ _ _ att => att
  | _ => JUndefined
  end.

(** [JSON.stringify] threw [e] on the value the query object [q] has under
    one of the reserved keys. *)
Definition query_throws (q : option (list (string * JsValue))) (e : JsValue) : Prop :=
  exists key v,
    reserved key = true /\ (key, v) ∈ default [] q /\ JSON_stringify v = Throw e.

(** [Buffer.byteLength] threw [e] on the text that is missing because the
    object [postData] did not serialise. *)
Definition payload_throws (P : Platform) (postData : JsValue) (e : JsValue) : Prop :=
  payload_kind postData = IsObject
  /\ (forall s, JSON_stringify postData <> Return (Some s))
  /\ byteLength_undefined P = Throw e.

(** The serialiser threw [e] on what the call [c] sends: on its query
    object, or on its payload. *)
Definition serialising_threw (P : Platform) (c : Call) (e : JsValue) : Prop :=
  query_throws (query_of c) e \/ payload_throws P (payload_of c) e.

(** What a call says of a payload [postData] it does not send: what
    [JSON.stringify] threw on it, or the text [text] for a payload that is
    neither a buffer, a stream, an object nor a string. *)
Definition refusal_of (postData : JsValue) (text : string) (err : JsValue) : Prop :=
  err = JStr text \/ JSON_stringify postData = Throw err.

(** What a covered call does. *)
Definition call_ok (P : Platform) (c : Call) (res : CallResult) : Prop :=
  if is_download c then deferred_download res
  else (exists e, res = Threw e /\ serialising_threw P c e) \/ deferred res.

(** ** Completed exchanges *)

(** The events of an exchange that completes: the response, its body in
    chunks, its end. *)
Definition exchange (t_res : Z) (code : Z) (hs : gmap string JsValue)
    (chunks : list (Z * string)) (t_end : Z) : Trace :=
  ((t_res, Response code hs) :: map (fun c => (fst c, Data (snd c))) chunks ++ [(t_end, End)])%list.

(** The body the chunks add up to. *)
Definition body_of (chunks : list (Z * string)) : string :=
  fold_left (fun acc c => acc +:+ snd c) chunks "".

(** The text handed to [JSON.parse]: [buffer || '{}']. *)
Definition parsed_text (body : string) : string :=
  if String.eqb body "" then "{}" else body.

(** ** Two requests compared *)

(** The parts of a request, its headers apart, that the two modules are
    compared on. *)
Definition same_target (a b : Request) : Prop :=
  method (options a) = method (options b)
  /\ path (options a) = path (options b)
  /\ port (options a) = port (options b)
  /\ written a = written b
  /\ hostname (options a) = hostname (options b)
  /\ auth (options a) = auth (options b)
  /\ protocol (options a) = protocol (options b)
  /\ lib a = lib b.

(** The parts of a request the two modules are compared on. *)
Definition same_wire (a b : Request) : Prop :=
  same_target a b /\ req_headers (options a) = req_headers (options b).

(** [url.parse] reads the base endpoint followed by [/p] as it reads the
    base endpoint, with [/p] as the path. *)
Definition extends (P : Platform) (b p : string) : Prop :=
  urlParse P (b +:+ "/" +:+ p)
  = {| url_protocol := url_protocol (urlParse P b);
       url_slashes := url_slashes (urlParse P b);
       url_auth := url_auth (urlParse P b);
       url_host := url_host (urlParse P b);
       url_port := url_port (urlParse P b);
       url_hostname := url_hostname (urlParse P b);
       url_path := Some ("/" +:+ p) |}.

(** A base endpoint written as a scheme and an authority, with no path. *)
Definition plain_base (scheme host : list ascii) : string :=
  Reference.text scheme +:+ "://" +:+ Reference.text host.

(** What the reference parser makes of a scheme, an authority and the rest
    of a URL. *)
Definition parsed (scheme host rest : list ascii) : UrlObject :=
  let '(a, name, prt, left_over) := Reference.authority host in
  let p := Reference.escape_apostrophe (left_over ++ rest) in
  {| url_protocol := Some (Reference.text scheme +:+ ":");
     url_slashes := Some true;
     url_auth := a;
     url_host := Some (match prt with Some d => name +:+ ":" +:+ d | None => name end);
     url_port := prt;
     url_hostname := Some name;
     url_path := Some (match p with
                       | [] => "/"
                       | c :: _ =>
                           if Reference.is_char 47 c then Reference.text p
                           else "/" +:+ Reference.text p
                       end) |}.

(** A character that [url.parse] leaves as it is after the host: one that
    [encodeURIComponent] leaves, the apostrophe apart, the percent sign of
    an escape, the slash, and the three marks of a query string. *)
Definition kept_char (c : ascii) : bool :=
  (unreserved c || existsb (Ascii.eqb c) ["%"; "/"; "?"; "&"; "="]%char)
  && negb (Reference.is_char 39 c).

(** A text of such characters. *)
Definition kept (p : string) : bool := forallb kept_char (list_ascii_of_string p).

(** The shared options of a client of the base endpoint [b], at any time:
    the constructor accepted [b], the endpoint is read off [b], and the
    two headers the constructor wrote are there. *)
Definition client_of (P : Platform) (b : string) (o : HttpOptions) : Prop :=
  url_protocol (urlParse P b) ∈ [Some "http:"; Some "https:"]
  /\ url_slashes (urlParse P b) = Some true
  /\ parseInt_isNaN (url_port (urlParse P b)) = false
  /\ truthy (of_option (url_hostname (urlParse P b))) = true
  /\ hostname o = host_name (urlParse P b)
  /\ port o = of_option (url_port (urlParse P b))
  /\ auth o = url_auth (urlParse P b)
  /\ protocol o = url_protocol (urlParse P b)
  /\ base_headers ⊆ req_headers o.

(** ** The settlements of a call *)

(** A property of the envelope a promise is settled with. *)
Definition on_envelope (Q : Envelope -> Prop) (s : Settlement) : Prop :=
  match s with
  | Fulfilled e | Rejected e => Q e
  | Pending | Failed _ => True
  end.

(** The channel tells the status: fulfilled below 400, rejected from 400. *)
Definition channel_follows_status (s : Settlement) : Prop :=
  match s with
  | Fulfilled e => status e < 400
  | Rejected e => 400 <= status e
  | Pending | Failed _ => True
  end.

(** The envelope the stream executor makes of a response. *)
Definition response_envelope (hs : gmap string JsValue) (code : Z) (text : string)
    (d : option Z) : Envelope :=
  {| headers := hs; data := None; status := code; message := JStr text; duration := d |}.

(** The settlements the free-function module produces, for the download
    and for the other calls. *)
Inductive legacy_settlement (P : Platform) (download : bool) : Settlement -> Prop :=
| ls_pending : legacy_settlement P download Pending
| ls_bad_request : legacy_settlement P download (Rejected Legacy.bad_request)
| ls_refused (err : JsValue) :
    download = false -> truthy err = true ->
    legacy_settlement P download (Rejected (Legacy.invalid_post_data err))
| ls_end (codes : gmap Z string) (code : Z) (hs : gmap string JsValue) (b : string) :
    download = false ->
    legacy_settlement P download (Fulfilled (Legacy.on_end P codes code hs b))
| ls_timeout : legacy_settlement P download (Rejected Legacy.timed_out)
| ls_error (err : JsValue) : legacy_settlement P download (Rejected (Legacy.transport_error err))
| ls_response (codes : gmap Z string) (code : Z) (hs : gmap string JsValue) :
    download = true ->
    legacy_settlement P download
      ((if code <? 400 then Fulfilled else Rejected)
         (response_envelope hs code (Legacy.status_message codes code) None))
| ls_sink (err : JsValue) :
    download = true -> legacy_settlement P download (Rejected (Legacy.stream_error err))
| ls_assert : download = true -> legacy_settlement P download (Failed AssertionError).

(** The settlements the factory module produces for a call started at
    [t0], once the events [t] are delivered. *)
Inductive factory_settlement (P : Platform) (download : bool) (t0 t1 : Z) (t : Trace)
    : Settlement -> Prop :=
| fs_pending : factory_settlement P download t0 t1 t Pending
| fs_refused (err : JsValue) :
    download = false -> truthy err = true ->
    factory_settlement P download t0 t1 t (Rejected (Factory.invalid_post_data t0 t1 err))
| fs_end (codes : option (gmap Z string)) (code : Z) (hs : gmap string JsValue) (b : string)
    (now : Z) :
    download = false -> (now, End) ∈ t ->
    factory_settlement P download t0 t1 t
      ((if status (Factory.on_end P t0 codes code hs b now) <? 400 then Fulfilled else Rejected)
         (Factory.on_end P t0 codes code hs b now))
| fs_timeout (now : Z) :
    (now, Timeout) ∈ t ->
    factory_settlement P download t0 t1 t (Rejected (Factory.timed_out t0 now))
| fs_error (err : JsValue) (now : Z) :
    (now, Error err) ∈ t ->
    factory_settlement P download t0 t1 t (Rejected (Factory.transport_error t0 err now))
| fs_response (codes : option (gmap Z string)) (code : Z) (hs : gmap string JsValue) (now : Z) :
    download = true -> (now, Response code hs) ∈ t ->
    factory_settlement P download t0 t1 t
      ((if code <? 400 then Fulfilled else Rejected)
         (response_envelope hs code (Factory.statusCode P codes code) (Some (now - t0))))
| fs_sink (err : JsValue) (now : Z) :
    download = true -> (now, SinkError err) ∈ t ->
    factory_settlement P download t0 t1 t (Rejected (Factory.stream_error err))
| fs_assert : download = true -> factory_settlement P download t0 t1 t (Failed AssertionError).

(** The envelope has a message that is not empty. *)
Definition has_message (e : Envelope) : Prop := truthy (message e) = true.

(** The envelope of a failure met before or instead of a response: no
    headers, and status 400 or 500. *)
Definition local_failure (e : Envelope) : Prop :=
  headers e = ∅ /\ (status e = 400 \/ status e = 500).

(** A rejection is a local failure. *)
Definition rejects_locally (s : Settlement) : Prop :=
  match s with
  | Rejected e => local_failure e
  | Failed _ => False
  | Pending | Fulfilled _ => True
  end.

(** The envelope's duration is the time from the start of the call at [t0]
    to the delivery of one of the events [t], or to the refusal at [t1]. *)
Definition timed (t0 t1 : Z) (t : Trace) (e : Envelope) : Prop :=
  duration e = Some (t1 - t0)
  \/ exists now ev, (now, ev) ∈ t /\ duration e = Some (now - t0).

(** The envelope of a sink that failed during [t], which has no duration. *)
Definition sink_failure (t : Trace) (e : Envelope) : Prop :=
  exists now err, (now, SinkError err) ∈ t /\ e = Factory.stream_error err /\ duration e = None.

(** The clock never runs backwards: the refusal and every event come after
    the start of the call. *)
Definition clock_from (t0 t1 : Z) (t : Trace) : Prop :=
  t0 <= t1 /\ forall now ev, (now, ev) ∈ t -> t0 <= now.

(** The envelope has no duration, or one that is not negative. *)
Definition duration_not_negative (e : Envelope) : Prop :=
  forall d, duration e = Some d -> 0 <= d.

(** The clock reading at which the transport ended a buffered exchange:
    at the first timeout or error, or at the first end of a response.
    [responded] tells whether the response callback ran. *)
Fixpoint ending_time (responded : bool) (t : Trace) : option Z :=
  match t with
  | [] => None
  | ev :: rest =>
      match snd ev with
      | Timeout | Error _ => Some (fst ev)
      | End => if responded then Some (fst ev) else ending_time responded rest
      | Response _ _ => ending_time true rest
      | _ => ending_time responded rest
      end
  end.

(** The envelope's duration is the time from [t0] to the end of the
    exchange [t]. *)
Definition timed_to_the_end (t0 : Z) (t : Trace) (e : Envelope) : Prop :=
  exists now, ending_time false t = Some now /\ duration e = Some (now - t0).

(** ** The course of a download *)

(** No event of [t] is a response, a timeout or an error of the transport. *)
Definition silent (t : Trace) : bool :=
  forallb (fun ev => match snd ev with
                     | Response _ _ | Timeout | Error _ => false
                     | _ => true
                     end) t.

(** No event of [t] comes from the sink. *)
Definition sink_idle (t : Trace) : bool :=
  forallb (fun ev => match snd ev with
                     | SinkClose | SinkError _ => false
                     | _ => true
                     end) t.

(** The promise reactions do not run during [t]. *)
Definition no_jobs (t : Trace) : bool :=
  forallb (fun ev => match snd ev with
                     | Jobs => false
                     | _ => true
                     end) t.

(** ** A client through its calls *)

(** The shared options of a client after it served the calls [cs], each
    with the clock readings of its start and of its refusal. *)
Definition after_calls (P : Platform) (config : Factory.Config) (cs : list (Z * Z * Call))
    (o : HttpOptions) : HttpOptions :=
  fold_left (fun o tc => snd (Factory.invoke P config (fst (fst tc)) (snd (fst tc)) (snd tc) o))
    cs o.

(** The copy of a document, the one call that names a destination. *)
Definition is_copy (c : Call) : bool :=
  match c with CopyDocument _ _ _ => true | _ => false end.

(** The headers the payload block writes. *)
Definition content_headers : list string :=
  ["content-type"; "content-length"; "Transfer-Encoding"].

(** A call that writes no header to the shared options: it is no copy and
    carries no buffer, stream, object or string. *)
Definition writes_no_header (c : Call) : bool :=
  negb (is_copy c)
  && match payload_kind (payload_of c) with IsOther => true | _ => false end.

(** The endpoint a request goes to and the connection options it is made
    with. *)
Definition same_endpoint (a b : HttpOptions) : Prop :=
  hostname a = hostname b /\ port a = port b /\ auth a = auth b /\ protocol a = protocol b
  /\ rejectUnauthorized a = rejectUnauthorized b.

(** ** Paths and query strings *)

(** A character that ends a path segment: one that [encodeURIComponent]
    never leaves in its result. *)
Definition delimiter (c : ascii) : bool := negb (unreserved c) && negb (Ascii.eqb c "%").

(** A text that is empty or starts with a delimiter. *)
Definition delimited (x : string) : bool :=
  match x with
  | EmptyString => true
  | String d _ => delimiter d
  end.

(** The characters of a query string: the unreserved ones, the percent
    sign of an escape, and the three marks of the syntax. *)
Definition query_char (c : ascii) : bool :=
  unreserved c || existsb (Ascii.eqb c) ["%"; "?"; "&"; "="]%char.

(** Every character of the text satisfies [p]. *)
Definition all_chars (p : ascii -> bool) (s : string) : bool :=
  forallb p (list_ascii_of_string s).

(** ** Ports *)

(** The port as [url.parse] reports it: absent, or a run of decimal
    digits. *)
Definition decimal_port (port : option string) : Prop :=
  match port with
  | None => True
  | Some p => forallb is_digit (list_ascii_of_string p) = true
  end.

(** ** Payloads and answers *)

(** The object [createBulkDocuments] posts, for options with distinct
    keys: the documents first, under [docs], unless the options name
    documents of their own, then the other options. *)
Definition bulk_body (docs : JsValue) (opts : list (string * JsValue)) : JsValue :=
  JObj (("docs", default docs (assoc "docs" opts))
        :: filter (fun kv => negb (String.eqb (fst kv) "docs")) opts).

(** The headers of a request that carries a JSON text. *)
Definition json_headers (hs : gmap string JsValue) (s : string) : gmap string JsValue :=
  <["content-length" := JNum (Z.of_nat (byteLength s))]>
    (<["content-type" := JStr "application/json"]> hs).

(** What [request] does with a payload that does not serialise: it is
    refused where [Buffer.byteLength(undefined)] is a number, and the call
    throws where that throws. *)
Definition refused_or_thrown (P : Platform) (refusal : Envelope) : CallResult :=
  match byteLength_undefined P with
  | Return _ => Settled (Rejected refusal)
  | Throw e => Threw e
  end.

(** The names of the headers the free-function module sends. *)
Definition legacy_header_names : list string :=
  ["user-agent"; "accept"; "content-type"; "content-length"; "Transfer-Encoding"].

(** ** Two answers compared *)

(** The two modules fall back to the same text for a status code: the
    table of the free-function module and [http.STATUS_CODES] agree on it. *)
Definition same_fallback (P : Platform) (code : Z) : Prop :=
  entry_or Legacy.GENERIC_STATUS_CODES code "unknown status"
  = entry_or (STATUS_CODES P) code "unknown status".

(** The envelope the factory module settles with, on the channel its
    status selects. *)
Definition by_status (e : Envelope) : Settlement :=
  if status e <? 400 then Fulfilled e else Rejected e.

(** Two envelopes that agree on headers, status and message, and on the
    data [d] when the body parsed to it. *)
Definition same_answer (parsed : Completion JsValue) (e e' : Envelope) : Prop :=
  headers e = headers e' /\ status e = status e' /\ message e = message e'
  /\ forall d, parsed = Return d -> data e = Some d /\ data e' = Some d.

(** ** Examples *)

(** The error of a constructor call without [baseUrl]. *)
Definition missing_baseUrl : JsValue :=
  JError "Error" ("missing property " +:+ String dquote ("baseUrl" +:+ String dquote EmptyString)).

(** A configuration whose base endpoint is no URL. *)
Definition not_a_url : Factory.Options :=
  {| Factory.baseUrl := Some "not-a-url"; Factory.opt_requestTimeout := None;
     Factory.opt_verifyCertificate := None |}.

(** The parameter object of a plain GET, in either module. *)
Definition get_from (url : string) : Legacy.Param :=
  {| Legacy.p_url := url; Legacy.p_method := Some "GET"; Legacy.p_statusCodes := None;
     Legacy.p_postData := JUndefined; Legacy.p_postContentType := JUndefined;
     Legacy.p_stream := JUndefined |}.

Definition get_path (p : string) : Factory.Param :=
  {| Factory.p_path := p; Factory.p_method := Some "GET"; Factory.p_headers := None;
     Factory.p_statusCodes := None; Factory.p_postData := JUndefined;
     Factory.p_postContentType := JUndefined; Factory.p_stream := JUndefined |}.

(** A client of the reference platform: its options, its [config], and
    the [httpOptions] the constructor leaves. *)
Definition local_options : Factory.Options :=
  {| Factory.baseUrl := Some "http://localhost:5984"; Factory.opt_requestTimeout := None;
     Factory.opt_verifyCertificate := None |}.

Definition local_config : Factory.Config :=
  {| Factory.requestTimeout := 10000; Factory.verifyCertificate := true |}.

Definition local_httpOptions : HttpOptions :=
  {| hostname := Some "localhost"; port := JStr "5984"; path := None; auth := None;
     protocol := Some "http:"; method := None; rejectUnauthorized := Some true;
     req_headers :=
       <["accept" := JStr "application/json"]> {["user-agent" := JStr "couchdb-promises"]} |}.

(** A query by key. *)
Definition by_key_foo : list (string * JsValue) := [("key", JStr "foo"); ("limit", JNum 10)].

(** The body of an answer to a request for a missing document. *)
Definition not_found_body : string :=
  "{" +:+ json_quote "error" +:+ ":" +:+ json_quote "not_found" +:+ "}".

(** A document, and its JSON text. *)
Definition january : JsValue := JObj [("name", JStr "January"); ("number", JNum 1)].

Definition january_text : string :=
  "{" +:+ json_quote "name" +:+ ":" +:+ json_quote "January" +:+ ","
  +:+ json_quote "number" +:+ ":1}".

(** A sink that passes the check of the stream executor. *)
Definition a_sink : JsValue := JObj [("writable", JBool true); ("pipe", JFun)].

(** * Verification *)

Ltac unfold_api :=
  unfold Legacy.getInfo, Legacy.listDatabases, Legacy.createDatabase, Legacy.getDatabase,
    Legacy.getDatabaseHead, Legacy.deleteDatabase, Legacy.getAllDocuments,
    Legacy.getDocumentHead, Legacy.getDocument, Legacy.createDocument, Legacy.deleteDocument,
    Legacy.getUuids, Legacy.getDesignDocument, Legacy.getDesignDocumentInfo,
    Legacy.createDesignDocument, Legacy.deleteDesignDocument, Legacy.getView,
    Legacy.createBulkDocuments, Legacy.getAttachmentHead, Legacy.getAttachment,
    Legacy.addAttachment, Legacy.deleteAttachment,
    Factory.getInfo, Factory.listDatabases, Factory.createDatabase, Factory.getDatabase,
    Factory.getDatabaseHead, Factory.deleteDatabase, Factory.getAllDocuments,
    Factory.getDocumentHead, Factory.getDocument, Factory.copyDocument,
    Factory.createDocument, Factory.deleteDocument, Factory.findDocuments, Factory.getUuids,
    Factory.getDesignDocument, Factory.getDesignDocumentInfo, Factory.createDesignDocument,
    Factory.deleteDesignDocument, Factory.getView, Factory.createBulkDocuments,
    Factory.getAttachmentHead, Factory.getAttachment, Factory.addAttachment,
    Factory.deleteAttachment, Factory.createIndex, Factory.getIndex, Factory.deleteIndex,
    Factory.getUrlPath in *.

(** ** The status resolver *)

Lemma generic_entries_not_empty (code : Z) (s : string) :
  Legacy.GENERIC_STATUS_CODES !! code = Some s -> String.eqb s "" = false.
Proof.
  assert (H : map_Forall (fun _ s => String.eqb s "" = false) Legacy.GENERIC_STATUS_CODES).
  { apply (bool_decide_unpack _). by vm_compute. }
  apply H.
Qed.

Lemma entry_or_spec (table : gmap Z string) (code : Z) (otherwise : string) :
  entry_or table code otherwise =
    match table !! code with
    | Some s => if String.eqb s "" then otherwise else s
    | None => otherwise
    end.
Proof. reflexivity. Qed.

Lemma no_empty_entry (codes : gmap Z string) :
  bool_decide (map_Forall (fun _ s => s <> "") codes) = true ->
  forall code, codes !! code <> Some "".
Proof.
  intros H code Hc. apply bool_decide_eq_true in H. by apply (H code "" Hc).
Qed.

Lemma entry_or_entry (table : gmap Z string) (code : Z) (otherwise : string) :
  no_blank_entry table ->
  entry_or table code otherwise = default otherwise (table !! code).
Proof.
  intros Hne. rewrite entry_or_spec. specialize (Hne code).
  destruct (table !! code) as [s|]; [|done].
  destruct (String.eqb_spec s "") as [->|]; done.
Qed.

Lemma generic_table_has_no_blank_entry : no_blank_entry Legacy.GENERIC_STATUS_CODES.
Proof. intros code H. by apply generic_entries_not_empty in H. Qed.

(** C8.  The resolver is a lookup.  Given a per-call table, it returns the
    table's entry for the code when there is one; otherwise the entry of
    the generic table (the module's own in the free-function module,
    Node's [http.STATUS_CODES] in the factory module); otherwise the text
    unknown status.  Without a per-call table it goes by the generic table
    alone.  Being functions of the table and the code, both give the same
    answer when asked twice.  The tables are those without an entry that
    is the empty string, as every table is that an API function passes
    ([api_tables_have_no_blank_entry] below) and as Node's is. *)
Theorem status_resolver_is_a_lookup (P : Platform) (table : gmap Z string) (code : Z) :
  no_blank_entry table ->
  Legacy.status_message table code =
    match table !! code with
    | Some s => s
    | None => default "unknown status" (Legacy.GENERIC_STATUS_CODES !! code)
    end
  /\ Legacy.status_message ∅ code
     = default "unknown status" (Legacy.GENERIC_STATUS_CODES !! code)
  /\ (no_blank_entry (STATUS_CODES P) ->
      Factory.statusCode P (Some table) code =
        match table !! code with
        | Some s => s
        | None => default "unknown status" (STATUS_CODES P !! code)
        end
      /\ Factory.statusCode P None code = default "unknown status" (STATUS_CODES P !! code)).
Proof.
  intros Hne.
  pose proof (entry_or_entry _ code "unknown status" generic_table_has_no_blank_entry) as G.
  split; [|split].
  - unfold Legacy.status_message. rewrite G, (entry_or_entry _ _ _ Hne).
    by destruct (table !! code).
  - unfold Legacy.status_message. rewrite G. unfold entry_or. by rewrite lookup_empty.
  - intros HP. unfold Factory.statusCode. simpl. split.
    + rewrite entry_or_spec, lookup_union. specialize (Hne code). specialize (HP code).
      destruct (table !! code) as [s|].
      * replace (Some s ∪ STATUS_CODES P !! code) with (Some s)
          by (by destruct (STATUS_CODES P !! code)).
        destruct (String.eqb_spec s "") as [->|]; done.
      * rewrite (left_id_L None (∪)).
        destruct (STATUS_CODES P !! code) as [s|]; simpl; [|done].
        destruct (String.eqb_spec s "") as [->|]; done.
    + rewrite (left_id_L ∅ (∪)). by apply entry_or_entry.
Qed.

Lemma status_resolver_is_a_lookup_witness :
  Legacy.status_message Legacy.getDocument_codes 404
  = "Not Found - Document not found"
  /\ Legacy.status_message Legacy.getDocument_codes 409 = "Conflict"
  /\ Legacy.status_message Legacy.getDocument_codes 418 = "unknown status"
  /\ Factory.statusCode Reference.node (Some Factory.getDocument_codes) 418 = "I'm a Teapot".
Proof.
  assert (Hne : no_blank_entry Legacy.getDocument_codes)
    by (refine (no_empty_entry _ _); by vm_compute).
  assert (HP : no_blank_entry (STATUS_CODES Reference.node))
    by (refine (no_empty_entry _ _); by vm_compute).
  split; [|split; [|split]].
  - exact (proj1 (status_resolver_is_a_lookup Reference.node _ 404 Hne)).
  - exact (proj1 (status_resolver_is_a_lookup Reference.node _ 409 Hne)).
  - exact (proj1 (status_resolver_is_a_lookup Reference.node _ 418 Hne)).
  - exact (proj1 (proj2 (proj2 (status_resolver_is_a_lookup Reference.node _ 418 Hne)) HP)).
Defined.

(** Every table that an API function hands to [request] or to
    [requestStream] is without a blank entry. *)
Lemma api_tables_have_no_blank_entry (P : Platform) (requestTimeout : Z)
    (config : Factory.Config) (t0 t1 : Z) (b : string) (c : Call) (o : HttpOptions) :
  (forall res, Legacy.invoke P requestTimeout b c = Some res ->
     (exists e, res = Threw e)
     \/ exists param,
          no_blank_entry (default ∅ (Legacy.p_statusCodes param))
          /\ (res = Legacy.request P requestTimeout param
              \/ res = then_await_sink Legacy.stream_error
                         (Legacy.requestStream P requestTimeout param)))
  /\ ((exists e, Factory.invoke P config t0 t1 c o = (Threw e, o))
      \/ Factory.invoke P config t0 t1 c o = (NoPromise, o)
      \/ exists param,
           no_blank_entry (default ∅ (Factory.p_statusCodes param))
           /\ (Factory.invoke P config t0 t1 c o = Factory.request P config t0 t1 param o
               \/ Factory.invoke P config t0 t1 c o
                  = (let (res, o') := Factory.requestStream P config t0 param o in
                     (then_await_sink Factory.stream_error res, o')))).
Proof.
  split.
  - intros res Hinv.
    destruct c; try discriminate Hinv; cbn [Legacy.invoke] in Hinv; injection Hinv as <-;
      unfold_api; cbv zeta;
      try (destruct (Legacy.createQueryString queryObj) as [queryStr|e];
           [|by left; exists e]);
      try (destruct (truthy (JStr docId)));
      right; eexists; (split; [|first [by left | by right]]);
      refine (no_empty_entry _ _); by vm_compute.
  - destruct c; cbn [Factory.invoke]; unfold_api; cbv zeta;
      try (destruct (Factory.createQueryString queryObj) as [queryStr|e];
           [|by left; exists e]);
      try (destruct (truthy (JStr docId) && truthy (JStr newDocId)); [|by right; left]);
      try (destruct (truthy (JStr docId)));
      right; right; eexists; (split; [|first [by left | by right]]);
      refine (no_empty_entry _ _); by vm_compute.
Qed.

(** The lookup is written with [||], so an entry that is the empty string
    would be passed over; no API function has one in its table. *)
Remark empty_override_entry_is_skipped :
  ~ (forall (table : gmap Z string) (code : Z) (s : string),
       table !! code = Some s -> Legacy.status_message table code = s).
Proof.
  intros H.
  specialize (H {[404 := ""]} 404 "" (lookup_singleton_eq _ _)).
  vm_compute in H. discriminate H.
Qed.

(** ** The constructor of the factory module *)

(** C9.  A configuration whose [baseUrl] is missing, or parses to a scheme
    other than http and https, to no host name, or to a port that is not a
    number (none at all included), makes the constructor throw: no client,
    hence no method of it and no request, exists. *)
Theorem factory_refuses_bad_baseUrl (P : Platform) (opt : Factory.Options) :
  Factory.baseUrl opt = None
  \/ (exists url, Factory.baseUrl opt = Some url
        /\ (url_protocol (urlParse P url) ∉ [Some "http:"; Some "https:"]
            \/ truthy (of_option (url_hostname (urlParse P url))) = false
            \/ parseInt_isNaN (url_port (urlParse P url)) = true)) ->
  Factory.factory P opt = Throw missing_baseUrl
  \/ Factory.factory P opt = Throw (JError "Error" "invalid baseUrl").
Proof.
  intros [H | (url & H & Hbad)]; unfold Factory.factory; rewrite H.
  - by left.
  - right.
    destruct Hbad as [Hp | [Hh | Hn]].
    + by rewrite (bool_decide_eq_false_2 _ Hp).
    + rewrite Hh. by rewrite !andb_false_r.
    + rewrite Hn. simpl. by rewrite !andb_false_r.
Qed.

Lemma factory_refuses_bad_baseUrl_witness :
  Factory.factory Reference.node not_a_url = Throw missing_baseUrl
  \/ Factory.factory Reference.node not_a_url = Throw (JError "Error" "invalid baseUrl").
Proof.
  apply (factory_refuses_bad_baseUrl Reference.node not_a_url).
  right. exists "not-a-url". split; [reflexivity|].
  right. left. vm_compute. reflexivity.
Defined.

(** ** Malformed targets in the free-function module *)

(** When the target URL parses to a scheme other than http and https or to
    no host name, [request] returns a promise already rejected with the
    bad-request envelope of status 400, and so does [requestStream] given a
    writable sink: no request is issued. *)
Lemma bad_scheme_or_host_is_bad_request (P : Platform) (requestTimeout : Z)
    (param : Legacy.Param) :
  url_protocol (urlParse P (Legacy.p_url param)) ∉ [Some "http:"; Some "https:"]
  \/ truthy (of_option (url_hostname (urlParse P (Legacy.p_url param)))) = false ->
  Legacy.request P requestTimeout param = Settled (Rejected Legacy.bad_request)
  /\ (is_writable (Legacy.p_stream param) = true ->
      Legacy.requestStream P requestTimeout param = Settled (Rejected Legacy.bad_request))
  /\ wire (Settled (Rejected Legacy.bad_request)) = None
  /\ status Legacy.bad_request = 400
  /\ message Legacy.bad_request = JStr "Error: Bad request".
Proof.
  intros Hbad.
  assert (Hv : Legacy.isValidUrl P (Legacy.p_url param) = false).
  { unfold Legacy.isValidUrl.
    destruct Hbad as [Hp | Hh].
    - by rewrite (bool_decide_eq_false_2 _ Hp).
    - rewrite Hh. simpl. by rewrite !orb_true_r. }
  repeat split.
  - unfold Legacy.request. by rewrite Hv.
  - intros Hw. unfold Legacy.requestStream. by rewrite Hw, Hv.
Qed.

Lemma digit_is_plain (c : ascii) :
  is_digit c = true ->
  is_space c = false /\ is_sign c = false
  /\ (forall n, (58 <= n)%nat -> (nat_of_ascii c =? n)%nat = false).
Proof.
  unfold is_digit, is_space, is_sign.
  generalize (nat_of_ascii c). intros n H.
  apply andb_true_iff in H as [H1 H2].
  apply Nat.leb_le in H1, H2.
  repeat split.
  - apply orb_false_iff. split; [apply andb_false_iff; right; apply Nat.leb_gt; lia|].
    apply Nat.eqb_neq. lia.
  - apply orb_false_iff. split; apply Nat.eqb_neq; lia.
  - intros m Hm. apply Nat.eqb_neq. lia.
Qed.

Lemma drop_while_all (p : ascii -> bool) (l : list ascii) :
  forallb p l = true -> drop_while p l = [].
Proof.
  induction l as [|c l IH]; simpl; [done|].
  intros H. apply andb_true_iff in H as [-> H]. by apply IH.
Qed.

Lemma drop_space_digits (l : list ascii) :
  forallb is_digit l = true -> drop_while is_space l = l.
Proof.
  destruct l as [|c l]; simpl; [done|].
  intros H. apply andb_true_iff in H as [Hc _].
  by destruct (digit_is_plain c Hc) as (-> & _).
Qed.

Lemma forallb_reversed (p : ascii -> bool) (l : list ascii) :
  forallb p l = true -> forallb p (rev l) = true.
Proof. rewrite !forallb_forall. intros H x Hx. apply H. by apply in_rev. Qed.

Lemma trim_digits (l : list ascii) : forallb is_digit l = true -> trim l = l.
Proof.
  intros H. unfold trim. rewrite (drop_space_digits l H), drop_space_digits.
  - apply rev_involutive.
  - by apply forallb_reversed.
Qed.

Lemma digits_are_a_number (c : ascii) (l : list ascii) :
  forallb is_digit (c :: l) = true -> numeric_literal (c :: l) = true.
Proof.
  intros H.
  assert (Hdec : unsigned_decimal (drop_sign (c :: l)) = true).
  { simpl in H. apply andb_true_iff in H as [Hc Hl].
    destruct (digit_is_plain c Hc) as (_ & Hsign & Hne).
    unfold drop_sign. rewrite Hsign. unfold unsigned_decimal.
    replace (String.eqb (string_of_list_ascii (c :: l)) "Infinity") with false.
    - rewrite drop_while_all; [|by simpl; rewrite Hc, Hl]. simpl. exact Hc.
    - symmetry. apply String.eqb_neq. simpl. intros [= -> _]. discriminate Hc. }
  unfold numeric_literal. destruct l as [|x r]; [exact Hdec|].
  simpl in H. apply andb_true_iff in H as [Hc H]. apply andb_true_iff in H as [Hx Hr].
  destruct (digit_is_plain x Hx) as (_ & _ & Hne).
  rewrite !Hne by lia. rewrite !orb_false_r, !andb_false_r. exact Hdec.
Qed.

Lemma decimal_port_is_a_number (port : option string) :
  decimal_port port -> Number_isNaN port = false.
Proof.
  destruct port as [p|]; [|done]. unfold decimal_port, Number_isNaN. intros H.
  rewrite (trim_digits _ H).
  destruct (list_ascii_of_string p) as [|c l]; [done|].
  by rewrite (digits_are_a_number c l H).
Qed.

(** The check of the port refuses no port that [url.parse] reports: a
    port is absent or made of digits, and [Number] reads both as a number.
    The check decides on the scheme, the slashes and the host name alone. *)
Lemma port_check_refuses_nothing (P : Platform) (url : string) :
  decimal_port (url_port (urlParse P url)) ->
  Legacy.isValidUrl P url
  = bool_decide (url_protocol (urlParse P url) ∈ [Some "http:"; Some "https:"])
    && negb (bool_decide (url_slashes (urlParse P url) = Some false))
    && truthy (of_option (url_hostname (urlParse P url))).
Proof.
  intros Hport. unfold Legacy.isValidUrl.
  rewrite (decimal_port_is_a_number _ Hport).
  destruct (bool_decide (url_protocol _ ∈ _)); [|done].
  destruct (bool_decide (url_slashes _ = _)); [done|].
  by destruct (truthy _).
Qed.

(** C6 fails on the port.  In the target [http://localhost:abc/db] the port
    is not a number; [url.parse] reads the colon and what follows as the
    start of the path and reports no port, which the check of the port
    lets pass: the URL counts as valid and the request goes out, to
    [localhost], port 443 and path [/:abc/db], where C6 has the call
    rejected as a bad request with no request made.  The same download is
    sent as well. *)
Theorem non_numeric_port_is_sent :
  url_port (Reference.url_parse "http://localhost:abc/db") = None
  /\ Legacy.isValidUrl Reference.node "http://localhost:abc/db" = true
  /\ (exists r k,
        Legacy.getDatabase Reference.node 10000 "http://localhost:abc" "db" = Sent r k
        /\ hostname (options r) = Some "localhost"
        /\ port (options r) = JNum 443
        /\ path (options r) = Some "/:abc/db")
  /\ (exists r k,
        Legacy.getAttachment Reference.node 10000 "http://localhost:abc" "db" "doc" "a.png"
          a_sink "" = Sent r k
        /\ port (options r) = JNum 443
        /\ path (options r) = Some "/:abc/db/doc/a.png").
Proof.
  split; [reflexivity|]. split; [reflexivity|].
  split; eexists _, _; (split; [reflexivity|]); by repeat split.
Qed.

(** ** The port of a target without one *)

(** C10.  When the target URL has no port, a request that [request] or
    [requestStream] issues goes to port 443, whatever the scheme. *)
Theorem port_defaults_to_443 (P : Platform) (requestTimeout : Z) (param : Legacy.Param)
    (r : Request) (k : Trace -> Settlement) :
  url_port (urlParse P (Legacy.p_url param)) = None ->
  Legacy.request P requestTimeout param = Sent r k
  \/ Legacy.requestStream P requestTimeout param = Sent r k ->
  port (options r) = JNum 443.
Proof.
  intros Hport [H | H].
  - unfold Legacy.request in H. rewrite Hport in H.
    destruct (negb _); [discriminate H|].
    destruct (Legacy.payload _ _ _ _) as [hs [pl | e]]; [|discriminate H].
    destruct (truthy (error pl)); [discriminate H|].
    by inversion H.
  - unfold Legacy.requestStream in H. rewrite Hport in H.
    destruct (negb (is_writable _)); [discriminate H|].
    destruct (negb _); [discriminate H|].
    by inversion H.
Qed.

Lemma port_defaults_to_443_witness :
  exists r k,
    Legacy.request Reference.node 10000 (get_from "http://localhost/db") = Sent r k
    /\ protocol (options r) = Some "http:"
    /\ port (options r) = JNum 443.
Proof.
  eexists _, _. split; [reflexivity|]. split; [reflexivity|].
  eapply (port_defaults_to_443 Reference.node 10000 (get_from "http://localhost/db")).
  - reflexivity.
  - left. reflexivity.
Defined.

(** ** The query builder *)

Lemma assoc_None {A : Type} (k : string) (ps : list (string * A)) :
  assoc k ps = None <-> k ∉ ps.*1.
Proof.
  induction ps as [|[k' v] ps IH]; simpl.
  - split; [intros _; apply not_elem_of_nil | done].
  - destruct (String.eqb_spec k k') as [->|Hne].
    + split; [done | intros H; destruct H; apply list_elem_of_here].
    + rewrite IH, not_elem_of_cons. tauto.
Qed.

Lemma assoc_Some_elem {A : Type} (k : string) (v : A) (ps : list (string * A)) :
  assoc k ps = Some v -> (k, v) ∈ ps.
Proof.
  induction ps as [|[k' v'] ps IH]; simpl; [done|].
  destruct (String.eqb_spec k k') as [->|Hne].
  - intros [= ->]. apply list_elem_of_here.
  - intros H. apply list_elem_of_further, IH, H.
Qed.

Lemma assoc_unique {A : Type} (k : string) (v w : A) (ps : list (string * A)) :
  NoDup ps.*1 -> assoc k ps = Some v -> (k, w) ∈ ps -> w = v.
Proof.
  induction ps as [|[k' v'] ps IH]; simpl; [done|].
  intros Hnd. apply NoDup_cons in Hnd as [Hk' Hnd].
  destruct (String.eqb_spec k k') as [->|Hne].
  - intros [= ->] Hin. apply elem_of_cons in Hin as [[= ->] | Hin]; [done|].
    destruct Hk'. apply list_elem_of_fmap. by exists (k', w).
  - intros Ha Hin. apply elem_of_cons in Hin as [[= -> ->] | Hin]; [done|].
    by apply IH.
Qed.

Lemma obj_set_fresh {A : Type} (k : string) (v : A) (ps : list (string * A)) :
  k ∉ ps.*1 -> obj_set k v ps = (ps ++ [(k, v)])%list.
Proof.
  induction ps as [|[k' v'] ps IH]; simpl; [done|].
  rewrite not_elem_of_cons. intros [Hne Hnot].
  destruct (String.eqb_spec k k') as [->|_]; [done|].
  by rewrite IH.
Qed.

Lemma obj_assign_fresh {A : Type} (source target : list (string * A)) :
  NoDup (target.*1 ++ source.*1)%list -> obj_assign target source = (target ++ source)%list.
Proof.
  unfold obj_assign. revert target.
  induction source as [|[k v] source IH]; intros target Hnd; simpl.
  - by rewrite app_nil_r.
  - rewrite obj_set_fresh.
    + rewrite IH; [by rewrite <- app_assoc|].
      rewrite fmap_app. simpl. by rewrite <- app_assoc.
    + apply NoDup_app in Hnd as (_ & Hd & _). intros Hin.
      apply (Hd k Hin). simpl. apply list_elem_of_here.
Qed.

Lemma obj_assign_copy {A : Type} (q : list (string * A)) :
  NoDup q.*1 -> obj_assign [] q = q.
Proof. intros Hnd. by rewrite obj_assign_fresh. Qed.

Lemma obj_set_present (k : string) (v' : JsValue) (ps : list (string * JsValue)) :
  NoDup ps.*1 -> k ∈ ps.*1 ->
  obj_set k v' ps = map (fun kv => if String.eqb (fst kv) k then (fst kv, v') else kv) ps.
Proof.
  induction ps as [|[k' v] ps IH]; simpl.
  - intros _ H. by apply elem_of_nil in H.
  - intros Hnd Hin. apply NoDup_cons in Hnd as [Hk' Hnd].
    rewrite (String.eqb_sym k' k).
    destruct (String.eqb_spec k k') as [->|Hne].
    + f_equal. symmetry. rewrite <- (map_id ps) at 2. apply map_ext_in.
      intros [k2 v2] Hin2. simpl.
      destruct (String.eqb_spec k2 k') as [->|_]; [|done].
      destruct Hk'. apply list_elem_of_fmap. exists (k', v2). split; [done|].
      by apply list_elem_of_In.
    + f_equal. apply IH; [done|].
      apply elem_of_cons in Hin as [Heq | Hin]; [by destruct Hne | done].
Qed.

Lemma stringify_keys_agree (keys : list string) (obj : list (string * JsValue)) :
  Factory.stringify_keys keys obj = Legacy.stringify_keys keys obj.
Proof.
  revert obj. induction keys as [|key keys IH]; intros obj; simpl; [done|].
  destruct (assoc key obj); [|apply IH].
  destruct (JSON_stringify j); simpl; [apply IH | done].
Qed.

Lemma createQueryString_agree (queryObj : option (list (string * JsValue))) :
  Factory.createQueryString queryObj = Legacy.createQueryString queryObj.
Proof.
  unfold Factory.createQueryString, Legacy.createQueryString.
  by rewrite stringify_keys_agree.
Qed.

Lemma stringify_keys_spec (keys : list string) :
  NoDup keys ->
  forall obj : list (string * JsValue),
    NoDup obj.*1 ->
    (forall k v, k ∈ keys -> (k, v) ∈ obj -> exists o, JSON_stringify v = Return o) ->
    Legacy.stringify_keys keys obj = Return (map (encoded keys) obj).
Proof.
  induction keys as [|key keys IH]; intros Hks obj Hnd Hser; simpl.
  - f_equal. symmetry. rewrite <- (map_id obj) at 2. by apply map_ext.
  - apply NoDup_cons in Hks as [Hkey Hks].
    destruct (assoc key obj) as [v|] eqn:Ha.
    + assert (Hin : (key, v) ∈ obj) by by apply assoc_Some_elem.
      destruct (Hser key v (list_elem_of_here _ _) Hin) as [o Ho].
      rewrite Ho. simpl.
      assert (Hk : key ∈ obj.*1).
      { apply list_elem_of_fmap. by exists (key, v). }
      rewrite (obj_set_present _ _ _ Hnd Hk).
      rewrite IH; [| done | |].
      * f_equal. rewrite map_map. apply map_ext_in.
        intros [k2 v2] Hin2. apply list_elem_of_In in Hin2. unfold encoded. simpl.
        destruct (String.eqb_spec k2 key) as [->|Hne]; simpl.
        -- assert (Hex : existsb (String.eqb key) keys = false).
           { apply not_true_is_false. intros Hex. apply existsb_exists in Hex as (x & Hx & He).
             apply String.eqb_eq in He as <-. by apply Hkey, list_elem_of_In. }
           rewrite Hex. f_equal.
           rewrite (assoc_unique _ _ _ _ Hnd Ha Hin2).
           unfold json_text. by rewrite Ho.
        -- done.
      * rewrite <- list_fmap_compose.
        erewrite list_fmap_ext; [exact Hnd|].
        intros i [k2 v2] _. simpl. by destruct (String.eqb k2 key).
      * intros k w Hk' Hw.
        apply list_elem_of_fmap in Hw as ([k2 v2] & Heq & Hin2).
        destruct (String.eqb_spec (fst (k2, v2)) key) as [He|Hne]; simpl in *.
        -- injection Heq as -> ->. subst k2. by destruct Hkey.
        -- injection Heq as -> ->.
           apply (Hser k2 v2); [by apply list_elem_of_further | done].
    + rewrite IH; [| done | done |].
      * f_equal. apply map_ext_in.
        intros [k2 v2] Hin2. apply list_elem_of_In in Hin2. unfold encoded. simpl.
        destruct (String.eqb_spec k2 key) as [->|Hne]; [|done].
        apply assoc_None in Ha. destruct Ha.
        apply list_elem_of_fmap. by exists (key, v2).
      * intros k w Hk' Hw. apply (Hser k w); [by apply list_elem_of_further | done].
Qed.

(** C3.  For a query object (its keys distinct) whose reserved values
    serialise, both builders return the spec's query string: each of [key],
    [keys], [startkey] and [endkey] that is present carries the JSON text of
    its value, so a string value is written between quotes before it is
    form encoded; every other key is form encoded as it is; and without any
    parameter there is no suffix at all. *)
Theorem createQueryString_spec (q : list (string * JsValue)) :
  NoDup q.*1 ->
  (forall k v, reserved k = true -> (k, v) ∈ q -> exists o, JSON_stringify v = Return o) ->
  Legacy.createQueryString (Some q) = Return (query_string q)
  /\ Factory.createQueryString (Some q) = Return (query_string q)
  /\ (q = [] -> query_string q = "")
  /\ Legacy.createQueryString None = Return ""
  /\ Factory.createQueryString None = Return ""
  /\ (forall k s, reserved k = true ->
        flat_map qs_fields [encoded Legacy.QUERY_KEYS_JSON (k, JStr s)]
        = [(querystring_escape k +:+ "=") +:+ querystring_escape (json_quote s)])
  /\ (forall k s, reserved k = false ->
        flat_map qs_fields [encoded Legacy.QUERY_KEYS_JSON (k, JStr s)]
        = [(querystring_escape k +:+ "=") +:+ querystring_escape s]).
Proof.
  intros Hnd Hser.
  assert (HL : Legacy.createQueryString (Some q) = Return (query_string q)).
  { unfold Legacy.createQueryString.
    change (default [] (Some q)) with q. rewrite (obj_assign_copy _ Hnd).
    rewrite stringify_keys_spec; [| | done |].
    - cbn [bindC]. f_equal. rewrite length_map. by destruct q.
    - unfold Legacy.QUERY_KEYS_JSON. apply (bool_decide_unpack _). by vm_compute.
    - intros k v Hk Hin. apply (Hser k v); [|done].
      unfold reserved, Legacy.QUERY_KEYS_JSON in *.
      apply existsb_exists. exists k. split; [by apply list_elem_of_In | apply String.eqb_refl]. }
  split; [exact HL|].
  split; [by rewrite createQueryString_agree|].
  split; [by intros ->|].
  split; [reflexivity|].
  split; [reflexivity|].
  split.
  - intros k s Hk. unfold encoded, reserved, Legacy.QUERY_KEYS_JSON in *.
    cbn [fst snd] in *. rewrite Hk. reflexivity.
  - intros k s Hk. unfold encoded, reserved, Legacy.QUERY_KEYS_JSON in *.
    cbn [fst snd] in *. rewrite Hk. reflexivity.
Qed.

Lemma createQueryString_spec_witness :
  Legacy.createQueryString (Some by_key_foo) = Return "?key=%22foo%22&limit=10"
  /\ Factory.createQueryString (Some by_key_foo) = Return "?key=%22foo%22&limit=10".
Proof.
  assert (Hnd : NoDup by_key_foo.*1) by (apply (bool_decide_unpack _); by vm_compute).
  assert (Hser : forall k v, reserved k = true -> (k, v) ∈ by_key_foo ->
                 exists o, JSON_stringify v = Return o).
  { intros k v _ Hin. unfold by_key_foo in Hin.
    apply elem_of_cons in Hin as [[= -> ->] | Hin]; [by eexists|].
    apply elem_of_cons in Hin as [[= -> ->] | Hin]; [by eexists|].
    by apply elem_of_nil in Hin. }
  destruct (createQueryString_spec by_key_foo Hnd Hser) as (HL & HF & _).
  split; [exact HL | exact HF].
Defined.

(** ** Promises settle once *)

Lemma resolve_settled (e : Envelope) (p : Settlement) : settled p = true -> resolve e p = p.
Proof. by destruct p. Qed.

Lemma reject_settled (e : Envelope) (p : Settlement) : settled p = true -> reject e p = p.
Proof. by destruct p. Qed.

Lemma settled_resolve (e : Envelope) (p : Settlement) : settled (resolve e p) = true.
Proof. by destruct p. Qed.

Lemma settled_reject (e : Envelope) (p : Settlement) : settled (reject e p) = true.
Proof. by destruct p. Qed.

Section Folds.
Context {S : Type} (proj : S -> Settlement) (step : S -> Z * Event -> S).
Hypothesis step_keeps : forall x ev, settled (proj x) = true -> proj (step x ev) = proj x.

Lemma fold_keeps (t : Trace) (x : S) :
  settled (proj x) = true -> proj (fold_left step t x) = proj x.
Proof.
  revert x. induction t as [|ev t IH]; intros x Hx; simpl; [done|].
  rewrite IH; [by apply step_keeps|].
  by rewrite step_keeps.
Qed.

Lemma fold_settles_once (x0 : S) : settles_once (fun t => proj (fold_left step t x0)).
Proof. intros t t' Ht. rewrite fold_left_app. by apply fold_keeps. Qed.

Lemma fold_invariant (Q : Settlement -> Prop) (t : Trace) (x : S) :
  (forall x ev, Q (proj x) -> Q (proj (step x ev))) -> Q (proj x) -> Q (proj (fold_left step t x)).
Proof.
  intros Hstep. revert x. induction t as [|ev t IH]; intros x Hx; simpl; [done|].
  by apply IH, Hstep.
Qed.

End Folds.

Lemma legacy_request_step_keeps (P : Platform) (codes : gmap Z string) (x : Exchange)
    (ev : Z * Event) :
  settled (promise x) = true -> promise (Legacy.request_step P codes x ev) = promise x.
Proof.
  intros Hx. unfold Legacy.request_step.
  destruct (snd ev); simpl; try done.
  - by destruct (res x).
  - destruct (res x) as [[code hs]|]; simpl; [by apply resolve_settled | done].
  - by apply reject_settled.
  - by apply reject_settled.
Qed.

Lemma factory_request_step_keeps (P : Platform) (t0 : Z) (codes : option (gmap Z string))
    (x : Exchange) (ev : Z * Event) :
  settled (promise x) = true -> promise (Factory.request_step P t0 codes x ev) = promise x.
Proof.
  intros Hx. unfold Factory.request_step.
  destruct (snd ev); simpl; try done.
  - by destruct (res x).
  - destruct (res x) as [[code hs]|]; simpl; [|done].
    destruct (_ <? 400); [by apply resolve_settled | by apply reject_settled].
  - by apply reject_settled.
  - by apply reject_settled.
Qed.

Lemma legacy_requestStream_step_keeps (codes : gmap Z string) (p : Settlement) (ev : Z * Event) :
  settled p = true -> Legacy.requestStream_step codes p ev = p.
Proof.
  intros Hp. unfold Legacy.requestStream_step.
  destruct (snd ev); simpl; try done.
  - destruct (_ <? 400); [by apply resolve_settled | by apply reject_settled].
  - by apply reject_settled.
  - by apply reject_settled.
Qed.

Lemma factory_requestStream_step_keeps (P : Platform) (t0 : Z) (codes : option (gmap Z string))
    (p : Settlement) (ev : Z * Event) :
  settled p = true -> Factory.requestStream_step P t0 codes p ev = p.
Proof.
  intros Hp. unfold Factory.requestStream_step.
  destruct (snd ev); simpl; try done.
  - destruct (_ <? 400); [by apply resolve_settled | by apply reject_settled].
  - by apply reject_settled.
  - by apply reject_settled.
Qed.

(** ** Completed exchanges *)

Lemma legacy_chunks (P : Platform) (codes : gmap Z string) (code : Z)
    (hs : gmap string JsValue) (chunks : list (Z * string)) (b : string) :
  fold_left (Legacy.request_step P codes) (map (fun c => (fst c, Data (snd c))) chunks)
    {| promise := Pending; res := Some (code, hs); buffer := b |}
  = {| promise := Pending; res := Some (code, hs);
       buffer := fold_left (fun acc c => acc +:+ snd c) chunks b |}.
Proof. revert b. induction chunks as [|c chunks IH]; intros b; simpl; [done | apply IH]. Qed.

Lemma factory_chunks (P : Platform) (t0 : Z) (codes : option (gmap Z string)) (code : Z)
    (hs : gmap string JsValue) (chunks : list (Z * string)) (b : string) :
  fold_left (Factory.request_step P t0 codes) (map (fun c => (fst c, Data (snd c))) chunks)
    {| promise := Pending; res := Some (code, hs); buffer := b |}
  = {| promise := Pending; res := Some (code, hs);
       buffer := fold_left (fun acc c => acc +:+ snd c) chunks b |}.
Proof. revert b. induction chunks as [|c chunks IH]; intros b; simpl; [done | apply IH]. Qed.

Lemma legacy_exchange (P : Platform) (codes : gmap Z string) (t_res code : Z)
    (hs : gmap string JsValue) (chunks : list (Z * string)) (t_end : Z) :
  promise (fold_left (Legacy.request_step P codes) (exchange t_res code hs chunks t_end) exchange0)
  = Fulfilled (Legacy.on_end P codes code hs (body_of chunks)).
Proof.
  unfold exchange.
  change (promise (fold_left (Legacy.request_step P codes)
            (map (fun c => (fst c, Data (snd c))) chunks ++ [(t_end, End)])%list
            {| promise := Pending; res := Some (code, hs); buffer := "" |})
          = Fulfilled (Legacy.on_end P codes code hs (body_of chunks))).
  by rewrite fold_left_app, legacy_chunks.
Qed.

Lemma factory_exchange (P : Platform) (t0 : Z) (codes : option (gmap Z string)) (t_res code : Z)
    (hs : gmap string JsValue) (chunks : list (Z * string)) (t_end : Z) :
  promise (fold_left (Factory.request_step P t0 codes) (exchange t_res code hs chunks t_end) exchange0)
  = if status (Factory.on_end P t0 codes code hs (body_of chunks) t_end) <? 400
    then Fulfilled (Factory.on_end P t0 codes code hs (body_of chunks) t_end)
    else Rejected (Factory.on_end P t0 codes code hs (body_of chunks) t_end).
Proof.
  unfold exchange.
  change (promise (fold_left (Factory.request_step P t0 codes)
            (map (fun c => (fst c, Data (snd c))) chunks ++ [(t_end, End)])%list
            {| promise := Pending; res := Some (code, hs); buffer := "" |})
          = if status (Factory.on_end P t0 codes code hs (body_of chunks) t_end) <? 400
            then Fulfilled (Factory.on_end P t0 codes code hs (body_of chunks) t_end)
            else Rejected (Factory.on_end P t0 codes code hs (body_of chunks) t_end)).
  rewrite fold_left_app, factory_chunks. simpl. unfold body_of.
  by destruct (_ <? 400).
Qed.

Lemma legacy_request_sent (P : Platform) (requestTimeout : Z) (param : Legacy.Param)
    (r : Request) (k : Trace -> Settlement) :
  Legacy.request P requestTimeout param = Sent r k ->
  k = fun t => promise (fold_left
                 (Legacy.request_step P (default ∅ (Legacy.p_statusCodes param))) t exchange0).
Proof.
  unfold Legacy.request.
  destruct (negb _); [done|].
  destruct (Legacy.payload _ _ _ _) as [hs [pl|e]]; [|done].
  destruct (truthy (error pl)); [done|].
  by intros [= _ <-].
Qed.

Lemma factory_request_sent (P : Platform) (config : Factory.Config) (t0 t1 : Z)
    (param : Factory.Param) (o o' : HttpOptions) (r : Request) (k : Trace -> Settlement) :
  Factory.request P config t0 t1 param o = (Sent r k, o') ->
  k = fun t => promise (fold_left
                 (Factory.request_step P t0 (Factory.p_statusCodes param)) t exchange0).
Proof.
  unfold Factory.request.
  destruct (Factory.payload _ _ _ _) as [hs [pl|e]]; [|done].
  destruct (truthy (error pl)); [done|].
  by intros [= _ <- _].
Qed.

(** C7.  When an exchange completes, the text parsed is the body, or the
    two characters of an empty object when the body is empty; the call
    settles with the parsed value as [data], and when the text is not JSON
    it settles with an envelope of status 500 that embeds the parse error
    ([data] is the error in the free-function module, an object holding its
    message in the factory module, where the promise is rejected): the
    exception never leaves the handler. *)
Theorem response_body_is_parsed_or_reported (P : Platform) (requestTimeout : Z)
    (config : Factory.Config) (t0 t1 : Z) (lp : Legacy.Param) (fp : Factory.Param)
    (o o' : HttpOptions) (r r' : Request) (k k' : Trace -> Settlement)
    (t_res code : Z) (hs : gmap string JsValue) (chunks : list (Z * string)) (t_end : Z) :
  Legacy.request P requestTimeout lp = Sent r k ->
  Factory.request P config t0 t1 fp o = (Sent r' k', o') ->
  (forall d, JSON_parse P (parsed_text (body_of chunks)) = Return d ->
     k (exchange t_res code hs chunks t_end)
     = Fulfilled {| headers := hs; data := Some d; status := code;
                    message := JStr (Legacy.status_message
                                       (default ∅ (Legacy.p_statusCodes lp)) code);
                    duration := None |}
     /\ k' (exchange t_res code hs chunks t_end)
        = (if code <? 400 then Fulfilled else Rejected)
            {| headers := hs; data := Some d; status := code;
               message := JStr (Factory.statusCode P (Factory.p_statusCodes fp) code);
               duration := Some (t_end - t0) |})
  /\ (forall err, JSON_parse P (parsed_text (body_of chunks)) = Throw err ->
        k (exchange t_res code hs chunks t_end)
        = Fulfilled {| headers := hs; data := Some err; status := 500;
                       message := js_or (get_prop err "message") (JStr "internal error");
                       duration := None |}
        /\ k' (exchange t_res code hs chunks t_end)
           = Rejected {| headers := hs; data := Some (JObj [("error", get_prop err "message")]);
                         status := 500;
                         message := js_or (get_prop err "message") (JStr "internal error");
                         duration := Some (t_end - t0) |})
  /\ (body_of chunks = "" -> parsed_text (body_of chunks) = "{}").
Proof.
  intros Hk Hk'.
  rewrite (legacy_request_sent _ _ _ _ _ Hk), (factory_request_sent _ _ _ _ _ _ _ _ _ Hk').
  rewrite legacy_exchange, factory_exchange.
  unfold Legacy.on_end, Factory.on_end, parsed_text.
  split; [|split].
  - intros d Hd. rewrite Hd. simpl. by destruct (code <? 400).
  - intros err He. by rewrite He.
  - by intros ->.
Qed.

Lemma local_client :
  Factory.factory Reference.node local_options
  = Return {| Factory.config := local_config; Factory.httpOptions := local_httpOptions |}.
Proof. reflexivity. Qed.

Lemma response_body_is_parsed_or_reported_witness :
  settlement (Legacy.request Reference.node 10000 (get_from "http://localhost:5984/"))
    (exchange 1 200 ∅ [(2, "<html>")] 3)
  = Some (Fulfilled {| headers := ∅; data := Some Reference.SyntaxError; status := 500;
                       message := JStr "Unexpected token in JSON"; duration := None |})
  /\ settlement (fst (Factory.request Reference.node local_config 0 0 (get_path "") local_httpOptions))
       (exchange 1 200 ∅ [(2, "<html>")] 3)
     = Some (Rejected {| headers := ∅;
                         data := Some (JObj [("error", JStr "Unexpected token in JSON")]);
                         status := 500; message := JStr "Unexpected token in JSON";
                         duration := Some 3 |}).
Proof.
  destruct (response_body_is_parsed_or_reported Reference.node 10000 local_config 0 0
              (get_from "http://localhost:5984/") (get_path "") local_httpOptions
              _ _ _ _ _ 1 200 ∅ [(2, "<html>")] 3 eq_refl eq_refl) as (_ & H & _).
  destruct (H Reference.SyntaxError eq_refl) as [H1 H2].
  split; [exact (f_equal Some H1) | exact (f_equal Some H2)].
Defined.

(** ** Error statuses *)

(** C5, at the failing input: the server answers 404 with a JSON body.  The
    promise of the free-function module is fulfilled with the envelope; the
    factory module, run on the same events, rejects with it. *)
Theorem legacy_fulfils_an_error_status :
  settlement (Legacy.getDocument Reference.node 10000 "http://localhost:5984" "db" "missing" None)
    (exchange 1 404 ∅ [(2, not_found_body)] 3)
  = Some (Fulfilled {| headers := ∅; data := Some (JObj [("error", JStr "not_found")]);
                       status := 404; message := JStr "Not Found - Document not found";
                       duration := None |})
  /\ settlement (fst (Factory.getDocument Reference.node local_config 0 0 "db" "missing" None
                        local_httpOptions))
       (exchange 1 404 ∅ [(2, not_found_body)] 3)
     = Some (Rejected {| headers := ∅; data := Some (JObj [("error", JStr "not_found")]);
                         status := 404; message := JStr "Not Found - Document not found";
                         duration := Some 3 |}).
Proof. split; reflexivity. Qed.

(** The free-function [request] never rejects because of the status of a
    response: whatever the code, a completed exchange fulfils the promise. *)
Lemma legacy_request_fulfils_every_response (P : Platform) (requestTimeout : Z)
    (param : Legacy.Param) (r : Request) (k : Trace -> Settlement)
    (t_res code : Z) (hs : gmap string JsValue) (chunks : list (Z * string)) (t_end : Z) :
  Legacy.request P requestTimeout param = Sent r k ->
  exists e, k (exchange t_res code hs chunks t_end) = Fulfilled e.
Proof.
  intros Hk. rewrite (legacy_request_sent _ _ _ _ _ Hk), legacy_exchange. by eexists.
Qed.

(** ** The payload encoder *)

Lemma object_text_not_empty (v : JsValue) (s : string) :
  is_plain_object v = true -> JSON_stringify v = Return (Some s) -> String.eqb s "" = false.
Proof.
  destruct v; try done; simpl.
  - destruct ((fix members (ps : list (string * JsValue)) := _) props); simpl; [|done].
    by intros _ [= <-].
  - destruct ((fix members (ps : list (string * JsValue)) := _) props); simpl; done.
Qed.

Lemma legacy_payload_dispatch (P : Platform) (requestTimeout : Z) (url : string)
    (m : option string) (codes : option (gmap Z string)) (sink : JsValue) :
  Legacy.isValidUrl P url = true ->
  dispatch_spec
    (fun postData postContentType =>
       Legacy.request P requestTimeout
         {| Legacy.p_url := url; Legacy.p_method := m; Legacy.p_statusCodes := codes;
            Legacy.p_postData := postData; Legacy.p_postContentType := postContentType;
            Legacy.p_stream := sink |})
    base_headers truthy (JStr "unsoported post data").
Proof.
  intros Hv postData postContentType.
  unfold payload_kind, Legacy.request, Legacy.payload, sends, refuses. simpl. rewrite Hv. simpl.
  destruct (isBuffer postData) eqn:Hb.
  { destruct postData; try done. simpl. by eexists _, _. }
  destruct (is_readable postData) eqn:Hr.
  { eexists _, _. split; [reflexivity|]. split; [reflexivity|].
    unfold write_of. simpl. unfold is_readable in Hr.
    apply andb_true_iff in Hr as [Hr _]. apply andb_true_iff in Hr as [Hr _]. by rewrite Hr. }
  destruct (is_plain_object postData) eqn:Ho.
  { intros s Hs. rewrite Hs. simpl.
    eexists _, _. split; [reflexivity|]. split; [reflexivity|].
    unfold write_of. simpl. by rewrite (object_text_not_empty _ _ Ho Hs). }
  destruct (is_string postData) eqn:Hstr.
  { destruct postData; try done. simpl.
    eexists _, _. split; [reflexivity|]. split; [reflexivity|].
    unfold write_of. simpl. by destruct (String.eqb s ""). }
  destruct (truthy postData) eqn:Ht; simpl.
  - by eexists.
  - by eexists _, _.
Qed.

Lemma factory_payload_dispatch (P : Platform) (config : Factory.Config) (t0 t1 : Z)
    (p : string) (m : option string) (codes : option (gmap Z string)) (sink : JsValue)
    (o : HttpOptions) :
  dispatch_spec
    (fun postData postContentType =>
       fst (Factory.request P config t0 t1
              {| Factory.p_path := p; Factory.p_method := m; Factory.p_headers := None;
                 Factory.p_statusCodes := codes; Factory.p_postData := postData;
                 Factory.p_postContentType := postContentType; Factory.p_stream := sink |} o))
    (req_headers o) (fun v => truthy v || is_null v) (JObj [("error", JStr "unsupported post data")]).
Proof.
  intros postData postContentType.
  unfold payload_kind, Factory.request, Factory.payload, sends, refuses. simpl.
  destruct (isBuffer postData) eqn:Hb.
  { destruct postData; try done. simpl. by eexists _, _. }
  destruct (is_readable postData) eqn:Hr.
  { simpl. eexists _, _. split; [reflexivity|]. split; [reflexivity|].
    unfold write_of. simpl. unfold is_readable in Hr.
    apply andb_true_iff in Hr as [Hr _]. apply andb_true_iff in Hr as [Hr _]. by rewrite Hr. }
  destruct (is_plain_object postData) eqn:Ho.
  { intros s Hs. rewrite Hs. simpl.
    eexists _, _. split; [reflexivity|]. split; [reflexivity|].
    unfold write_of. simpl. by rewrite (object_text_not_empty _ _ Ho Hs). }
  destruct (is_string postData) eqn:Hstr.
  { destruct postData; try done. simpl.
    eexists _, _. split; [reflexivity|]. split; [reflexivity|].
    unfold write_of. simpl. by destruct (String.eqb s ""). }
  destruct (truthy postData || is_null postData) eqn:Ht; simpl.
  - by eexists.
  - by eexists _, _.
Qed.

(** C2, as amended.  Both request functions look at the payload in the
    order buffer, readable stream, plain object, string.  A buffer is
    written as it is, with the caller's content type and its byte length; a
    stream is passed on under chunked transfer encoding; a plain object
    that serialises is written as its JSON text, with content type
    application/json and the byte length of the text; a string is written
    as it is, with the caller's content type and its length in characters.
    A value of no such kind is refused, before any request, with the
    status-400 envelope of an invalid payload when it is truthy (and, in
    the factory module, when it is [null]); any other falsy value
    ([undefined], [false], 0, and [null] in the free-function module) is
    no payload, and the request goes out without a body. *)
Theorem payload_encoder_dispatch (P : Platform) (requestTimeout : Z) (url : string)
    (config : Factory.Config) (t0 t1 : Z) (p : string) (o : HttpOptions)
    (m : option string) (codes : option (gmap Z string)) (sink : JsValue) :
  Legacy.isValidUrl P url = true ->
  dispatch_spec
    (fun postData postContentType =>
       Legacy.request P requestTimeout
         {| Legacy.p_url := url; Legacy.p_method := m; Legacy.p_statusCodes := codes;
            Legacy.p_postData := postData; Legacy.p_postContentType := postContentType;
            Legacy.p_stream := sink |})
    base_headers truthy (JStr "unsoported post data")
  /\ dispatch_spec
    (fun postData postContentType =>
       fst (Factory.request P config t0 t1
              {| Factory.p_path := p; Factory.p_method := m; Factory.p_headers := None;
                 Factory.p_statusCodes := codes; Factory.p_postData := postData;
                 Factory.p_postContentType := postContentType; Factory.p_stream := sink |} o))
    (req_headers o) (fun v => truthy v || is_null v)
    (JObj [("error", JStr "unsupported post data")]).
Proof.
  intros Hv. split; [by apply legacy_payload_dispatch | apply factory_payload_dispatch].
Qed.

Lemma payload_encoder_dispatch_witness :
  sends (Legacy.request Reference.node 10000
           {| Legacy.p_url := "http://localhost:5984/db"; Legacy.p_method := Some "POST";
              Legacy.p_statusCodes := None; Legacy.p_postData := january;
              Legacy.p_postContentType := JUndefined; Legacy.p_stream := JUndefined |})
    (<["content-length" := JNum 29]> (<["content-type" := JStr "application/json"]> base_headers))
    (WriteText january_text)
  /\ refuses (fst (Factory.request Reference.node local_config 0 0
                     {| Factory.p_path := "db"; Factory.p_method := Some "POST";
                        Factory.p_headers := None; Factory.p_statusCodes := None;
                        Factory.p_postData := JNum 7; Factory.p_postContentType := JUndefined;
                        Factory.p_stream := JUndefined |} local_httpOptions))
       (JObj [("error", JStr "unsupported post data")]).
Proof.
  destruct (payload_encoder_dispatch Reference.node 10000 "http://localhost:5984/db"
              local_config 0 0 "db" local_httpOptions (Some "POST") None JUndefined eq_refl)
    as [HL HF].
  split.
  - exact (HL january JUndefined january_text eq_refl).
  - exact (HF (JNum 7) JUndefined).
Defined.

(** C2, as stated, fails: [false] is a boolean, it is none of the four
    kinds, and the document call that carries it is not refused: the
    request goes out, without a body. *)
Lemma falsy_payload_is_not_refused :
  ~ (forall doc : JsValue,
       payload_kind doc = IsOther -> doc <> JUndefined ->
       exists e,
         Legacy.createDocument Reference.node 10000 "http://localhost:5984" "db" doc ""
         = Settled (Rejected e) /\ status e = 400).
Proof.
  intros H.
  destruct (H (JBool false) eq_refl) as (e & He & _); [done|].
  apply (f_equal (fun c => match c with Sent _ _ => true | _ => false end)) in He.
  vm_compute in He. discriminate He.
Qed.

(** A plain object that does not serialise: [request] records the error,
    then asks for the byte length of the missing text.  Where that is a
    number the call is refused as an invalid payload; where it throws, the
    call throws. *)
Lemma unserialisable_payload (P : Platform) (requestTimeout : Z) (param : Legacy.Param)
    (err : JsValue) :
  Legacy.isValidUrl P (Legacy.p_url param) = true ->
  payload_kind (Legacy.p_postData param) = IsObject ->
  JSON_stringify (Legacy.p_postData param) = Throw err ->
  truthy err = true ->
  Legacy.request P requestTimeout param
  = match byteLength_undefined P with
    | Return _ => Settled (Rejected (Legacy.invalid_post_data err))
    | Throw e => Threw e
    end.
Proof.
  intros Hv Hk He Ht. unfold payload_kind in Hk.
  unfold Legacy.request, Legacy.payload. rewrite Hv. simpl.
  destruct (isBuffer _); [done|].
  destruct (is_readable _); [done|].
  destruct (is_plain_object _); [|by destruct (is_string _)].
  rewrite He. simpl.
  destruct (byteLength_undefined P); simpl; [by rewrite Ht | done].
Qed.

Lemma circular_payload_on_two_platforms :
  Legacy.createDocument Reference.node6 10000 "http://localhost:5984" "db" (JCircular []) ""
  = Settled (Rejected (Legacy.invalid_post_data
                         (JError "TypeError" "Converting circular structure to JSON")))
  /\ Legacy.createDocument Reference.node 10000 "http://localhost:5984" "db" (JCircular []) ""
     = Threw (JError "TypeError"
                "The first argument must be of type string or an instance of Buffer").
Proof. split; reflexivity. Qed.

(** ** The two calling conventions *)

Lemma payload_agree (P : Platform) (postData postContentType : JsValue)
    (hs hs' : gmap string JsValue) (pl : Payload) :
  Factory.payload P postData postContentType hs = (hs', Return pl) ->
  truthy (error pl) = false ->
  Legacy.payload P postData postContentType hs = (hs', Return pl).
Proof.
  unfold Factory.payload, Legacy.payload.
  destruct (isBuffer postData); [done|].
  destruct (is_readable postData); [done|].
  destruct (is_plain_object postData); [done|].
  destruct (is_string postData); [done|].
  destruct (truthy postData) eqn:Ht; simpl.
  - by intros [= <- <-].
  - destruct (is_null postData); [by intros [= <- <-] | done].
Qed.

Lemma port_is_given (port : option string) :
  parseInt_isNaN port = false -> js_or (of_option port) (JNum 443) = of_option port.
Proof.
  destruct port as [s|]; [|done].
  destruct s; [done|]. reflexivity.
Qed.

Lemma factory_call_cases (P : Platform) (config : Factory.Config) (t0 t1 : Z)
    (Q : Call -> HttpOptions -> CallResult * HttpOptions -> Prop) :
  (forall c e o, Q c o (Threw e, o)) ->
  (forall c o, Q c o (NoPromise, o)) ->
  (forall c param o, (is_copy c = false -> Factory.p_headers param = None) ->
     Q c o (Factory.request P config t0 t1 param o)) ->
  (forall c param o,
     Q c o (let (res, o') := Factory.requestStream P config t0 param o in
            (then_await_sink Factory.stream_error res, o'))) ->
  forall c o, Q c o (Factory.invoke P config t0 t1 c o).
Proof.
  intros Hthrow Hnone Hreq Hstream c o.
  destruct c; cbn [Factory.invoke]; unfold_api; cbv zeta;
    try (destruct (Factory.createQueryString queryObj) as [queryStr|e]; [|apply Hthrow]);
    try (destruct (truthy (JStr docId) && truthy (JStr newDocId)); [|apply Hnone]);
    try (destruct (truthy (JStr docId)));
    first [apply Hstream | by apply Hreq].
Qed.

Lemma insert_keeps (hs : gmap string JsValue) (k h : string) (x v : JsValue) :
  hs !! h = Some v -> exists v', <[k := x]> hs !! h = Some v' /\ (h <> k -> v' = v).
Proof.
  intros Hh. destruct (decide (h = k)) as [->|Hne].
  - exists x. by rewrite lookup_insert_eq.
  - exists v. by rewrite lookup_insert_ne.
Qed.

Lemma insert_only (hs : gmap string JsValue) (k h : string) (x : JsValue) :
  is_Some (<[k := x]> hs !! h) -> is_Some (hs !! h) \/ h = k.
Proof.
  destruct (decide (h = k)) as [->|Hne]; [by right|].
  rewrite lookup_insert_ne by done. by left.
Qed.

Lemma factory_payload_keeps (P : Platform) (postData postContentType : JsValue)
    (hs : gmap string JsValue) (h : string) (v : JsValue) :
  hs !! h = Some v ->
  exists v', fst (Factory.payload P postData postContentType hs) !! h = Some v'
             /\ (h ∉ content_headers -> v' = v).
Proof.
  intros Hh. unfold content_headers.
  assert (Hin : forall k, k ∈ ["content-type"; "content-length"; "Transfer-Encoding"] ->
                h ∉ ["content-type"; "content-length"; "Transfer-Encoding"] -> h <> k).
  { intros k Hk Hnot ->. by apply Hnot. }
  assert (Hct : "content-type" ∈ ["content-type"; "content-length"; "Transfer-Encoding"])
    by repeat constructor.
  assert (Hcl : "content-length" ∈ ["content-type"; "content-length"; "Transfer-Encoding"])
    by repeat constructor.
  assert (Hte : "Transfer-Encoding" ∈ ["content-type"; "content-length"; "Transfer-Encoding"])
    by repeat constructor.
  assert (Htwo : forall k1 k2 x1 x2,
            k1 ∈ ["content-type"; "content-length"; "Transfer-Encoding"] ->
            k2 ∈ ["content-type"; "content-length"; "Transfer-Encoding"] ->
            exists v', <[k2 := x2]> (<[k1 := x1]> hs) !! h = Some v'
                       /\ (h ∉ ["content-type"; "content-length"; "Transfer-Encoding"] ->
                           v' = v)).
  { intros k1 k2 x1 x2 H1 H2.
    destruct (insert_keeps hs k1 h x1 v Hh) as (v1 & Hv1 & E1).
    destruct (insert_keeps _ k2 h x2 v1 Hv1) as (v2 & Hv2 & E2).
    exists v2. split; [done|]. intros Hnot. rewrite E2, E1; eauto. }
  unfold Factory.payload.
  destruct (isBuffer postData); [by apply Htwo|].
  destruct (is_readable postData); [by apply Htwo|].
  destruct (is_plain_object postData).
  - destruct (byteLength_of P _); simpl; [by apply Htwo|].
    destruct (insert_keeps hs "content-type" h (JStr "application/json") v Hh) as (v1 & Hv1 & E1).
    exists v1. split; [done|]. intros Hnot. apply E1. by apply Hin.
  - destruct (is_string postData); [by apply Htwo|].
    destruct (truthy postData || is_null postData); simpl; by exists v.
Qed.

(** One call: the endpoint stays, a request is made with the options as
    the call leaves them, and no header is dropped. *)
Lemma factory_call_keeps (P : Platform) (config : Factory.Config) (t0 t1 : Z) (c : Call)
    (o : HttpOptions) :
  let res := fst (Factory.invoke P config t0 t1 c o) in
  let o' := snd (Factory.invoke P config t0 t1 c o) in
  same_endpoint o' o
  /\ (forall r, wire res = Some r ->
        options r = o' /\ timeout r = Factory.requestTimeout config
        /\ lib r = lib_of (protocol o))
  /\ (forall h v, req_headers o !! h = Some v ->
        exists v', req_headers o' !! h = Some v'
                   /\ (h ∉ content_headers -> (h = "Destination" -> is_copy c = false) ->
                       v' = v)).
Proof.
  cbv zeta.
  apply (factory_call_cases P config t0 t1
           (fun c o p =>
              same_endpoint (snd p) o
              /\ (forall r, wire (fst p) = Some r ->
                    options r = snd p /\ timeout r = Factory.requestTimeout config
                    /\ lib r = lib_of (protocol o))
              /\ (forall h v, req_headers o !! h = Some v ->
                    exists v', req_headers (snd p) !! h = Some v'
                               /\ (h ∉ content_headers ->
                                   (h = "Destination" -> is_copy c = false) -> v' = v)))).
  - intros c' e o'. simpl. split; [done|]. split; [done|]. intros h v Hh. by exists v.
  - intros c' o'. simpl. split; [done|]. split; [done|]. intros h v Hh. by exists v.
  - intros c' param o' Hcopy. unfold Factory.request.
    set (dest := get_prop (JObj (default [] (Factory.p_headers param))) "Destination").
    set (o1 := Factory.with_request o' (Factory.p_method param) ("/" +:+ Factory.p_path param)).
    set (o2 := if truthy dest
               then Factory.with_headers o1 (<["Destination" := dest]> (req_headers o1))
               else o1).
    assert (Ho2 : same_endpoint o2 o' /\ protocol o2 = protocol o').
    { unfold o2. by destruct (truthy dest). }
    assert (Hh2 : forall h v, req_headers o' !! h = Some v ->
              exists v', req_headers o2 !! h = Some v'
                         /\ ((h = "Destination" -> is_copy c' = false) -> v' = v)).
    { intros h v Hh. unfold o2. destruct (truthy dest) eqn:Hd; simpl.
      - destruct (insert_keeps (req_headers o') "Destination" h dest v Hh) as (v' & Hv' & E).
        exists v'. split; [done|]. intros Hc.
        destruct (decide (h = "Destination")) as [->|Hne]; [|by apply E].
        specialize (Hcopy (Hc eq_refl)). unfold dest in Hd. by rewrite Hcopy in Hd.
      - by exists v. }
    destruct Ho2 as [Ho2 Hproto].
    pose proof (fun h v => factory_payload_keeps P (Factory.p_postData param)
                             (Factory.p_postContentType param) (req_headers o2) h v) as Hpl.
    destruct (Factory.payload P _ _ (req_headers o2)) as [hs [pl|e]].
    + assert (Hkeep : forall h v, req_headers o' !! h = Some v ->
                exists v', hs !! h = Some v'
                           /\ (h ∉ content_headers ->
                               (h = "Destination" -> is_copy c' = false) -> v' = v)).
      { intros h v Hh. destruct (Hh2 h v Hh) as (v2 & Hv2 & E2).
        destruct (Hpl h v2 Hv2) as (v3 & Hv3 & E3). exists v3. split; [done|].
        intros Hn Hc. rewrite E3, E2; done. }
      destruct (truthy (error pl)); simpl; (split; [done|]); (split; [|done]); [done|].
      intros r [= <-]. simpl. by rewrite Hproto.
    + simpl. split; [done|]. split; [done|].
      intros h v Hh. destruct (Hh2 h v Hh) as (v2 & Hv2 & E2).
      destruct (Hpl h v2 Hv2) as (v3 & Hv3 & E3). exists v3. split; [done|].
      intros Hn Hc. rewrite E3, E2; done.
  - intros c' param o'. unfold Factory.requestStream.
    destruct (negb _); simpl.
    + split; [done|]. split; [done|]. intros h v Hh. by exists v.
    + split; [done|]. split; [by intros r [= <-]|]. intros h v Hh. by exists v.
Qed.

Lemma after_calls_keeps (P : Platform) (config : Factory.Config) (cs : list (Z * Z * Call))
    (o : HttpOptions) :
  same_endpoint (after_calls P config cs o) o
  /\ (forall h v, req_headers o !! h = Some v ->
        exists v', req_headers (after_calls P config cs o) !! h = Some v'
                   /\ (h ∉ content_headers ->
                       (h = "Destination" ->
                        forallb (fun c => negb (is_copy c)) (map snd cs) = true) ->
                       v' = v)).
Proof.
  revert o. induction cs as [|[[t0 t1] c] cs IH]; intros o.
  - split; [done|]. intros h v Hh. by exists v.
  - change (after_calls P config ((t0, t1, c) :: cs) o)
      with (after_calls P config cs (snd (Factory.invoke P config t0 t1 c o))).
    destruct (factory_call_keeps P config t0 t1 c o) as (He & _ & Hh1).
    destruct (IH (snd (Factory.invoke P config t0 t1 c o))) as [He' Hh2].
    split.
    + destruct He as (E1 & E2 & E3 & E4 & E5), He' as (F1 & F2 & F3 & F4 & F5).
      unfold same_endpoint. by rewrite F1, F2, F3, F4, F5.
    + intros h v Hh. destruct (Hh1 h v Hh) as (v1 & Hv1 & E1).
      destruct (Hh2 h v1 Hv1) as (v2 & Hv2 & E2). exists v2. split; [done|].
      intros Hn Hc. rewrite E2, E1; try done.
      * intros Hd. specialize (Hc Hd). apply andb_true_iff in Hc as [Hc _].
        by apply negb_true_iff in Hc.
      * intros Hd. specialize (Hc Hd). by apply andb_true_iff in Hc as [_ Hc].
Qed.

Lemma factory_call_params (P : Platform) (config : Factory.Config) (t0 t1 : Z)
    (Q : Call -> HttpOptions -> CallResult * HttpOptions -> Prop) :
  (forall c e o, Q c o (Threw e, o)) ->
  (forall c o, Q c o (NoPromise, o)) ->
  (forall c param o, (is_copy c = false -> Factory.p_headers param = None) ->
     Factory.p_postData param = payload_of c ->
     Q c o (Factory.request P config t0 t1 param o)) ->
  (forall c param o,
     Q c o (let (res, o') := Factory.requestStream P config t0 param o in
            (then_await_sink Factory.stream_error res, o'))) ->
  forall c o, Q c o (Factory.invoke P config t0 t1 c o).
Proof.
  intros Hthrow Hnone Hreq Hstream c o.
  destruct c; cbn [Factory.invoke]; unfold_api; cbv zeta;
    try (destruct (Factory.createQueryString queryObj) as [queryStr|e]; [|apply Hthrow]);
    try (destruct (truthy (JStr docId) && truthy (JStr newDocId)); [|apply Hnone]);
    try (destruct (truthy (JStr docId)));
    first [apply Hstream | by apply Hreq].
Qed.

(** A call that writes no header leaves the shared headers as they are. *)
Lemma plain_call_leaves_headers (P : Platform) (config : Factory.Config) (t0 t1 : Z)
    (c : Call) (o : HttpOptions) :
  writes_no_header c = true ->
  req_headers (snd (Factory.invoke P config t0 t1 c o)) = req_headers o.
Proof.
  apply (factory_call_params P config t0 t1
           (fun c o p => writes_no_header c = true -> req_headers (snd p) = req_headers o));
    try done.
  - intros c' param o' Hcopy Hpd Hplain.
    apply andb_true_iff in Hplain as [Hc Hkind]. apply negb_true_iff in Hc.
    unfold Factory.request. rewrite (Hcopy Hc), Hpd. cbn [default get_prop assoc truthy].
    unfold payload_kind in Hkind. unfold Factory.payload.
    destruct (isBuffer (payload_of c')); [done|].
    destruct (is_readable (payload_of c')); [done|].
    destruct (is_plain_object (payload_of c')); [done|].
    destruct (is_string (payload_of c')); [done|].
    by destruct (truthy (payload_of c') || is_null (payload_of c')).
  - intros c' param o' _. unfold Factory.requestStream. by destruct (negb _).
Qed.

Lemma plain_calls_leave_headers (P : Platform) (config : Factory.Config)
    (cs : list (Z * Z * Call)) (o : HttpOptions) :
  Forall (fun tc => writes_no_header (snd tc) = true) cs ->
  req_headers (after_calls P config cs o) = req_headers o.
Proof.
  intros Hcs. revert o. induction Hcs as [|[[t0 t1] c] cs Hc Hcs IH]; intros o; [done|].
  change (after_calls P config ((t0, t1, c) :: cs) o)
    with (after_calls P config cs (snd (Factory.invoke P config t0 t1 c o))).
  rewrite IH. by apply plain_call_leaves_headers.
Qed.

Lemma base_headers_only (h : string) (v : JsValue) :
  base_headers !! h = Some v ->
  (h ∉ content_headers) /\ h <> "Destination".
Proof.
  unfold base_headers. intros H.
  apply lookup_insert_Some in H as [[<- _] | [_ H]].
  - split; [|done]. unfold content_headers. intros Hin.
    repeat (apply elem_of_cons in Hin as [Hin | Hin]; [discriminate Hin|]).
    by apply elem_of_nil in Hin.
  - apply lookup_singleton_Some in H as [<- _].
    split; [|done]. unfold content_headers. intros Hin.
    repeat (apply elem_of_cons in Hin as [Hin | Hin]; [discriminate Hin|]).
    by apply elem_of_nil in Hin.
Qed.

(** The options of a client are those of its base endpoint, whatever calls
    it served. *)
Lemma client_stays_client (P : Platform) (opt : Factory.Options) (b : string)
    (client : Factory.Client) (cs : list (Z * Z * Call)) :
  Factory.factory P opt = Return client ->
  Factory.baseUrl opt = Some b ->
  client_of P b (after_calls P (Factory.config client) cs (Factory.httpOptions client))
  /\ req_headers (Factory.httpOptions client) = base_headers.
Proof.
  intros Hf Hb. unfold Factory.factory in Hf. rewrite Hb in Hf.
  destruct (negb _) eqn:Hcheck; [done|].
  apply negb_false_iff in Hcheck.
  apply andb_true_iff in Hcheck as [Hcheck Hhost].
  apply andb_true_iff in Hcheck as [Hcheck Hport]. apply negb_true_iff in Hport.
  apply andb_true_iff in Hcheck as [Hproto Hslashes].
  apply bool_decide_eq_true in Hproto, Hslashes.
  injection Hf as <-. cbn [Factory.config Factory.httpOptions].
  split; [|done].
  lazymatch goal with
  | |- client_of _ _ (after_calls _ ?cfg _ ?o0) =>
      destruct (after_calls_keeps P cfg cs o0) as [(E1 & E2 & E3 & E4 & _) Hh]
  end.
  unfold client_of. rewrite E1, E2, E3, E4. cbn [hostname port auth protocol].
  repeat (split; [done|]).
  apply map_subseteq_spec. intros h v Hv.
  destruct (base_headers_only h v Hv) as [Hn Hd].
  destruct (Hh h v Hv) as (v' & Hv' & E). by rewrite Hv', E.
Qed.

Lemma extended_url_is_valid (P : Platform) (b p : string) (o : HttpOptions) :
  client_of P b o ->
  decimal_port (url_port (urlParse P b)) ->
  extends P b p ->
  Legacy.isValidUrl P (b +:+ "/" +:+ p) = true.
Proof.
  intros (Hproto & Hslashes & _ & Hhost & _) Hport Hext.
  unfold Legacy.isValidUrl. rewrite Hext. cbn [url_protocol url_slashes url_port url_hostname].
  rewrite (bool_decide_eq_true_2 _ Hproto), Hslashes, (decimal_port_is_a_number _ Hport), Hhost.
  reflexivity.
Qed.

(** The payload block reads the payload only: started from fewer headers
    it leaves fewer, and the same body. *)
Lemma payload_within (P : Platform) (postData postContentType : JsValue)
    (hs1 hs2 hs2' : gmap string JsValue) (pl : Payload) :
  hs1 ⊆ hs2 ->
  Factory.payload P postData postContentType hs2 = (hs2', Return pl) ->
  truthy (error pl) = false ->
  exists hs1', Legacy.payload P postData postContentType hs1 = (hs1', Return pl)
               /\ hs1' ⊆ hs2'.
Proof.
  intros Hsub. unfold Factory.payload, Legacy.payload.
  destruct (isBuffer postData).
  { intros [= <- <-] _. eexists. split; [done|]. by do 2 apply insert_mono. }
  destruct (is_readable postData).
  { intros [= <- <-] _. eexists. split; [done|]. by do 2 apply insert_mono. }
  destruct (is_plain_object postData).
  { destruct (byteLength_of P _); [|done].
    intros [= <- <-] _. eexists. split; [done|]. by do 2 apply insert_mono. }
  destruct (is_string postData).
  { intros [= <- <-] _. eexists. split; [done|]. by do 2 apply insert_mono. }
  destruct (truthy postData) eqn:Ht; simpl.
  - by intros [= <- <-].
  - destruct (is_null postData); [by intros [= <- <-]|].
    intros [= <- <-] _. by eexists.
Qed.

(** One call of [request] in each module, on parameters that agree. *)
Lemma request_compared (P : Platform) (requestTimeout : Z) (config : Factory.Config)
    (t0 t1 : Z) (b : string) (o : HttpOptions) (lp : Legacy.Param) (fp : Factory.Param)
    (r2 : Request) :
  client_of P b o ->
  decimal_port (url_port (urlParse P b)) ->
  Legacy.p_url lp = b +:+ "/" +:+ Factory.p_path fp ->
  Legacy.p_method lp = Factory.p_method fp ->
  Legacy.p_postData lp = Factory.p_postData fp ->
  Legacy.p_postContentType lp = Factory.p_postContentType fp ->
  Factory.p_headers fp = None ->
  wire (fst (Factory.request P config t0 t1 fp o)) = Some r2 ->
  (forall p, path (options r2) = Some ("/" +:+ p) -> extends P b p) ->
  exists r1,
    wire (Legacy.request P requestTimeout lp) = Some r1
    /\ same_target r1 r2
    /\ req_headers (options r1) ⊆ req_headers (options r2)
    /\ (req_headers o = base_headers -> same_wire r1 r2).
Proof.
  intros Ho Hport Hurl Hm Hd Hct Hh Hw Hp.
  pose proof Ho as (_ & _ & Hint & _ & E1 & E2 & E3 & E4 & Hbase).
  unfold Factory.request in Hw. rewrite Hh in Hw.
  cbn [default get_prop assoc truthy] in Hw.
  destruct (Factory.payload _ _ _ _) as [hs [pl|e]] eqn:Hpl; [|done].
  destruct (truthy (error pl)) eqn:Herr; [done|].
  cbn [fst wire] in Hw. injection Hw as <-. cbn [options path Factory.with_headers
    Factory.with_request] in Hp.
  specialize (Hp _ eq_refl).
  pose proof (extended_url_is_valid P b _ o Ho Hport Hp) as Hv.
  cbn [req_headers Factory.with_request] in Hpl.
  destruct (payload_within P _ _ _ _ _ _ Hbase Hpl Herr) as (hs1 & Hpl1 & Hsub).
  assert (Htarget : forall hs1',
            Legacy.payload P (Legacy.p_postData lp) (Legacy.p_postContentType lp) base_headers
            = (hs1', Return pl) ->
            exists r1, wire (Legacy.request P requestTimeout lp) = Some r1
                       /\ req_headers (options r1) = hs1'
                       /\ same_target r1
                            {| lib := lib_of (protocol o);
                               options :=
                                 Factory.with_headers
                                   (Factory.with_request o (Factory.p_method fp)
                                      ("/" +:+ Factory.p_path fp)) hs;
                               timeout := Factory.requestTimeout config;
                               written := write_of pl |}).
  { intros hs1' Hpl'. unfold Legacy.request. rewrite Hurl, Hv. cbn [negb].
    change (req_headers _) with base_headers at 1.
    rewrite <- Hurl, Hpl', Herr, Hurl.
    eexists. split; [reflexivity|]. split; [reflexivity|].
    unfold same_target, host_name. rewrite Hp.
    cbn [lib options written method path port hostname auth protocol url_host url_port
         url_path url_auth url_protocol Factory.with_headers Factory.with_request].
    rewrite E1, E2, E3, E4, Hm, (port_is_given _ Hint). done. }
  rewrite <- Hd, <- Hct in Hpl1.
  destruct (Htarget _ Hpl1) as (r1 & Hw1 & Hhs1 & Ht1).
  exists r1. split; [done|]. split; [done|]. split.
  - by rewrite Hhs1.
  - intros Hfresh. split; [done|]. rewrite Hhs1.
    rewrite Hfresh in Hpl. apply payload_agree in Hpl; [|done].
    rewrite <- Hd, <- Hct in Hpl. rewrite Hpl in Hpl1. by injection Hpl1 as ->.
Qed.

(** One call of [requestStream] in each module, on parameters that agree. *)
Lemma requestStream_compared (P : Platform) (requestTimeout : Z) (config : Factory.Config)
    (t0 : Z) (b : string) (o : HttpOptions) (lp : Legacy.Param) (fp : Factory.Param)
    (r2 : Request) :
  client_of P b o ->
  decimal_port (url_port (urlParse P b)) ->
  Legacy.p_url lp = b +:+ "/" +:+ Factory.p_path fp ->
  Legacy.p_stream lp = Factory.p_stream fp ->
  wire (then_await_sink Factory.stream_error (fst (Factory.requestStream P config t0 fp o)))
    = Some r2 ->
  (forall p, path (options r2) = Some ("/" +:+ p) -> extends P b p) ->
  exists r1,
    wire (then_await_sink Legacy.stream_error (Legacy.requestStream P requestTimeout lp))
      = Some r1
    /\ same_target r1 r2
    /\ req_headers (options r1) ⊆ req_headers (options r2).
Proof.
  intros Ho Hport Hurl Hs Hw Hp.
  pose proof Ho as (_ & _ & Hint & _ & E1 & E2 & E3 & E4 & Hbase).
  unfold Factory.requestStream in Hw.
  destruct (negb (is_writable (Factory.p_stream fp))) eqn:Hsink; [done|].
  cbn [fst wire then_await_sink] in Hw. injection Hw as <-.
  cbn [options path Factory.with_request] in Hp. specialize (Hp _ eq_refl).
  pose proof (extended_url_is_valid P b _ o Ho Hport Hp) as Hv.
  unfold Legacy.requestStream. rewrite Hs, Hsink, Hurl, Hv. cbn [negb then_await_sink wire].
  eexists. split; [reflexivity|]. split.
  - unfold same_target, host_name. rewrite Hp.
    cbn [lib options written method path port hostname auth protocol url_host url_port
         url_path url_auth url_protocol Factory.with_request].
    rewrite E1, E2, E3, E4, (port_is_given _ Hint). done.
  - cbn [options req_headers Factory.with_request].
    etrans; [|exact Hbase]. unfold base_headers. by apply insert_subseteq.
Qed.

(** One call in each module, the client's on shared options [o]. *)
Lemma calls_compared (P : Platform) (requestTimeout : Z) (config : Factory.Config)
    (t0 t1 : Z) (b : string) (o : HttpOptions) (c : Call) (res : CallResult) (r2 : Request) :
  client_of P b o ->
  decimal_port (url_port (urlParse P b)) ->
  Legacy.invoke P requestTimeout b c = Some res ->
  wire (fst (Factory.invoke P config t0 t1 c o)) = Some r2 ->
  (forall p, path (options r2) = Some ("/" +:+ p) -> extends P b p) ->
  exists r1,
    wire res = Some r1
    /\ same_target r1 r2
    /\ req_headers (options r1) ⊆ req_headers (options r2)
    /\ (is_download c = false -> req_headers o = base_headers -> same_wire r1 r2).
Proof.
  intros Ho Hport Hinv Hw Hp.
  destruct c; try discriminate Hinv;
    cbn [Legacy.invoke] in Hinv; injection Hinv as <-; cbn [Factory.invoke] in Hw;
    unfold_api; cbv zeta in *;
    try rewrite createQueryString_agree in Hw;
    try (destruct (Legacy.createQueryString queryObj) as [queryStr|e]; [|discriminate Hw]);
    try (destruct (truthy (JStr docId)));
    lazymatch type of Hw with
    | wire (fst (Factory.request _ _ _ _ ?fp _)) = _ =>
        lazymatch goal with
        | |- exists r1, wire (Legacy.request _ _ ?lp) = _ /\ _ =>
            destruct (request_compared P requestTimeout config t0 t1 b o
                        lp fp r2 Ho Hport eq_refl eq_refl eq_refl eq_refl eq_refl Hw Hp)
              as (r1 & H1 & H2 & H3 & H4);
            exists r1; split; [exact H1|]; split; [exact H2|]; split; [exact H3|];
            intros _ Hfresh; exact (H4 Hfresh)
        end
    | wire (fst (let (_, _) := Factory.requestStream _ _ _ ?fp _ in _)) = _ =>
        lazymatch goal with
        | |- exists r1, wire (then_await_sink _ (Legacy.requestStream _ _ ?lp)) = _ /\ _ =>
            destruct (Factory.requestStream P config t0 fp o) as [res' o'] eqn:E;
            assert (Hres : res' = fst (Factory.requestStream P config t0 fp o))
              by (by rewrite E);
            cbn [fst] in Hw; rewrite Hres in Hw;
            destruct (requestStream_compared P requestTimeout config t0 b o
                        lp fp r2 Ho Hport eq_refl eq_refl Hw Hp)
              as (r1 & H1 & H2 & H3);
            exists r1; split; [exact H1|]; split; [exact H2|]; split; [exact H3|];
            intros Hdl; discriminate Hdl
        end
    end.
Qed.

(** C4, as amended.  Take a client the constructor built from a base
    endpoint, after any calls it served, and a call that both modules
    export.  When the client puts the call on the wire, and [url.parse]
    reads the free-function module's URL for it as the base endpoint
    followed by the client's path, then the free-function module sends a
    request too: with the same method, path and query string, port and
    body (and host, credentials, scheme and transport); and with headers
    that are all among the client's, with the same values.  The headers
    are the same ones when the call is not the attachment download and the
    calls the client served before wrote none to its shared options, that
    is carried no payload and copied no document.  (The port of the base
    endpoint is made of digits, as every port is that [url.parse]
    reports.) *)
Theorem both_styles_send_the_same_request (P : Platform) (requestTimeout t0 t1 : Z)
    (opt : Factory.Options) (b : string) (client : Factory.Client)
    (cs : list (Z * Z * Call)) (c : Call) (res : CallResult) (r2 : Request) :
  Factory.factory P opt = Return client ->
  Factory.baseUrl opt = Some b ->
  decimal_port (url_port (urlParse P b)) ->
  Legacy.invoke P requestTimeout b c = Some res ->
  wire (fst (Factory.invoke P (Factory.config client) t0 t1 c
               (after_calls P (Factory.config client) cs (Factory.httpOptions client))))
    = Some r2 ->
  (forall p, path (options r2) = Some ("/" +:+ p) -> extends P b p) ->
  exists r1,
    wire res = Some r1
    /\ same_target r1 r2
    /\ req_headers (options r1) ⊆ req_headers (options r2)
    /\ (is_download c = false ->
        Forall (fun tc => writes_no_header (snd tc) = true) cs ->
        same_wire r1 r2).
Proof.
  intros Hf Hb Hport Hinv Hw Hp.
  destruct (client_stays_client P opt b client cs Hf Hb) as [Ho Hfresh].
  destruct (calls_compared P requestTimeout (Factory.config client) t0 t1 b _ c res r2
              Ho Hport Hinv Hw Hp) as (r1 & H1 & H2 & H3 & H4).
  exists r1. split; [exact H1|]. split; [exact H2|]. split; [exact H3|].
  intros Hdl Hcs. apply (H4 Hdl).
  rewrite <- Hfresh. by apply plain_calls_leave_headers.
Qed.

Lemma both_styles_send_the_same_request_witness :
  exists r1 r2,
    wire (Legacy.createDocument Reference.node 10000 "http://localhost:5984" "db" january "")
      = Some r1
    /\ wire (fst (Factory.createDocument Reference.node local_config 9 9 "db" january ""
                    (after_calls Reference.node local_config
                       [(1, 1, GetInfo); (5, 5, GetDocument "db" "doc" None)]
                       local_httpOptions))) = Some r2
    /\ same_wire r1 r2.
Proof.
  destruct (both_styles_send_the_same_request Reference.node 10000 9 9 local_options
              "http://localhost:5984" _
              [(1, 1, GetInfo); (5, 5, GetDocument "db" "doc" None)]
              (CreateDocument "db" january "") _ _
              local_client eq_refl eq_refl eq_refl eq_refl)
    as (r1 & H1 & _ & _ & Hsame).
  - intros p Hp. vm_compute in Hp. injection Hp as <-. reflexivity.
  - eexists r1, _. split; [exact H1|]. split; [reflexivity|].
    apply Hsame; [done|]. by repeat constructor.
Defined.

(** *** The reference platform reads the URLs of a plain base endpoint *)

Lemma list_of_append (a b : string) :
  list_ascii_of_string (a +:+ b) = (list_ascii_of_string a ++ list_ascii_of_string b)%list.
Proof. induction a as [|c a IH]; simpl; [done | by rewrite IH]. Qed.

Lemma list_of_text (l : list ascii) : list_ascii_of_string (Reference.text l) = l.
Proof. apply list_ascii_of_string_of_list_ascii. Qed.

Lemma break_at (p : ascii -> bool) (l : list ascii) (c : ascii) (r : list ascii) :
  forallb (fun x => negb (p x)) l = true -> p c = true ->
  Reference.break p (l ++ c :: r)%list = (l, c :: r).
Proof.
  intros Hl Hc. induction l as [|x l IH]; simpl.
  - by rewrite Hc.
  - simpl in Hl. apply andb_true_iff in Hl as [Hx Hl]. apply negb_true_iff in Hx.
    by rewrite Hx, IH.
Qed.

Lemma break_none (p : ascii -> bool) (l : list ascii) :
  forallb (fun x => negb (p x)) l = true -> Reference.break p l = (l, []).
Proof.
  intros Hl. induction l as [|x l IH]; simpl; [done|].
  simpl in Hl. apply andb_true_iff in Hl as [Hx Hl]. apply negb_true_iff in Hx.
  by rewrite Hx, IH.
Qed.

Lemma scheme_char_no_colon (l : list ascii) :
  forallb Reference.scheme_char l = true ->
  forallb (fun x => negb (Reference.is_char 58 x)) l = true.
Proof.
  intros H. apply forallb_forall. intros c Hc.
  rewrite forallb_forall in H. specialize (H c Hc).
  unfold Reference.scheme_char, Reference.is_char, is_digit in *.
  generalize dependent (nat_of_ascii c). intros n H.
  apply negb_true_iff, Nat.eqb_neq. intros ->. by vm_compute in H.
Qed.

Lemma escape_plain (l : list ascii) :
  forallb (fun c => negb (Reference.is_char 39 c)) l = true ->
  Reference.escape_apostrophe l = l.
Proof.
  induction l as [|c l IH]; simpl; [done|].
  intros H. apply andb_true_iff in H as [Hc Hl]. apply negb_true_iff in Hc.
  by rewrite Hc, IH.
Qed.

Lemma authority_with_port (l : list ascii) (a : option string) (name : string)
    (d : string) (left_over : list ascii) :
  Reference.authority l = (a, name, Some d, left_over) ->
  left_over = [] /\ forallb is_digit (list_ascii_of_string d) = true.
Proof.
  unfold Reference.authority.
  destruct (Reference.break (Reference.is_char 64) l) as [x [|y h]];
    destruct (Reference.break (Reference.is_char 58) _) as [n [|colon after]]; try done;
    destruct (forallb is_digit after) eqn:Hd; try done;
    destruct after as [|c0 after']; try done;
    intros [= _ _ <- <-]; (split; [done|]);
    change (forallb is_digit (list_ascii_of_string (Reference.text (c0 :: after'))) = true);
    by rewrite list_of_text.
Qed.

Lemma url_parse_plain (scheme host rest : list ascii) (s : string) :
  forallb Reference.scheme_char scheme = true ->
  scheme <> [] ->
  forallb (fun c => negb (Reference.path_start c)) host = true ->
  match rest with [] => True | c :: _ => Reference.path_start c = true end ->
  list_ascii_of_string s = (scheme ++ list_ascii_of_string "://" ++ host ++ rest)%list ->
  Reference.url_parse s = parsed scheme host rest.
Proof.
  intros Hscheme Hne Hauth Hrest Hs.
  assert (Hlen : (length scheme =? 0)%nat = false) by (by destruct scheme).
  unfold Reference.url_parse. rewrite Hs.
  change (list_ascii_of_string "://") with (":"%char :: "/"%char :: "/"%char :: []).
  cbn [app].
  rewrite (break_at (Reference.is_char 58) scheme ":"%char _
             (scheme_char_no_colon _ Hscheme) eq_refl).
  rewrite Hscheme, Hlen. cbn [negb andb].
  change (Reference.is_char 47 "/"%char) with true. cbn [andb].
  assert (Hbreak : Reference.break Reference.path_start (host ++ rest) = (host, rest)).
  { destruct rest as [|c rest]; [rewrite app_nil_r; by apply break_none|].
    by apply break_at. }
  rewrite Hbreak. reflexivity.
Qed.

Lemma kept_no_apostrophe (p : string) :
  kept p = true ->
  forallb (fun c => negb (Reference.is_char 39 c)) (list_ascii_of_string p) = true.
Proof.
  unfold kept. rewrite !forallb_forall. intros H c Hc.
  specialize (H c Hc). unfold kept_char in H. by apply andb_true_iff in H as [_ H].
Qed.

(** The reference parser reads a plain base endpoint that has a port,
    followed by a path of characters that [url.parse] leaves alone, as the
    base endpoint with that path; and the port it reports is made of
    digits. *)
Lemma reference_extends (scheme host : list ascii) (p : string) :
  forallb Reference.scheme_char scheme = true ->
  scheme <> [] ->
  forallb (fun c => negb (Reference.path_start c)) host = true ->
  url_port (Reference.url_parse (plain_base scheme host)) <> None ->
  decimal_port (url_port (Reference.url_parse (plain_base scheme host)))
  /\ (kept p = true -> extends Reference.node (plain_base scheme host) p).
Proof.
  intros Hscheme Hne Hauth Hport.
  unfold extends. cbn [urlParse Reference.node].
  assert (Hb : Reference.url_parse (plain_base scheme host) = parsed scheme host []).
  { apply url_parse_plain; try done.
    unfold plain_base. by rewrite !list_of_append, !list_of_text, app_nil_r. }
  assert (Hbp : Reference.url_parse (plain_base scheme host +:+ "/" +:+ p)
                = parsed scheme host ("/"%char :: list_ascii_of_string p)).
  { apply url_parse_plain; try done.
    unfold plain_base. rewrite !list_of_append, !list_of_text.
    by rewrite <- !app_assoc. }
  rewrite Hb in *. rewrite Hbp.
  unfold parsed in *.
  destruct (Reference.authority host) as [[[a name] prt] left_over] eqn:E.
  cbn [url_port url_protocol url_slashes url_auth url_host url_hostname] in *.
  destruct prt as [d|]; [|done].
  destruct (authority_with_port _ _ _ _ _ E) as [-> Hd].
  split; [exact Hd|]. intros Hp. apply kept_no_apostrophe in Hp. cbn [app].
  change (Reference.escape_apostrophe ("/"%char :: list_ascii_of_string p))
    with ("/"%char :: Reference.escape_apostrophe (list_ascii_of_string p)).
  rewrite (escape_plain _ Hp).
  change (Reference.is_char 47 "/"%char) with true. cbn iota.
  f_equal. f_equal. unfold Reference.text. cbn [string_of_list_ascii].
  by rewrite string_of_list_ascii_of_string.
Qed.

(** On the reference platform the condition on [url.parse] is one on the
    texts: for a client of a plain base endpoint, the two modules send the
    same request for every call whose path and query string are made of
    characters that [url.parse] leaves alone. *)
Lemma reference_styles_agree (requestTimeout t0 t1 : Z) (opt : Factory.Options)
    (scheme host : list ascii) (client : Factory.Client) (cs : list (Z * Z * Call))
    (c : Call) (res : CallResult) (r2 : Request) :
  forallb Reference.scheme_char scheme = true ->
  scheme <> [] ->
  forallb (fun c => negb (Reference.path_start c)) host = true ->
  Factory.factory Reference.node opt = Return client ->
  Factory.baseUrl opt = Some (plain_base scheme host) ->
  Legacy.invoke Reference.node requestTimeout (plain_base scheme host) c = Some res ->
  wire (fst (Factory.invoke Reference.node (Factory.config client) t0 t1 c
               (after_calls Reference.node (Factory.config client) cs
                  (Factory.httpOptions client)))) = Some r2 ->
  (forall p, path (options r2) = Some ("/" +:+ p) -> kept p = true) ->
  exists r1,
    wire res = Some r1
    /\ same_target r1 r2
    /\ req_headers (options r1) ⊆ req_headers (options r2)
    /\ (is_download c = false ->
        Forall (fun tc => writes_no_header (snd tc) = true) cs ->
        same_wire r1 r2).
Proof.
  intros Hscheme Hne Hhost Hf Hb Hinv Hw Hp.
  destruct (client_stays_client Reference.node opt _ client cs Hf Hb) as [Ho Hfresh].
  pose proof Ho as (_ & _ & Hint & _).
  assert (Hport : url_port (Reference.url_parse (plain_base scheme host)) <> None).
  { intros Hnone. cbn [urlParse Reference.node] in Hint. by rewrite Hnone in Hint. }
  destruct (calls_compared Reference.node requestTimeout (Factory.config client) t0 t1
              (plain_base scheme host) _ c res r2 Ho) as (r1 & H1 & H2 & H3 & H4);
    try done.
  - by apply (reference_extends scheme host "").
  - intros p Hpath. by apply (reference_extends scheme host p), Hp.
  - exists r1. split; [exact H1|]. split; [exact H2|]. split; [exact H3|].
    intros Hdl Hcs. apply (H4 Hdl).
    rewrite <- Hfresh. by apply plain_calls_leave_headers.
Qed.

(** A base endpoint with a path of its own: [url.parse] reads the URL of
    the free-function module with that path in front, the client asks for
    the path of the call alone. *)
Lemma base_with_a_path_differs :
  exists client r1 r2,
    Factory.factory Reference.node
      {| Factory.baseUrl := Some "http://localhost:5984/couch";
         Factory.opt_requestTimeout := None; Factory.opt_verifyCertificate := None |}
    = Return client
    /\ wire (Legacy.getDatabase Reference.node 10000 "http://localhost:5984/couch" "db")
       = Some r1
    /\ wire (fst (Factory.getDatabase Reference.node (Factory.config client) 0 0 "db"
                    (Factory.httpOptions client))) = Some r2
    /\ path (options r1) = Some "/couch/db"
    /\ path (options r2) = Some "/db".
Proof. eexists _, _, _. by repeat (split; [reflexivity|]). Qed.

(** An apostrophe in an id: [encodeURIComponent] leaves it, [url.parse]
    escapes it, so that only the free-function module sends it escaped. *)
Lemma apostrophe_differs :
  exists r1 r2,
    wire (Legacy.getDocument Reference.node 10000 "http://localhost:5984" "db" "o'neil" None)
    = Some r1
    /\ wire (fst (Factory.getDocument Reference.node local_config 0 0 "db" "o'neil" None
                    local_httpOptions)) = Some r2
    /\ path (options r1) = Some "/db/o%27neil"
    /\ path (options r2) = Some "/db/o'neil".
Proof. eexists _, _. by repeat (split; [reflexivity|]). Qed.

(** The payload [null]: the free-function module sends the call without a
    body, the factory module refuses it. *)
Lemma null_payload_differs :
  (exists r,
     wire (Legacy.createDocument Reference.node 10000 "http://localhost:5984" "db" JNull "")
     = Some r
     /\ written r = WriteNothing)
  /\ wire (fst (Factory.createDocument Reference.node local_config 0 0 "db" JNull ""
                  local_httpOptions)) = None.
Proof. split; [eexists; by split|]. reflexivity. Qed.

(** C4, as stated, fails: for the attachment download the free-function
    module sends no accept header, the factory module sends one. *)
Lemma download_headers_differ :
  ~ (forall (c : Call) (res : CallResult) (r1 r2 : Request),
       Legacy.invoke Reference.node 10000 "http://localhost:5984" c = Some res ->
       wire res = Some r1 ->
       wire (fst (Factory.invoke Reference.node local_config 0 0 c local_httpOptions)) = Some r2 ->
       req_headers (options r1) = req_headers (options r2)).
Proof.
  intros H.
  specialize (H (GetAttachment "db" "doc" "a.png" a_sink "") _ _ _ eq_refl eq_refl eq_refl).
  apply (f_equal (fun hs : gmap string JsValue => hs !! "accept")) in H.
  vm_compute in H. discriminate H.
Qed.

(** The shared options keep the headers of an earlier call: the second
    request of a client that first created a document still carries the
    content type and length of the first. *)
Lemma headers_stay_on_the_client :
  exists r,
    wire (fst (Factory.bind
                 (Factory.createDocument Reference.node local_config 0 0 "db" january "")
                 (fun _ => Factory.getInfo Reference.node local_config 5 5)
                 local_httpOptions)) = Some r
    /\ req_headers (options r) !! "content-type" = Some (JStr "application/json")
    /\ req_headers (options r) !! "content-length" = Some (JNum 29)
    /\ written r = WriteNothing.
Proof. eexists. split; [reflexivity|]. by vm_compute. Qed.

(** ** Every call and its one envelope *)

Section RequestMachine.
Context (step : Exchange -> Z * Event -> Exchange).
Hypothesis step_keeps : forall x ev, settled (promise x) = true -> promise (step x ev) = promise x.
Hypothesis step_data : forall x ev, carries_data (promise x) -> carries_data (promise (step x ev)).
Hypothesis step_ends : forall x ev,
  match snd ev with
  | Timeout | Error _ => settled (promise (step x ev)) = true
  | End =>
      (is_Some (res x) -> settled (promise (step x ev)) = true) /\ res (step x ev) = res x
  | Response _ _ => is_Some (res (step x ev))
  | _ => res (step x ev) = res x
  end.

Lemma machine_ends (t : Trace) (x : Exchange) :
  ends_exchange (bool_decide (is_Some (res x))) t = true ->
  settled (promise (fold_left step t x)) = true.
Proof.
  revert x. induction t as [|ev t IH]; intros x; simpl; [done|].
  pose proof (step_ends x ev) as Hev.
  destruct (snd ev) eqn:E; intros H.
  - apply IH. by rewrite bool_decide_eq_true_2.
  - apply IH. by rewrite Hev.
  - destruct Hev as [Hset Hres].
    destruct (bool_decide (is_Some (res x))) eqn:B; simpl in H.
    + apply bool_decide_eq_true in B.
      rewrite (fold_keeps promise step step_keeps); by apply Hset.
    + apply IH. by rewrite Hres, B.
  - by rewrite (fold_keeps promise step step_keeps).
  - by rewrite (fold_keeps promise step step_keeps).
  - apply IH. by rewrite Hev.
  - apply IH. by rewrite Hev.
  - apply IH. by rewrite Hev.
Qed.

Lemma machine_deferred (r : Request) :
  deferred (Sent r (fun t => promise (fold_left step t exchange0))).
Proof.
  split; [done|]. split; [apply (fold_settles_once promise step step_keeps)|].
  split.
  - intros t. by apply (fold_invariant promise step carries_data).
  - intros t. apply (machine_ends t exchange0).
Qed.

End RequestMachine.

Lemma carries_data_resolve (e : Envelope) (p : Settlement) :
  is_Some (data e) -> carries_data p -> carries_data (resolve e p).
Proof. by destruct p. Qed.

Lemma carries_data_reject (e : Envelope) (p : Settlement) :
  is_Some (data e) -> carries_data p -> carries_data (reject e p).
Proof. by destruct p. Qed.

Lemma legacy_on_end_data (P : Platform) (codes : gmap Z string) (code : Z)
    (hs : gmap string JsValue) (b : string) :
  is_Some (data (Legacy.on_end P codes code hs b)).
Proof. unfold Legacy.on_end. by destruct (JSON_parse P _). Qed.

Lemma factory_on_end_data (P : Platform) (t0 : Z) (codes : option (gmap Z string)) (code : Z)
    (hs : gmap string JsValue) (b : string) (now : Z) :
  is_Some (data (Factory.on_end P t0 codes code hs b now)).
Proof. unfold Factory.on_end. by destruct (JSON_parse P _). Qed.

Lemma legacy_request_step_data (P : Platform) (codes : gmap Z string) (x : Exchange)
    (ev : Z * Event) :
  carries_data (promise x) -> carries_data (promise (Legacy.request_step P codes x ev)).
Proof.
  intros Hx. unfold Legacy.request_step.
  destruct (snd ev); simpl; try done.
  - by destruct (res x).
  - destruct (res x) as [[code hs]|]; simpl; [|done].
    apply carries_data_resolve; [apply legacy_on_end_data | done].
  - by apply carries_data_reject.
  - by apply carries_data_reject.
Qed.

Lemma factory_request_step_data (P : Platform) (t0 : Z) (codes : option (gmap Z string))
    (x : Exchange) (ev : Z * Event) :
  carries_data (promise x) -> carries_data (promise (Factory.request_step P t0 codes x ev)).
Proof.
  intros Hx. unfold Factory.request_step.
  destruct (snd ev); simpl; try done.
  - by destruct (res x).
  - destruct (res x) as [[code hs]|]; simpl; [|done].
    destruct (_ <? 400);
      [apply carries_data_resolve | apply carries_data_reject];
      done || apply factory_on_end_data.
  - by apply carries_data_reject.
  - by apply carries_data_reject.
Qed.

Lemma legacy_request_step_ends (P : Platform) (codes : gmap Z string) (x : Exchange)
    (ev : Z * Event) :
  match snd ev with
  | Timeout | Error _ => settled (promise (Legacy.request_step P codes x ev)) = true
  | End =>
      (is_Some (res x) -> settled (promise (Legacy.request_step P codes x ev)) = true)
      /\ res (Legacy.request_step P codes x ev) = res x
  | Response _ _ => is_Some (res (Legacy.request_step P codes x ev))
  | _ => res (Legacy.request_step P codes x ev) = res x
  end.
Proof.
  unfold Legacy.request_step.
  destruct (snd ev); simpl; [by eexists | | | | | done | done | done].
  - by destruct (res x) eqn:E.
  - destruct (res x) as [[code hs]|] eqn:E; simpl.
    + split; [intros _; apply settled_resolve | done].
    + split; [by intros [? ?] | done].
  - apply settled_reject.
  - apply settled_reject.
Qed.

Lemma factory_request_step_ends (P : Platform) (t0 : Z) (codes : option (gmap Z string))
    (x : Exchange) (ev : Z * Event) :
  match snd ev with
  | Timeout | Error _ => settled (promise (Factory.request_step P t0 codes x ev)) = true
  | End =>
      (is_Some (res x) -> settled (promise (Factory.request_step P t0 codes x ev)) = true)
      /\ res (Factory.request_step P t0 codes x ev) = res x
  | Response _ _ => is_Some (res (Factory.request_step P t0 codes x ev))
  | _ => res (Factory.request_step P t0 codes x ev) = res x
  end.
Proof.
  unfold Factory.request_step.
  destruct (snd ev); simpl; [by eexists | | | | | done | done | done].
  - by destruct (res x) eqn:E.
  - destruct (res x) as [[code hs]|] eqn:E; simpl.
    + split; [|done]. intros _.
      destruct (_ <? 400); [apply settled_resolve | apply settled_reject].
    + split; [by intros [? ?] | done].
  - apply settled_reject.
  - apply settled_reject.
Qed.

Lemma byteLength_of_throw (P : Platform) (body : option string) (e : JsValue) :
  byteLength_of P body = Throw e -> body = None /\ byteLength_undefined P = Throw e.
Proof. by destruct body. Qed.

Lemma legacy_payload_throw (P : Platform) (postData postContentType : JsValue)
    (hs hs' : gmap string JsValue) (e : JsValue) :
  Legacy.payload P postData postContentType hs = (hs', Throw e) ->
  payload_throws P postData e.
Proof.
  unfold Legacy.payload, payload_throws, payload_kind.
  destruct (isBuffer postData); [done|].
  destruct (is_readable postData); [done|].
  destruct (is_plain_object postData).
  - destruct (byteLength_of P _) eqn:E; [done|].
    intros [= _ <-]. apply byteLength_of_throw in E as [Hnone Hthrow].
    split; [done|]. split; [|done]. intros s Hs. by rewrite Hs in Hnone.
  - destruct (is_string postData); [done|]. by destruct (truthy postData).
Qed.

Lemma factory_payload_throw (P : Platform) (postData postContentType : JsValue)
    (hs hs' : gmap string JsValue) (e : JsValue) :
  Factory.payload P postData postContentType hs = (hs', Throw e) ->
  payload_throws P postData e.
Proof.
  unfold Factory.payload, payload_throws, payload_kind.
  destruct (isBuffer postData); [done|].
  destruct (is_readable postData); [done|].
  destruct (is_plain_object postData).
  - destruct (byteLength_of P _) eqn:E; [done|].
    intros [= _ <-]. apply byteLength_of_throw in E as [Hnone Hthrow].
    split; [done|]. split; [|done]. intros s Hs. by rewrite Hs in Hnone.
  - destruct (is_string postData); [done|]. by destruct (truthy postData || is_null postData).
Qed.

(** [request] of the free-function module throws what the serialiser
    threw on its payload, or returns a promise as [deferred] describes. *)
Lemma legacy_request_deferred (P : Platform) (requestTimeout : Z) (param : Legacy.Param) :
  (exists e, Legacy.request P requestTimeout param = Threw e
             /\ payload_throws P (Legacy.p_postData param) e)
  \/ deferred (Legacy.request P requestTimeout param).
Proof.
  unfold Legacy.request.
  destruct (negb _); [right; split; [done | by eexists]|].
  destruct (Legacy.payload _ _ _ _) as [hs [pl|e]] eqn:Hpl.
  - right. destruct (truthy (error pl)); [split; [done | by eexists]|].
    apply machine_deferred.
    + apply legacy_request_step_keeps.
    + apply legacy_request_step_data.
    + apply legacy_request_step_ends.
  - left. exists e. split; [done|]. by apply legacy_payload_throw in Hpl.
Qed.

Lemma factory_request_deferred (P : Platform) (config : Factory.Config) (t0 t1 : Z)
    (param : Factory.Param) (o : HttpOptions) :
  (exists e, fst (Factory.request P config t0 t1 param o) = Threw e
             /\ payload_throws P (Factory.p_postData param) e)
  \/ deferred (fst (Factory.request P config t0 t1 param o)).
Proof.
  unfold Factory.request.
  destruct (Factory.payload _ _ _ _) as [hs [pl|e]] eqn:Hpl.
  - right. destruct (truthy (error pl)); [split; [done | by eexists]|].
    apply machine_deferred.
    + apply factory_request_step_keeps.
    + apply factory_request_step_data.
    + apply factory_request_step_ends.
  - left. exists e. split; [done|]. by apply factory_payload_throw in Hpl.
Qed.

Lemma assoc_obj_set {A : Type} (k k' : string) (v : A) (ps : list (string * A)) :
  assoc k (obj_set k' v ps) = if String.eqb k k' then Some v else assoc k ps.
Proof.
  induction ps as [|[k0 v0] ps IH]; simpl; [done|].
  destruct (String.eqb_spec k' k0) as [->|Hne]; simpl.
  - by destruct (String.eqb k k0).
  - rewrite IH. destruct (String.eqb_spec k k0) as [->|Hne']; [|done].
    destruct (String.eqb_spec k0 k') as [->|]; done.
Qed.

Lemma assoc_obj_assign {A : Type} (k : string) (v : A) (source target : list (string * A)) :
  assoc k (obj_assign target source) = Some v -> (k, v) ∈ source \/ assoc k target = Some v.
Proof.
  unfold obj_assign. revert target.
  induction source as [|[k' v'] source IH]; intros target; simpl; [by right|].
  intros H. destruct (IH _ H) as [Hin | Hset].
  - left. by apply elem_of_cons; right.
  - rewrite assoc_obj_set in Hset.
    destruct (String.eqb_spec k k') as [->|Hne]; [|by right].
    injection Hset as ->. left. apply list_elem_of_here.
Qed.

Lemma stringify_keys_throw (keys : list string) (obj : list (string * JsValue)) (e : JsValue) :
  NoDup keys ->
  Legacy.stringify_keys keys obj = Throw e ->
  exists key v, key ∈ keys /\ assoc key obj = Some v /\ JSON_stringify v = Throw e.
Proof.
  intros Hnd. revert obj.
  induction Hnd as [|key keys Hfresh Hnd IH]; intros obj; simpl; [done|].
  assert (Hlater : forall obj', (forall k, k ∈ keys -> assoc k obj' = assoc k obj) ->
            Legacy.stringify_keys keys obj' = Throw e ->
            exists key' v, key' ∈ key :: keys /\ assoc key' obj = Some v
                           /\ JSON_stringify v = Throw e).
  { intros obj' Hsame H. destruct (IH _ H) as (key' & v & Hin & Hv & He).
    exists key', v. split; [by apply elem_of_cons; right|]. by rewrite <- Hsame. }
  destruct (assoc key obj) as [v|] eqn:Hv; [|by apply Hlater].
  destruct (JSON_stringify v) as [o|e'] eqn:E; simpl.
  - apply Hlater. intros k Hk. rewrite assoc_obj_set.
    destruct (String.eqb_spec k key) as [->|]; done.
  - intros [= <-]. exists key, v. split; [apply list_elem_of_here | done].
Qed.

Lemma createQueryString_throw (queryObj : option (list (string * JsValue))) (e : JsValue) :
  Legacy.createQueryString queryObj = Throw e -> query_throws queryObj e.
Proof.
  unfold Legacy.createQueryString.
  destruct (Legacy.stringify_keys _ _) eqn:E; [done|].
  intros [= <-]. apply stringify_keys_throw in E as (key & v & Hkey & Hv & He).
  - exists key, v. split; [|split; [|done]].
    + unfold Legacy.QUERY_KEYS_JSON in Hkey.
      repeat (apply elem_of_cons in Hkey as [-> | Hkey]; [done|]).
      by apply elem_of_nil in Hkey.
    + by apply assoc_obj_assign in Hv as [Hin | Hv].
  - apply (bool_decide_unpack _). by vm_compute.
Qed.

Section DownloadMachine.
Context (step : Settlement -> Z * Event -> Settlement) (stream_error : JsValue -> Envelope).
Hypothesis step_keeps : forall p ev, settled p = true -> step p ev = p.
Hypothesis step_shape : forall ev,
  match snd ev with
  | Response code _ => exists e, step Pending ev = if code <? 400 then Fulfilled e else Rejected e
  | Timeout | Error _ => exists e, step Pending ev = Rejected e
  | _ => step Pending ev = Pending
  end.

Let k (t : Trace) : Settlement := fold_left step t Pending.
Let step2 := download_step step stream_error.

Lemma executor_download_fold (rest : Trace) (d : Download) :
  executor (fold_left step2 rest d) = fold_left step rest (executor d).
Proof. revert d. induction rest as [|ev rest IH]; intros d; simpl; [done | by rewrite IH]. Qed.

Lemma sink_promise_fold (seen rest : Trace) (l : bool) (final : Settlement) :
  sink_promise stream_error k seen rest l final
  = awaited (fold_left step2 rest {| executor := k seen; listening := l; awaited := final |}).
Proof.
  revert seen l final. induction rest as [|ev rest IH]; intros seen l final; simpl; [done|].
  rewrite IH. do 2 f_equal. unfold step2, download_step. simpl. f_equal.
  unfold k. by rewrite fold_left_app.
Qed.

Lemma await_sink_fold (t : Trace) :
  await_sink stream_error k t = download_promise (fold_left step2 t download0).
Proof.
  unfold await_sink, download_promise.
  rewrite executor_download_fold, sink_promise_fold. reflexivity.
Qed.

Lemma download_step_keeps (d : Download) (ev : Z * Event) :
  settled (download_promise d) = true ->
  download_promise (step2 d ev) = download_promise d.
Proof.
  destruct d as [p l f]. unfold download_promise, step2, download_step. simpl.
  destruct p; simpl; try done; intros H.
  - rewrite step_keeps; [|done].
    destruct l; [|done].
    destruct (snd ev); try done; [by apply resolve_settled | by apply reject_settled].
  - by rewrite step_keeps.
  - by rewrite step_keeps.
Qed.

Lemma step_is_envelope (p : Settlement) (ev : Z * Event) :
  is_envelope p -> is_envelope (step p ev).
Proof.
  destruct p; try done; intros _; [|by rewrite step_keeps..].
  pose proof (step_shape ev) as H.
  destruct (snd ev); try (by rewrite H); try (by destruct H as [e ->]).
  destruct H as [e ->]. by destruct (_ <? 400).
Qed.

Lemma download_is_envelope (t : Trace) (d : Download) :
  is_envelope (executor d) -> is_envelope (awaited d) ->
  is_envelope (download_promise (fold_left step2 t d)).
Proof.
  revert d. induction t as [|ev t IH]; intros [p l f] Hp Hf; simpl in *.
  - unfold download_promise. simpl. by destruct p.
  - apply IH; simpl.
    + by apply step_is_envelope.
    + destruct p; try done. destruct l; [|done].
      destruct (snd ev); try done; by destruct f.
Qed.

Lemma download_ends (t : Trace) (d : Download) (phase : Phase) :
  in_phase phase d ->
  ends_download phase t = true ->
  settled (download_promise (fold_left step2 t d)) = true.
Proof.
  revert d phase. induction t as [|ev t IH]; intros [p l f] phase Hst; simpl; [done|].
  assert (Hdone : forall d', settled (download_promise d') = true ->
                  settled (download_promise (fold_left step2 t d')) = true).
  { intros d' H. by rewrite (fold_keeps download_promise step2 download_step_keeps). }
  destruct phase; simpl in Hst.
  - subst p. pose proof (step_shape ev) as Hs. intros H.
    destruct (snd ev) eqn:E.
    + destruct Hs as [e Hs].
      destruct (statusCode <? 400) eqn:Hc.
      * apply (IH _ Answered); [|done]. exists e.
        unfold step2, download_step. simpl. by rewrite Hs.
      * apply Hdone. unfold step2, download_promise, download_step. simpl. by rewrite Hs.
    + apply (IH _ Waiting); [|done]. unfold step2, download_step. simpl. by rewrite Hs.
    + apply (IH _ Waiting); [|done]. unfold step2, download_step. simpl. by rewrite Hs.
    + destruct Hs as [e Hs].
      apply Hdone. unfold step2, download_promise, download_step. simpl. by rewrite Hs.
    + destruct Hs as [e Hs].
      apply Hdone. unfold step2, download_promise, download_step. simpl. by rewrite Hs.
    + apply (IH _ Waiting); [|done]. unfold step2, download_step. simpl. by rewrite Hs.
    + apply (IH _ Waiting); [|done]. unfold step2, download_step. simpl. by rewrite Hs.
    + apply (IH _ Waiting); [|done]. unfold step2, download_step. simpl. by rewrite Hs.
  - destruct Hst as [e ->]. intros H.
    assert (Hk : step (Fulfilled e) ev = Fulfilled e) by by apply step_keeps.
    destruct (snd ev) eqn:E.
    1-7: apply (IH _ Answered); [|done]; exists e;
         unfold step2, download_step; simpl; by rewrite Hk.
    apply (IH _ Listening); [|done].
    unfold step2, download_step. simpl. rewrite Hk, E. split; [by exists e | done].
  - destruct Hst as [[e ->] Hl]. simpl in Hl. subst l. intros H.
    assert (Hk : step (Fulfilled e) ev = Fulfilled e) by by apply step_keeps.
    destruct (snd ev) eqn:E.
    1-5, 8: apply (IH _ Listening); [|done];
         unfold step2, download_step; simpl; rewrite Hk, ?E; split; [by exists e | done].
    + apply Hdone. unfold step2, download_promise, download_step. simpl.
      rewrite Hk, E. apply settled_resolve.
    + apply Hdone. unfold step2, download_promise, download_step. simpl.
      rewrite Hk, E. apply settled_reject.
Qed.

Lemma download_deferred (r : Request) :
  deferred_download (Sent r (await_sink stream_error k)).
Proof.
  split; [done|]. split; [|split].
  - intros t t' H. rewrite !await_sink_fold in *.
    by apply (fold_settles_once download_promise step2 download_step_keeps).
  - intros t. rewrite await_sink_fold. by apply download_is_envelope.
  - intros t H. rewrite await_sink_fold. by apply (download_ends t _ Waiting).
Qed.

End DownloadMachine.

Lemma legacy_requestStream_step_shape (codes : gmap Z string) (ev : Z * Event) :
  match snd ev with
  | Response code _ =>
      exists e, Legacy.requestStream_step codes Pending ev
                = if code <? 400 then Fulfilled e else Rejected e
  | Timeout | Error _ => exists e, Legacy.requestStream_step codes Pending ev = Rejected e
  | _ => Legacy.requestStream_step codes Pending ev = Pending
  end.
Proof.
  unfold Legacy.requestStream_step.
  destruct (snd ev); simpl; try done; by eexists.
Qed.

Lemma factory_requestStream_step_shape (P : Platform) (t0 : Z) (codes : option (gmap Z string))
    (ev : Z * Event) :
  match snd ev with
  | Response code _ =>
      exists e, Factory.requestStream_step P t0 codes Pending ev
                = if code <? 400 then Fulfilled e else Rejected e
  | Timeout | Error _ => exists e, Factory.requestStream_step P t0 codes Pending ev = Rejected e
  | _ => Factory.requestStream_step P t0 codes Pending ev = Pending
  end.
Proof.
  unfold Factory.requestStream_step.
  destruct (snd ev); simpl; try done; by eexists.
Qed.

Lemma legacy_download_deferred (P : Platform) (requestTimeout : Z)
    (baseUrl dbName docId attName : string) (sink : JsValue) (rev : string) :
  is_writable sink = true ->
  deferred_download (Legacy.getAttachment P requestTimeout baseUrl dbName docId attName sink rev).
Proof.
  intros Hw. unfold Legacy.getAttachment, Legacy.requestStream.
  cbv zeta. cbn [Legacy.p_stream]. rewrite Hw. cbn [negb].
  destruct (negb (Legacy.isValidUrl _ _)); cbn [then_await_sink].
  - split; [done | by eexists].
  - lazymatch goal with
    | |- deferred_download (Sent ?r _) =>
        apply (download_deferred (Legacy.requestStream_step _) Legacy.stream_error
                 (legacy_requestStream_step_keeps _) (legacy_requestStream_step_shape _) r)
    end.
Qed.

Lemma factory_download_deferred (P : Platform) (config : Factory.Config) (t0 : Z)
    (dbName docId attName : string) (sink : JsValue) (rev : string) (o : HttpOptions) :
  is_writable sink = true ->
  deferred_download
    (fst (Factory.getAttachment P config t0 dbName docId attName sink rev o)).
Proof.
  intros Hw. unfold Factory.getAttachment, Factory.requestStream.
  cbv zeta. cbn [Factory.p_stream]. rewrite Hw. cbn [negb fst then_await_sink].
  lazymatch goal with
  | |- deferred_download (Sent ?r _) =>
      apply (download_deferred (Factory.requestStream_step P t0 _) Factory.stream_error
               (factory_requestStream_step_keeps P t0 _)
               (factory_requestStream_step_shape P t0 _) r)
  end.
Qed.

Lemma threw_by_query (P : Platform) (c : Call) (e : JsValue) :
  Legacy.createQueryString (query_of c) = Throw e ->
  (exists e', Threw e = Threw e' /\ serialising_threw P c e') \/ deferred (Threw e).
Proof.
  intros H. left. exists e. split; [done|]. left. by apply createQueryString_throw in H.
Qed.

Lemma threw_by_payload (P : Platform) (c : Call) (res : CallResult) (postData : JsValue) :
  postData = payload_of c ->
  (exists e, res = Threw e /\ payload_throws P postData e) \/ deferred res ->
  (exists e, res = Threw e /\ serialising_threw P c e) \/ deferred res.
Proof.
  intros -> [(e & He & Hpl) | Hd]; [left | by right].
  exists e. split; [done | by right].
Qed.




(** A sink that closes in the turn of the response, before the promise
    reactions run, is not heard: the download does not end, and its promise
    stays pending through what is delivered later.  C1 as amended says
    nothing of this course. *)
Lemma early_close_is_not_heard :
  exists r k,
    Legacy.getAttachment Reference.node 10000 "http://localhost:5984" "db" "doc" "a.png"
      a_sink "" = Sent r k
    /\ ends_download Waiting
         [(1, Response 200 ∅); (1, SinkClose); (1, Jobs); (2, Data "x"); (3, End); (3, Jobs)]
       = false
    /\ k [(1, Response 200 ∅); (1, SinkClose); (1, Jobs); (2, Data "x"); (3, End); (3, Jobs)]
       = Pending.
Proof. eexists _, _. split; [reflexivity|]. by split. Qed.

(** The copy of a document without one of its ids returns no promise. *)
Lemma copy_without_id_returns_nothing (P : Platform) (config : Factory.Config) (t0 t1 : Z)
    (dbName newDocId : string) (o : HttpOptions) :
  Factory.copyDocument P config t0 t1 dbName "" newDocId o = (NoPromise, o).
Proof. reflexivity. Qed.

(** A download into a value that is no writable sink rejects with the
    assertion's error, which is no envelope. *)
Lemma download_without_sink_fails (P : Platform) (config : Factory.Config) (t0 : Z)
    (dbName docId attName rev : string) (o : HttpOptions) :
  Factory.getAttachment P config t0 dbName docId attName JUndefined rev o
  = (Settled (Failed AssertionError), o).
Proof. reflexivity. Qed.

(** * Further properties of the two modules *)

(** ** The settlements of a call, listed *)

Section TraceFolds.
Context {S : Type} (proj : S -> Settlement) (step : S -> Z * Event -> S).
Context (Q : Trace -> Settlement -> Prop).
Hypothesis step_Q : forall seen x ev, Q seen (proj x) -> Q (seen ++ [ev])%list (proj (step x ev)).

Lemma fold_trace_invariant (t seen : Trace) (x : S) :
  Q seen (proj x) -> Q (seen ++ t)%list (proj (fold_left step t x)).
Proof.
  revert seen x. induction t as [|ev t IH]; intros seen x Hx; simpl.
  - by rewrite app_nil_r.
  - rewrite (cons_middle ev seen t), app_assoc. by apply IH, step_Q.
Qed.

End TraceFolds.

Lemma factory_settlement_later (P : Platform) (download : bool) (t0 t1 : Z) (t : Trace)
    (ev : Z * Event) (s : Settlement) :
  factory_settlement P download t0 t1 t s -> factory_settlement P download t0 t1 (t ++ [ev])%list s.
Proof.
  intros H. destruct H; econstructor; try done; apply elem_of_app; by left.
Qed.

Lemma factory_settlement_resolve (P : Platform) (download : bool) (t0 t1 : Z) (t : Trace)
    (e : Envelope) (p : Settlement) :
  factory_settlement P download t0 t1 t p -> factory_settlement P download t0 t1 t (Fulfilled e) ->
  factory_settlement P download t0 t1 t (resolve e p).
Proof. by destruct p. Qed.

Lemma factory_settlement_reject (P : Platform) (download : bool) (t0 t1 : Z) (t : Trace)
    (e : Envelope) (p : Settlement) :
  factory_settlement P download t0 t1 t p -> factory_settlement P download t0 t1 t (Rejected e) ->
  factory_settlement P download t0 t1 t (reject e p).
Proof. by destruct p. Qed.

Lemma last_event (t : Trace) (ev : Z * Event) (now : Z) (e : Event) :
  ev = (now, e) -> (now, e) ∈ (t ++ [ev])%list.
Proof. intros ->. apply elem_of_app. right. apply list_elem_of_here. Qed.

Lemma factory_request_step_settlement (P : Platform) (t0 t1 : Z)
    (codes : option (gmap Z string)) (seen : Trace) (x : Exchange) (ev : Z * Event) :
  factory_settlement P false t0 t1 seen (promise x) ->
  factory_settlement P false t0 t1 (seen ++ [ev])%list
    (promise (Factory.request_step P t0 codes x ev)).
Proof.
  intros Hx. apply (factory_settlement_later _ _ _ _ _ ev) in Hx.
  unfold Factory.request_step. destruct ev as [now e]. simpl.
  destruct e; simpl; try done.
  - by destruct (res x).
  - destruct (res x) as [[code hs]|]; simpl; [|done].
    pose proof (fs_end P false t0 t1 (seen ++ [(now, End)])%list codes code hs (buffer x) now
                  eq_refl (last_event _ _ _ _ eq_refl)) as He.
    destruct (_ <? 400);
      [by apply factory_settlement_resolve | by apply factory_settlement_reject].
  - apply factory_settlement_reject; [done|]. apply fs_timeout. by eapply last_event.
  - apply factory_settlement_reject; [done|]. apply fs_error. by eapply last_event.
Qed.

Lemma factory_requestStream_step_settlement (P : Platform) (t0 t1 : Z)
    (codes : option (gmap Z string)) (seen : Trace) (p : Settlement) (ev : Z * Event) :
  factory_settlement P true t0 t1 seen p ->
  factory_settlement P true t0 t1 (seen ++ [ev])%list
    (Factory.requestStream_step P t0 codes p ev).
Proof.
  intros Hp. apply (factory_settlement_later _ _ _ _ _ ev) in Hp.
  unfold Factory.requestStream_step. destruct ev as [now e]. simpl.
  destruct e; simpl; try done.
  - pose proof (fs_response P true t0 t1 (seen ++ [(now, Response statusCode hs)])%list codes
                  statusCode hs now eq_refl (last_event _ _ _ _ eq_refl)) as He.
    unfold response_envelope in He.
    destruct (_ <? 400);
      [by apply factory_settlement_resolve | by apply factory_settlement_reject].
  - apply factory_settlement_reject; [done|]. apply fs_timeout. by eapply last_event.
  - apply factory_settlement_reject; [done|]. apply fs_error. by eapply last_event.
Qed.

Lemma factory_download_step_settlement (P : Platform) (t0 t1 : Z)
    (codes : option (gmap Z string)) (seen : Trace) (d : Download) (ev : Z * Event) :
  factory_settlement P true t0 t1 seen (executor d)
  /\ factory_settlement P true t0 t1 seen (awaited d) ->
  factory_settlement P true t0 t1 (seen ++ [ev])%list
    (executor (download_step (Factory.requestStream_step P t0 codes) Factory.stream_error d ev))
  /\ factory_settlement P true t0 t1 (seen ++ [ev])%list
       (awaited (download_step (Factory.requestStream_step P t0 codes) Factory.stream_error
                   d ev)).
Proof.
  intros [H1 H2]. split; simpl.
  - by apply factory_requestStream_step_settlement.
  - pose proof (factory_settlement_later _ _ _ _ _ ev _ H1) as H1'.
    apply (factory_settlement_later _ _ _ _ _ ev) in H2.
    destruct (executor d) as [|response| |]; try done.
    destruct (listening d); [|done].
    destruct ev as [now e]. destruct e; simpl; try done.
    + by apply factory_settlement_resolve.
    + apply factory_settlement_reject; [done|]. eapply fs_sink; [done | by eapply last_event].
Qed.

(** Every settlement of a call of the factory module is in the list. *)
Lemma factory_request_settlement (P : Platform) (config : Factory.Config) (t0 t1 : Z)
    (param : Factory.Param) (o : HttpOptions) (t : Trace) (s : Settlement) :
  settlement (fst (Factory.request P config t0 t1 param o)) t = Some s ->
  factory_settlement P false t0 t1 t s.
Proof.
  unfold Factory.request.
  destruct (Factory.payload _ _ _ _) as [hs [pl|e]]; [|done].
  destruct (truthy (error pl)) eqn:Herr; simpl.
  - intros [= <-]. by apply fs_refused.
  - intros [= <-].
    apply (fold_trace_invariant promise (Factory.request_step P t0 _)
             (factory_settlement P false t0 t1)
             (factory_request_step_settlement P t0 t1 _) t [] exchange0).
    apply fs_pending.
Qed.

Lemma factory_download_settlement (P : Platform) (config : Factory.Config) (t0 t1 : Z)
    (param : Factory.Param) (o : HttpOptions) (t : Trace) (s : Settlement) :
  settlement (then_await_sink Factory.stream_error
                (fst (Factory.requestStream P config t0 param o))) t = Some s ->
  factory_settlement P true t0 t1 t s.
Proof.
  unfold Factory.requestStream.
  destruct (negb _); simpl.
  - intros [= <-]. by apply fs_assert.
  - intros [= <-]. rewrite await_sink_fold.
    assert (Hboth : forall (t seen : Trace) (d : Download),
              factory_settlement P true t0 t1 seen (executor d)
              /\ factory_settlement P true t0 t1 seen (awaited d) ->
              let d' := fold_left (download_step (Factory.requestStream_step P t0
                                     (Factory.p_statusCodes param)) Factory.stream_error) t d in
              factory_settlement P true t0 t1 (seen ++ t)%list (executor d')
              /\ factory_settlement P true t0 t1 (seen ++ t)%list (awaited d')).
    { clear. intros t. induction t as [|ev t IH]; intros seen d Hd; simpl.
      - by rewrite app_nil_r.
      - rewrite (cons_middle ev seen t), app_assoc.
        by apply IH, factory_download_step_settlement. }
    destruct (Hboth t [] download0) as [H1 H2]; [split; apply fs_pending|].
    simpl in H1, H2. unfold download_promise.
    by destruct (executor _).
Qed.

Lemma legacy_settlement_resolve (P : Platform) (download : bool) (e : Envelope)
    (p : Settlement) :
  legacy_settlement P download p -> legacy_settlement P download (Fulfilled e) ->
  legacy_settlement P download (resolve e p).
Proof. by destruct p. Qed.

Lemma legacy_settlement_reject (P : Platform) (download : bool) (e : Envelope)
    (p : Settlement) :
  legacy_settlement P download p -> legacy_settlement P download (Rejected e) ->
  legacy_settlement P download (reject e p).
Proof. by destruct p. Qed.

Lemma legacy_request_step_settlement (P : Platform) (codes : gmap Z string) (x : Exchange)
    (ev : Z * Event) :
  legacy_settlement P false (promise x) ->
  legacy_settlement P false (promise (Legacy.request_step P codes x ev)).
Proof.
  intros Hx. unfold Legacy.request_step.
  destruct (snd ev); simpl; try done.
  - by destruct (res x).
  - destruct (res x) as [[code hs]|]; simpl; [|done].
    apply legacy_settlement_resolve; [done | by apply ls_end].
  - apply legacy_settlement_reject; [done | apply ls_timeout].
  - apply legacy_settlement_reject; [done | apply ls_error].
Qed.

Lemma legacy_requestStream_step_settlement (P : Platform) (codes : gmap Z string)
    (p : Settlement) (ev : Z * Event) :
  legacy_settlement P true p -> legacy_settlement P true (Legacy.requestStream_step codes p ev).
Proof.
  intros Hp. unfold Legacy.requestStream_step.
  destruct (snd ev); simpl; try done.
  - pose proof (ls_response P true codes statusCode hs eq_refl) as He.
    unfold response_envelope in He.
    destruct (_ <? 400);
      [by apply legacy_settlement_resolve | by apply legacy_settlement_reject].
  - apply legacy_settlement_reject; [done | apply ls_timeout].
  - apply legacy_settlement_reject; [done | apply ls_error].
Qed.

(** Every settlement of a call of the free-function module is in the list. *)
Lemma legacy_request_settlement (P : Platform) (requestTimeout : Z) (param : Legacy.Param)
    (t : Trace) (s : Settlement) :
  settlement (Legacy.request P requestTimeout param) t = Some s -> legacy_settlement P false s.
Proof.
  unfold Legacy.request.
  destruct (negb _); [intros [= <-]; apply ls_bad_request|].
  destruct (Legacy.payload _ _ _ _) as [hs [pl|e]]; [|done].
  destruct (truthy (error pl)) eqn:Herr; simpl.
  - intros [= <-]. by apply ls_refused.
  - intros [= <-].
    apply (fold_invariant promise (Legacy.request_step P _) (legacy_settlement P false)).
    + apply legacy_request_step_settlement.
    + apply ls_pending.
Qed.

Lemma legacy_download_settlement (P : Platform) (requestTimeout : Z) (param : Legacy.Param)
    (t : Trace) (s : Settlement) :
  settlement (then_await_sink Legacy.stream_error (Legacy.requestStream P requestTimeout param)) t
    = Some s ->
  legacy_settlement P true s.
Proof.
  unfold Legacy.requestStream.
  destruct (negb (is_writable _)); simpl; [intros [= <-]; by apply ls_assert|].
  destruct (negb (Legacy.isValidUrl _ _)); simpl; [intros [= <-]; apply ls_bad_request|].
  intros [= <-]. rewrite await_sink_fold.
  assert (Hboth : forall (t : Trace) (d : Download),
            legacy_settlement P true (executor d) /\ legacy_settlement P true (awaited d) ->
            let d' := fold_left (download_step (Legacy.requestStream_step
                                   (default ∅ (Legacy.p_statusCodes param)))
                                   Legacy.stream_error) t d in
            legacy_settlement P true (executor d') /\ legacy_settlement P true (awaited d')).
  { clear. intros t. induction t as [|ev t IH]; intros d [H1 H2]; simpl; [done|].
    apply IH. split; simpl.
    - by apply legacy_requestStream_step_settlement.
    - destruct (executor d) as [|response| |]; try done.
      destruct (listening d); [|done].
      destruct (snd ev); try done.
      + by apply legacy_settlement_resolve.
      + apply legacy_settlement_reject; [done | by apply ls_sink]. }
  destruct (Hboth t download0) as [H1 H2]; [split; apply ls_pending|].
  simpl in H1, H2. unfold download_promise.
  by destruct (executor _).
Qed.

Lemma legacy_call_settlement (P : Platform) (requestTimeout : Z) (b : string) (c : Call)
    (res : CallResult) (t : Trace) (s : Settlement) :
  Legacy.invoke P requestTimeout b c = Some res ->
  settlement res t = Some s ->
  legacy_settlement P (is_download c) s.
Proof.
  intros Hinv.
  destruct c; try discriminate Hinv; cbn [Legacy.invoke] in Hinv; injection Hinv as <-;
    unfold_api; cbv zeta; cbn [is_download];
    try (destruct (Legacy.createQueryString queryObj) as [queryStr|e]; [|done]);
    try (destruct (truthy (JStr docId)));
    first [apply legacy_request_settlement | apply legacy_download_settlement].
Qed.

Lemma factory_call_settlement (P : Platform) (config : Factory.Config) (t0 t1 : Z) (c : Call)
    (o : HttpOptions) (t : Trace) (s : Settlement) :
  settlement (fst (Factory.invoke P config t0 t1 c o)) t = Some s ->
  factory_settlement P (is_download c) t0 t1 t s.
Proof.
  destruct c; cbn [Factory.invoke is_download]; unfold_api; cbv zeta;
    try (destruct (Factory.createQueryString queryObj) as [queryStr|e]; [|done]);
    try (destruct (truthy (JStr docId) && truthy (JStr newDocId)); [|done]);
    try (destruct (truthy (JStr docId)));
    try apply factory_request_settlement.
  all: destruct (Factory.requestStream _ _ _ _ _) as [res o'] eqn:E;
    change res with (fst (res, o')); rewrite <- E;
    apply (factory_download_settlement P config t0 t1).
Qed.

(** ** What a settlement tells *)

Lemma entry_or_not_empty (table : gmap Z string) (code : Z) (otherwise : string) :
  otherwise <> "" -> entry_or table code otherwise <> "".
Proof.
  intros Ho. unfold entry_or.
  destruct (table !! code) as [s|]; [|done].
  by destruct (String.eqb_spec s "").
Qed.

Lemma truthy_text (s : string) : s <> "" -> truthy (JStr s) = true.
Proof. intros Hs. simpl. by destruct (String.eqb_spec s ""). Qed.

Lemma truthy_js_or (a b : JsValue) : truthy b = true -> truthy (js_or a b) = true.
Proof. intros Hb. unfold js_or. by destruct (truthy a) eqn:Ha. Qed.

Lemma legacy_status_message_not_empty (codes : gmap Z string) (code : Z) :
  Legacy.status_message codes code <> "".
Proof. unfold Legacy.status_message. by do 2 apply entry_or_not_empty. Qed.

Lemma factory_statusCode_not_empty (P : Platform) (codes : option (gmap Z string)) (code : Z) :
  Factory.statusCode P codes code <> "".
Proof. unfold Factory.statusCode. by apply entry_or_not_empty. Qed.

(** X1.  In the factory module the channel tells the status, for every call
    and whatever the transport delivers: a fulfilled promise holds an envelope
    with a status below 400, a rejected one an envelope with a status of 400
    or more.  The download of the free-function module keeps the same rule. *)
Theorem channel_tells_the_status (P : Platform) (requestTimeout : Z) (config : Factory.Config)
    (t0 t1 : Z) (b : string) (c : Call) (o : HttpOptions) (t : Trace) (s : Settlement) :
  (settlement (fst (Factory.invoke P config t0 t1 c o)) t = Some s -> channel_follows_status s)
  /\ (is_download c = true ->
      forall res, Legacy.invoke P requestTimeout b c = Some res ->
      settlement res t = Some s -> channel_follows_status s).
Proof.
  split.
  - intros H. apply factory_call_settlement in H.
    destruct H as [ | err Hd Herr | codes code hs body now Hd Hin | now Hin | err now Hin
                  | codes code hs now Hd Hin | err now Hd Hin | Hd ]; try done.
    + destruct (Z.ltb_spec (status (Factory.on_end P t0 codes code hs body now)) 400);
        cbn [channel_follows_status]; lia.
    + destruct (Z.ltb_spec code 400); simpl; lia.
  - intros Hdl res Hinv Hs.
    pose proof (legacy_call_settlement _ _ _ _ _ _ _ Hinv Hs) as H. rewrite Hdl in H.
    destruct H as [ | | err Hd Herr | codes code hs body Hd | | err | codes code hs Hd
                  | err Hd | Hd ]; try done.
    destruct (Z.ltb_spec code 400); simpl; lia.
Qed.

Lemma channel_tells_the_status_witness :
  channel_follows_status
    (Rejected {| headers := ∅; data := Some (JObj [("error", JStr "not_found")]);
                 status := 404; message := JStr "Not Found - Document not found";
                 duration := Some 3 |})
  /\ channel_follows_status
       (Rejected (response_envelope ∅ 404
                    "Not Found - Specified database, document or attchment was not found" None)).
Proof.
  split.
  - apply (proj1 (channel_tells_the_status Reference.node 10000 local_config 0 0
                    "http://localhost:5984" (GetDocument "db" "missing" None) local_httpOptions
                    (exchange 1 404 ∅ [(2, not_found_body)] 3) _)).
    reflexivity.
  - apply (proj2 (channel_tells_the_status Reference.node 10000 local_config 0 0
                    "http://localhost:5984" (GetAttachment "db" "doc" "a.png" a_sink "")
                    local_httpOptions [(1, Response 404 ∅)] _) eq_refl _ eq_refl).
    reflexivity.
Defined.

(** X2.  Every envelope either module settles a call with has a message that
    is not empty: the text of the status, or of the failure. *)
Theorem message_is_never_empty (P : Platform) (requestTimeout : Z) (config : Factory.Config)
    (t0 t1 : Z) (b : string) (c : Call) (o : HttpOptions) (t : Trace) (s : Settlement) :
  (forall res, Legacy.invoke P requestTimeout b c = Some res ->
     settlement res t = Some s -> on_envelope has_message s)
  /\ (settlement (fst (Factory.invoke P config t0 t1 c o)) t = Some s ->
      on_envelope has_message s).
Proof.
  split.
  - intros res Hinv Hs.
    pose proof (legacy_call_settlement _ _ _ _ _ _ _ Hinv Hs) as H.
    destruct H as [ | | err Hd Herr | codes code hs body Hd | | err | codes code hs Hd
                  | err Hd | Hd ];
      unfold on_envelope, has_message; try done.
    + unfold Legacy.on_end. destruct (JSON_parse P _); simpl.
      * apply truthy_text, legacy_status_message_not_empty.
      * by apply truthy_js_or.
    + by apply truthy_js_or.
    + destruct (code <? 400); apply truthy_text, legacy_status_message_not_empty.
    + by apply truthy_js_or.
  - intros Hs. apply factory_call_settlement in Hs.
    destruct Hs as [ | err Hd Herr | codes code hs body now Hd Hin | now Hin | err now Hin
                   | codes code hs now Hd Hin | err now Hd Hin | Hd ];
      unfold on_envelope, has_message; try done.
    + assert (truthy (message (Factory.on_end P t0 codes code hs body now)) = true) as Hm.
      { unfold Factory.on_end. destruct (JSON_parse P _); simpl.
        - apply truthy_text, factory_statusCode_not_empty.
        - by apply truthy_js_or. }
      by destruct (_ <? 400).
    + by apply truthy_js_or.
    + destruct (code <? 400); apply truthy_text, factory_statusCode_not_empty.
    + by apply truthy_js_or.
Qed.

Lemma message_is_never_empty_witness :
  on_envelope has_message
    (Fulfilled {| headers := ∅; data := Some (JObj []); status := 299;
                  message := JStr "unknown status"; duration := None |})
  /\ on_envelope has_message
       (Fulfilled {| headers := ∅; data := Some (JObj []); status := 299;
                     message := JStr "unknown status"; duration := Some 2 |}).
Proof.
  destruct (message_is_never_empty Reference.node 10000 local_config 0 0
              "http://localhost:5984" GetInfo local_httpOptions (exchange 1 299 ∅ [] 2)
              (Fulfilled {| headers := ∅; data := Some (JObj []); status := 299;
                            message := JStr "unknown status"; duration := None |}))
    as [HL _].
  destruct (message_is_never_empty Reference.node 10000 local_config 0 0
              "http://localhost:5984" GetInfo local_httpOptions (exchange 1 299 ∅ [] 2)
              (Fulfilled {| headers := ∅; data := Some (JObj []); status := 299;
                            message := JStr "unknown status"; duration := Some 2 |}))
    as [_ HF].
  split; [exact (HL _ eq_refl eq_refl) | exact (HF eq_refl)].
Defined.

(** X3.  The free-function module rejects a call other than the download only
    for a failure of its own: a malformed URL or a refused payload (status
    400), a timeout or an error of the transport (status 500), each without
    headers.  No rejection carries the status or the headers of a response. *)
Theorem legacy_rejections_are_local (P : Platform) (requestTimeout : Z) (b : string) (c : Call)
    (res : CallResult) (t : Trace) (s : Settlement) :
  is_download c = false ->
  Legacy.invoke P requestTimeout b c = Some res ->
  settlement res t = Some s ->
  rejects_locally s.
Proof.
  intros Hdl Hinv Hs.
  pose proof (legacy_call_settlement _ _ _ _ _ _ _ Hinv Hs) as H. rewrite Hdl in H.
  destruct H as [ | | err Hd Herr | codes code hs body Hd | | err | codes code hs Hd
                | err Hd | Hd ]; try done; split; try done; by (left + right).
Qed.

Lemma legacy_rejections_are_local_witness : rejects_locally (Rejected Legacy.timed_out).
Proof.
  apply (legacy_rejections_are_local Reference.node 10000 "http://localhost:5984" GetInfo
           _ [(1, Response 404 ∅); (2, Timeout); (3, End)] _ eq_refl eq_refl).
  reflexivity.
Defined.

(** X4.  Every envelope of the factory module carries a duration, the time
    from the start of the call to the delivery of one of the transport's
    events (to the refusal, for a payload refused before sending), but for the
    envelope of a sink that failed during a download, which has none; no
    envelope of the free-function module has one.  While the clock does not
    run backwards no duration is negative. *)
Theorem envelopes_are_timed (P : Platform) (requestTimeout : Z) (config : Factory.Config)
    (t0 t1 : Z) (b : string) (c : Call) (o : HttpOptions) (t : Trace) (s : Settlement) :
  (settlement (fst (Factory.invoke P config t0 t1 c o)) t = Some s ->
   on_envelope (fun e => timed t0 t1 t e \/ sink_failure t e) s
   /\ (clock_from t0 t1 t -> on_envelope duration_not_negative s))
  /\ (forall res, Legacy.invoke P requestTimeout b c = Some res ->
      settlement res t = Some s -> on_envelope (fun e => duration e = None) s).
Proof.
  split.
  - intros Hs. apply factory_call_settlement in Hs.
    assert (Hpos : forall e, timed t0 t1 t e \/ sink_failure t e ->
                   clock_from t0 t1 t -> duration_not_negative e).
    { intros e [[He | (now & ev & Hin & He)] | (now & err & _ & _ & He)] [H01 Hclock] d Hd;
        rewrite He in Hd; [injection Hd as <-; lia | | done].
      injection Hd as <-. specialize (Hclock _ _ Hin). lia. }
    assert (on_envelope (fun e => timed t0 t1 t e \/ sink_failure t e) s) as Ht.
    { destruct Hs as [ | err Hd Herr | codes code hs body now Hd Hin | now Hin | err now Hin
                     | codes code hs now Hd Hin | err now Hd Hin | Hd ];
        unfold on_envelope; try done.
      - left. by left.
      - assert (timed t0 t1 t (Factory.on_end P t0 codes code hs body now)) as Hm.
        { right. exists now, End. split; [done|].
          unfold Factory.on_end. by destruct (JSON_parse P _). }
        destruct (_ <? 400); by left.
      - left. right. by exists now, Timeout.
      - left. right. by exists now, (Error err).
      - assert (timed t0 t1 t (response_envelope hs code (Factory.statusCode P codes code)
                                 (Some (now - t0)))) as Hm.
        { right. by exists now, (Response code hs). }
        destruct (_ <? 400); by left.
      - right. by exists now, err. }
    split; [done|]. intros Hclock.
    destruct s; try done; by apply Hpos.
  - intros res Hinv Hs.
    pose proof (legacy_call_settlement _ _ _ _ _ _ _ Hinv Hs) as H.
    destruct H as [ | | err Hd Herr | codes code hs body Hd | | err | codes code hs Hd
                  | err Hd | Hd ]; unfold on_envelope; try done.
    + unfold Legacy.on_end. by destruct (JSON_parse P _).
    + by destruct (_ <? 400).
Qed.

Lemma envelopes_are_timed_witness :
  on_envelope duration_not_negative
    (Rejected {| headers := ∅; data := Some (JObj [("error", JStr "not_found")]);
                 status := 404; message := JStr "Not Found - Document not found";
                 duration := Some 3 |})
  /\ on_envelope (fun e => duration e = None) (Rejected Legacy.timed_out).
Proof.
  destruct (envelopes_are_timed Reference.node 10000 local_config 0 0
              "http://localhost:5984" (GetDocument "db" "missing" None) local_httpOptions
              (exchange 1 404 ∅ [(2, not_found_body)] 3)
              (Rejected {| headers := ∅; data := Some (JObj [("error", JStr "not_found")]);
                           status := 404; message := JStr "Not Found - Document not found";
                           duration := Some 3 |})) as [HF _].
  destruct (envelopes_are_timed Reference.node 10000 local_config 0 0
              "http://localhost:5984" GetInfo local_httpOptions [(7, Timeout)]
              (Rejected Legacy.timed_out)) as [_ HL].
  split.
  - apply (proj2 (HF eq_refl)). split; [done|].
    intros now ev Hin. unfold exchange in Hin. simpl in Hin.
    repeat (apply elem_of_cons in Hin as [[= -> _] | Hin]; [lia|]).
    by apply elem_of_nil in Hin.
  - exact (HL _ eq_refl eq_refl).
Defined.

(** ** The course of a buffered exchange *)

Lemma legacy_buffered_call (P : Platform) (requestTimeout : Z) (Q : CallResult -> Prop) :
  (forall e, Q (Threw e)) ->
  (forall param, Q (Legacy.request P requestTimeout param)) ->
  forall (b : string) (c : Call) (res : CallResult),
    is_download c = false -> Legacy.invoke P requestTimeout b c = Some res -> Q res.
Proof.
  intros Hthrow Hreq b c res Hdl Hinv.
  destruct c; try discriminate Hdl; try discriminate Hinv;
    cbn [Legacy.invoke] in Hinv; injection Hinv as <-;
    unfold_api; cbv zeta;
    try (destruct (Legacy.createQueryString queryObj) as [queryStr|e]; [|exact (Hthrow e)]);
    try (destruct (truthy (JStr docId)));
    apply Hreq.
Qed.

Lemma factory_buffered_call (P : Platform) (config : Factory.Config) (t0 t1 : Z)
    (Q : CallResult -> Prop) :
  (forall e, Q (Threw e)) ->
  Q NoPromise ->
  (forall param o, Q (fst (Factory.request P config t0 t1 param o))) ->
  forall (c : Call) (o : HttpOptions),
    is_download c = false -> Q (fst (Factory.invoke P config t0 t1 c o)).
Proof.
  intros Hthrow Hnone Hreq c o Hdl.
  destruct c; try discriminate Hdl; cbn [Factory.invoke]; unfold_api; cbv zeta;
    try (destruct (Factory.createQueryString queryObj) as [queryStr|e]; [|exact (Hthrow e)]);
    try (destruct (truthy (JStr docId) && truthy (JStr newDocId)); [|exact Hnone]);
    try (destruct (truthy (JStr docId)));
    apply Hreq.
Qed.

Section PendingMachine.
Context (step : Exchange -> Z * Event -> Exchange).
Hypothesis step_quiet : forall x ev,
  match snd ev with
  | Timeout | Error _ => True
  | End => res x = None -> promise (step x ev) = promise x /\ res (step x ev) = None
  | Response _ _ => promise (step x ev) = promise x /\ is_Some (res (step x ev))
  | _ => promise (step x ev) = promise x /\ res (step x ev) = res x
  end.

Lemma machine_pending (t : Trace) (x : Exchange) :
  promise x = Pending ->
  ends_exchange (bool_decide (is_Some (res x))) t = false ->
  promise (fold_left step t x) = Pending.
Proof.
  revert x. induction t as [|ev t IH]; intros x Hx; simpl; [done|].
  pose proof (step_quiet x ev) as Hev.
  destruct (snd ev) eqn:E; intros H; try done.
  - destruct Hev as [Hp Hr]. apply IH; [congruence|]. by rewrite bool_decide_eq_true_2.
  - destruct Hev as [Hp Hr]. apply IH; [congruence | by rewrite Hr].
  - apply orb_false_iff in H as [Hres H].
    apply bool_decide_eq_false in Hres.
    assert (res x = None) as Hnone.
    { destruct (res x) eqn:Er; [|done]. destruct Hres. by eexists. }
    destruct (Hev Hnone) as [Hp Hr]. apply IH; [congruence|].
    rewrite Hr. rewrite Hnone in H. exact H.
  - destruct Hev as [Hp Hr]. apply IH; [congruence | by rewrite Hr].
  - destruct Hev as [Hp Hr]. apply IH; [congruence | by rewrite Hr].
  - destruct Hev as [Hp Hr]. apply IH; [congruence | by rewrite Hr].
Qed.

End PendingMachine.

Lemma legacy_request_step_quiet (P : Platform) (codes : gmap Z string) (x : Exchange)
    (ev : Z * Event) :
  match snd ev with
  | Timeout | Error _ => True
  | End =>
      res x = None ->
      promise (Legacy.request_step P codes x ev) = promise x
      /\ res (Legacy.request_step P codes x ev) = None
  | Response _ _ =>
      promise (Legacy.request_step P codes x ev) = promise x
      /\ is_Some (res (Legacy.request_step P codes x ev))
  | _ =>
      promise (Legacy.request_step P codes x ev) = promise x
      /\ res (Legacy.request_step P codes x ev) = res x
  end.
Proof.
  unfold Legacy.request_step.
  destruct (snd ev); simpl; try done.
  - destruct (res x) eqn:E; simpl; by rewrite ?E.
  - intros H. rewrite H. by split.
Qed.

Lemma factory_request_step_quiet (P : Platform) (t0 : Z) (codes : option (gmap Z string))
    (x : Exchange) (ev : Z * Event) :
  match snd ev with
  | Timeout | Error _ => True
  | End =>
      res x = None ->
      promise (Factory.request_step P t0 codes x ev) = promise x
      /\ res (Factory.request_step P t0 codes x ev) = None
  | Response _ _ =>
      promise (Factory.request_step P t0 codes x ev) = promise x
      /\ is_Some (res (Factory.request_step P t0 codes x ev))
  | _ =>
      promise (Factory.request_step P t0 codes x ev) = promise x
      /\ res (Factory.request_step P t0 codes x ev) = res x
  end.
Proof.
  unfold Factory.request_step.
  destruct (snd ev); simpl; try done.
  - destruct (res x) eqn:E; simpl; by rewrite ?E.
  - intros H. rewrite H. by split.
Qed.

Lemma legacy_request_settled (P : Platform) (codes : gmap Z string) (t : Trace) :
  settled (promise (fold_left (Legacy.request_step P codes) t exchange0)) = ends_exchange false t.
Proof.
  destruct (ends_exchange false t) eqn:E.
  - apply (machine_ends _ (legacy_request_step_keeps P codes) (legacy_request_step_ends P codes)
             t exchange0 E).
  - by rewrite (machine_pending _ (legacy_request_step_quiet P codes) t exchange0 eq_refl E).
Qed.

Lemma factory_request_settled (P : Platform) (t0 : Z) (codes : option (gmap Z string))
    (t : Trace) :
  settled (promise (fold_left (Factory.request_step P t0 codes) t exchange0))
  = ends_exchange false t.
Proof.
  destruct (ends_exchange false t) eqn:E.
  - apply (machine_ends _ (factory_request_step_keeps P t0 codes)
             (factory_request_step_ends P t0 codes) t exchange0 E).
  - by rewrite (machine_pending _ (factory_request_step_quiet P t0 codes) t exchange0 eq_refl E).
Qed.

(** X5.  The promise of a call other than the download stays pending exactly
    as long as the exchange has not ended: it is settled once the transport
    timed out or failed or a response ended, and not before, whatever else was
    delivered. *)
Theorem pending_until_the_exchange_ends (P : Platform) (requestTimeout : Z)
    (config : Factory.Config) (t0 t1 : Z) (b : string) (c : Call) (o : HttpOptions)
    (r : Request) (k : Trace -> Settlement) (t : Trace) :
  is_download c = false ->
  Legacy.invoke P requestTimeout b c = Some (Sent r k)
  \/ fst (Factory.invoke P config t0 t1 c o) = Sent r k ->
  settled (k t) = ends_exchange false t.
Proof.
  intros Hdl [H | H].
  - refine (legacy_buffered_call P requestTimeout
              (fun res => forall r k, res = Sent r k ->
                          forall t, settled (k t) = ends_exchange false t)
              _ _ b c _ Hdl H r k eq_refl t); [done|].
    intros param r' k' Hk t'. rewrite (legacy_request_sent _ _ _ _ _ Hk).
    apply legacy_request_settled.
  - refine (factory_buffered_call P config t0 t1
              (fun res => forall r k, res = Sent r k ->
                          forall t, settled (k t) = ends_exchange false t)
              _ _ _ c o Hdl r k H t); [done | done |].
    intros param o' r' k' Hk t'.
    destruct (Factory.request P config t0 t1 param o') as [res o2] eqn:E.
    simpl in Hk. subst res. rewrite (factory_request_sent _ _ _ _ _ _ _ _ _ E).
    apply factory_request_settled.
Qed.

Lemma pending_until_the_exchange_ends_witness :
  exists r k,
    Legacy.getInfo Reference.node 10000 "http://localhost:5984" = Sent r k
    /\ settled (k [(1, Response 200 ∅); (2, Data "{}")]) = false
    /\ settled (k [(1, Response 200 ∅); (2, Data "{}"); (3, End)]) = true.
Proof.
  eexists _, _. split; [reflexivity|]. split.
  - exact (pending_until_the_exchange_ends Reference.node 10000 local_config 0 0
             "http://localhost:5984" GetInfo local_httpOptions _ _
             [(1, Response 200 ∅); (2, Data "{}")] eq_refl (or_introl eq_refl)).
  - exact (pending_until_the_exchange_ends Reference.node 10000 local_config 0 0
             "http://localhost:5984" GetInfo local_httpOptions _ _
             [(1, Response 200 ∅); (2, Data "{}"); (3, End)] eq_refl (or_introl eq_refl)).
Defined.

Lemma legacy_request_failure (P : Platform) (codes : gmap Z string) (pre post : Trace)
    (ev : Z * Event) (e : Envelope) :
  ends_exchange false pre = false ->
  (forall x, promise (Legacy.request_step P codes x ev) = reject e (promise x)) ->
  promise (fold_left (Legacy.request_step P codes) (pre ++ ev :: post) exchange0) = Rejected e.
Proof.
  intros Hpre Hev. rewrite fold_left_app. simpl.
  rewrite (fold_keeps promise _ (legacy_request_step_keeps P codes));
    rewrite Hev, (machine_pending _ (legacy_request_step_quiet P codes) pre exchange0 eq_refl Hpre);
    done.
Qed.

Lemma factory_request_failure (P : Platform) (t0 : Z) (codes : option (gmap Z string))
    (pre post : Trace) (ev : Z * Event) (e : Envelope) :
  ends_exchange false pre = false ->
  (forall x, promise (Factory.request_step P t0 codes x ev) = reject e (promise x)) ->
  promise (fold_left (Factory.request_step P t0 codes) (pre ++ ev :: post) exchange0)
  = Rejected e.
Proof.
  intros Hpre Hev. rewrite fold_left_app. simpl.
  rewrite (fold_keeps promise _ (factory_request_step_keeps P t0 codes));
    rewrite Hev,
      (machine_pending _ (factory_request_step_quiet P t0 codes) pre exchange0 eq_refl Hpre);
    done.
Qed.

(** X6.  When the transport times out or fails before the exchange ended, a
    call other than the download is rejected with the envelope of that
    failure, of status 500 and without headers, whatever was delivered before
    and whatever is delivered after: a response that has not ended is dropped,
    a later one is not looked at. *)
Theorem first_failure_rejects (P : Platform) (requestTimeout : Z) (config : Factory.Config)
    (t0 t1 : Z) (b : string) (c : Call) (o : HttpOptions) (r : Request)
    (k : Trace -> Settlement) (pre post : Trace) (now : Z) :
  is_download c = false ->
  ends_exchange false pre = false ->
  (Legacy.invoke P requestTimeout b c = Some (Sent r k) ->
   k (pre ++ (now, Timeout) :: post)%list = Rejected Legacy.timed_out
   /\ forall err, k (pre ++ (now, Error err) :: post)%list
                  = Rejected (Legacy.transport_error err))
  /\ (fst (Factory.invoke P config t0 t1 c o) = Sent r k ->
      k (pre ++ (now, Timeout) :: post)%list = Rejected (Factory.timed_out t0 now)
      /\ forall err, k (pre ++ (now, Error err) :: post)%list
                     = Rejected (Factory.transport_error t0 err now)).
Proof.
  intros Hdl Hpre. split; intros H.
  - refine (legacy_buffered_call P requestTimeout
              (fun res => forall r k, res = Sent r k ->
                 k (pre ++ (now, Timeout) :: post)%list = Rejected Legacy.timed_out
                 /\ forall err, k (pre ++ (now, Error err) :: post)%list
                                = Rejected (Legacy.transport_error err))
              _ _ b c _ Hdl H r k eq_refl); [done|].
    intros param r' k' Hk. rewrite (legacy_request_sent _ _ _ _ _ Hk).
    split; [|intros err]; by apply legacy_request_failure.
  - refine (factory_buffered_call P config t0 t1
              (fun res => forall r k, res = Sent r k ->
                 k (pre ++ (now, Timeout) :: post)%list = Rejected (Factory.timed_out t0 now)
                 /\ forall err, k (pre ++ (now, Error err) :: post)%list
                                = Rejected (Factory.transport_error t0 err now))
              _ _ _ c o Hdl r k H); [done | done |].
    intros param o' r' k' Hk.
    destruct (Factory.request P config t0 t1 param o') as [res o2] eqn:E.
    simpl in Hk. subst res. rewrite (factory_request_sent _ _ _ _ _ _ _ _ _ E).
    split; [|intros err]; by apply factory_request_failure.
Qed.

Lemma first_failure_rejects_witness :
  exists r k,
    fst (Factory.getInfo Reference.node local_config 0 0 local_httpOptions) = Sent r k
    /\ k [(1, Response 200 ∅); (2, Data "{"); (9, Timeout); (10, Data "}"); (11, End)]
       = Rejected {| headers := ∅; data := Some (JObj [("error", JStr "request timed out")]);
                     status := 500; message := JStr "Error: request timed out";
                     duration := Some 9 |}.
Proof.
  eexists _, _. split; [reflexivity|].
  exact (proj1 (proj2 (first_failure_rejects Reference.node 10000 local_config 0 0
                         "http://localhost:5984" GetInfo local_httpOptions _ _
                         [(1, Response 200 ∅); (2, Data "{")] [(10, Data "}"); (11, End)] 9
                         eq_refl eq_refl) eq_refl)).
Defined.

Lemma factory_request_duration (P : Platform) (t0 : Z) (codes : option (gmap Z string))
    (t : Trace) (x : Exchange) :
  promise x = Pending ->
  on_envelope
    (fun e => exists now, ending_time (bool_decide (is_Some (res x))) t = Some now
                          /\ duration e = Some (now - t0))
    (promise (fold_left (Factory.request_step P t0 codes) t x)).
Proof.
  revert x. induction t as [|[now ev] t IH]; intros x Hx; simpl.
  - by rewrite Hx.
  - assert (Hdone : forall e,
              promise (Factory.request_step P t0 codes x (now, ev)) = Rejected e
              \/ promise (Factory.request_step P t0 codes x (now, ev)) = Fulfilled e ->
              duration e = Some (now - t0) ->
              on_envelope (fun e' => exists now', Some now = Some now'
                                                 /\ duration e' = Some (now' - t0))
                (promise (fold_left (Factory.request_step P t0 codes) t
                            (Factory.request_step P t0 codes x (now, ev))))).
    { intros e He Hd.
      rewrite (fold_keeps promise _ (factory_request_step_keeps P t0 codes));
        destruct He as [-> | ->]; try done; simpl; by exists now. }
    destruct ev as [code hs|chunk| | |err| | |].
    + specialize (IH (Factory.request_step P t0 codes x (now, Response code hs)) Hx).
      by rewrite bool_decide_eq_true_2 in IH by (by eexists).
    + assert (Hs : promise (Factory.request_step P t0 codes x (now, Data chunk)) = Pending
                   /\ res (Factory.request_step P t0 codes x (now, Data chunk)) = res x).
      { unfold Factory.request_step. simpl. destruct (res x) eqn:E; simpl; by rewrite ?E. }
      destruct Hs as [Hp Hr]. specialize (IH _ Hp). by rewrite Hr in IH.
    + destruct (res x) as [[code hs]|] eqn:E.
      * rewrite bool_decide_eq_true_2 by (by eexists).
        apply (Hdone (Factory.on_end P t0 codes code hs (buffer x) now)).
        -- unfold Factory.request_step. simpl. rewrite E, Hx.
           destruct (_ <? 400); [by right | by left].
        -- unfold Factory.on_end. by destruct (JSON_parse P _).
      * rewrite bool_decide_eq_false_2 by (by intros [? ?]).
        assert (Hs : Factory.request_step P t0 codes x (now, End) = x).
        { unfold Factory.request_step. simpl. by rewrite E. }
        rewrite Hs. specialize (IH x Hx). rewrite E in IH.
        by rewrite bool_decide_eq_false_2 in IH by (by intros [? ?]).
    + apply (Hdone (Factory.timed_out t0 now)); [|done].
      left. unfold Factory.request_step. simpl. by rewrite Hx.
    + apply (Hdone (Factory.transport_error t0 err now)); [|done].
      left. unfold Factory.request_step. simpl. by rewrite Hx.
    + exact (IH x Hx).
    + exact (IH x Hx).
    + exact (IH x Hx).
Qed.

(** X7.  The duration in the envelope of a factory call other than the
    download is the time from the start of the call to the end of the
    exchange: to the first timeout or error of the transport, or to the first
    end of a response, whichever comes first.  What is delivered later does
    not change it. *)
Theorem duration_is_the_time_to_the_end (P : Platform) (config : Factory.Config) (t0 t1 : Z)
    (c : Call) (o : HttpOptions) (r : Request) (k : Trace -> Settlement) (t : Trace) :
  is_download c = false ->
  fst (Factory.invoke P config t0 t1 c o) = Sent r k ->
  on_envelope (timed_to_the_end t0 t) (k t).
Proof.
  intros Hdl Hk.
  refine (factory_buffered_call P config t0 t1
            (fun res => forall r k, res = Sent r k -> on_envelope (timed_to_the_end t0 t) (k t))
            _ _ _ c o Hdl r k Hk); [done | done |].
  intros param o' r' k' Hk'.
  destruct (Factory.request P config t0 t1 param o') as [res o2] eqn:E.
  simpl in Hk'. subst res. rewrite (factory_request_sent _ _ _ _ _ _ _ _ _ E).
  exact (factory_request_duration P t0 _ t exchange0 eq_refl).
Qed.

Lemma duration_is_the_time_to_the_end_witness :
  exists r k,
    fst (Factory.getInfo Reference.node local_config 100 100 local_httpOptions) = Sent r k
    /\ on_envelope (timed_to_the_end 100 [(110, Response 200 ∅); (130, End); (150, Timeout)])
         (k [(110, Response 200 ∅); (130, End); (150, Timeout)]).
Proof.
  eexists _, _. split; [reflexivity|].
  exact (duration_is_the_time_to_the_end Reference.node local_config 100 100 GetInfo
           local_httpOptions _ _ [(110, Response 200 ∅); (130, End); (150, Timeout)]
           eq_refl eq_refl).
Defined.

(** ** The course of a download *)

Section DownloadProtocol.
Context (step : Settlement -> Z * Event -> Settlement) (stream_error : JsValue -> Envelope).
Hypothesis step_keeps : forall p ev, settled p = true -> step p ev = p.
Hypothesis step_silent : forall ev,
  match snd ev with
  | Response _ _ | Timeout | Error _ => True
  | _ => step Pending ev = Pending
  end.

Let step2 := download_step step stream_error.

Lemma download_silent (pre : Trace) :
  silent pre = true -> fold_left step2 pre download0 = download0.
Proof.
  induction pre as [|ev pre IH]; simpl; [done|].
  intros H. apply andb_true_iff in H as [Hev Hpre].
  pose proof (step_silent ev) as Hs.
  unfold step2 at 2, download_step, download0. simpl.
  destruct (snd ev); try done; rewrite Hs; by apply IH.
Qed.

Lemma download_unheard (early : Trace) (e : Envelope) :
  no_jobs early = true ->
  fold_left step2 early {| executor := Fulfilled e; listening := false; awaited := Pending |}
  = {| executor := Fulfilled e; listening := false; awaited := Pending |}.
Proof.
  induction early as [|ev early IH]; simpl; [done|].
  intros H. apply andb_true_iff in H as [Hev Hearly].
  unfold step2 at 2, download_step. simpl.
  rewrite step_keeps; [|done].
  destruct (snd ev); try done; by apply IH.
Qed.

Lemma download_idle (mid : Trace) (e : Envelope) :
  sink_idle mid = true ->
  fold_left step2 mid {| executor := Fulfilled e; listening := true; awaited := Pending |}
  = {| executor := Fulfilled e; listening := true; awaited := Pending |}.
Proof.
  induction mid as [|ev mid IH]; simpl; [done|].
  intros H. apply andb_true_iff in H as [Hev Hmid].
  unfold step2 at 2, download_step. simpl.
  rewrite step_keeps; [|done].
  destruct (snd ev); try done; by apply IH.
Qed.

Lemma download_settled (t : Trace) (d : Download) :
  settled (download_promise d) = true ->
  download_promise (fold_left step2 t d) = download_promise d.
Proof. apply (fold_keeps download_promise step2 (download_step_keeps _ _ step_keeps)). Qed.

Lemma download_fulfilled (pre early mid post : Trace) (ev : Z * Event) (e : Envelope)
    (at_jobs : Z) :
  silent pre = true -> no_jobs early = true -> sink_idle mid = true ->
  step Pending ev = Fulfilled e ->
  let k := await_sink stream_error (fun t => fold_left step t Pending) in
  k (pre ++ ev :: early)%list = Pending
  /\ k (pre ++ ev :: early ++ (at_jobs, Jobs) :: mid)%list = Pending
  /\ (forall later,
        k (pre ++ ev :: early ++ (at_jobs, Jobs) :: mid ++ (later, SinkClose) :: post)%list
        = Fulfilled e)
  /\ (forall later err,
        k (pre ++ ev :: early ++ (at_jobs, Jobs) :: mid ++ (later, SinkError err) :: post)%list
        = Rejected (stream_error err)).
Proof.
  intros Hpre Hearly Hmid Hev k. unfold k.
  assert (Hanswered : forall rest,
            fold_left step2 (pre ++ ev :: early ++ rest)%list download0
            = fold_left step2 rest
                {| executor := Fulfilled e; listening := false; awaited := Pending |}).
  { intros rest. rewrite fold_left_app, download_silent by done. simpl.
    rewrite fold_left_app. unfold step2 at 3, download_step, download0. simpl. rewrite Hev.
    by rewrite download_unheard. }
  assert (Hlistening : forall rest,
            fold_left step2 (pre ++ ev :: early ++ (at_jobs, Jobs) :: mid ++ rest)%list
              download0
            = fold_left step2 rest
                {| executor := Fulfilled e; listening := true; awaited := Pending |}).
  { intros rest. rewrite Hanswered. simpl. rewrite fold_left_app.
    unfold step2 at 3, download_step. simpl. rewrite step_keeps by done.
    by rewrite download_idle. }
  split; [|split; [|split]].
  - rewrite await_sink_fold. fold step2.
    rewrite <- (app_nil_r early), Hanswered. done.
  - rewrite await_sink_fold. fold step2.
    rewrite <- (app_nil_r mid), Hlistening. done.
  - intros later. rewrite await_sink_fold. fold step2. rewrite Hlistening. simpl.
    rewrite download_settled; unfold step2, download_step, download_promise; simpl;
      by rewrite step_keeps.
  - intros later err. rewrite await_sink_fold. fold step2. rewrite Hlistening. simpl.
    rewrite download_settled; unfold step2, download_step, download_promise; simpl;
      by rewrite step_keeps.
Qed.

Lemma download_rejected (pre post : Trace) (ev : Z * Event) (e : Envelope) :
  silent pre = true -> step Pending ev = Rejected e ->
  await_sink stream_error (fun t => fold_left step t Pending) (pre ++ ev :: post)%list
  = Rejected e.
Proof.
  intros Hpre Hev. rewrite await_sink_fold. fold step2.
  rewrite fold_left_app, download_silent by done. simpl.
  rewrite download_settled; unfold step2, download_step, download_promise, download0; simpl;
    by rewrite Hev.
Qed.

End DownloadProtocol.

Lemma legacy_download_sent (P : Platform) (requestTimeout : Z)
    (b dbName docId attName : string) (sink : JsValue) (rev : string)
    (r : Request) (k : Trace -> Settlement) :
  Legacy.getAttachment P requestTimeout b dbName docId attName sink rev = Sent r k ->
  k = await_sink Legacy.stream_error
        (fun t => fold_left (Legacy.requestStream_step Legacy.getAttachment_codes) t Pending).
Proof.
  unfold Legacy.getAttachment, Legacy.requestStream. cbv zeta.
  destruct (negb (is_writable _)); [done|].
  destruct (negb (Legacy.isValidUrl _ _)); [done|].
  by intros [= _ <-].
Qed.

Lemma factory_download_sent (P : Platform) (config : Factory.Config) (t0 : Z)
    (dbName docId attName : string) (sink : JsValue) (rev : string) (o : HttpOptions)
    (r : Request) (k : Trace -> Settlement) :
  fst (Factory.getAttachment P config t0 dbName docId attName sink rev o) = Sent r k ->
  k = await_sink Factory.stream_error
        (fun t => fold_left (Factory.requestStream_step P t0 (Some Factory.getAttachment_codes))
                    t Pending).
Proof.
  unfold Factory.getAttachment, Factory.requestStream. cbv zeta.
  destruct (negb (is_writable _)); [done|].
  by intros [= _ <-].
Qed.

Lemma legacy_requestStream_step_silent (codes : gmap Z string) (ev : Z * Event) :
  match snd ev with
  | Response _ _ | Timeout | Error _ => True
  | _ => Legacy.requestStream_step codes Pending ev = Pending
  end.
Proof. unfold Legacy.requestStream_step. by destruct (snd ev). Qed.

Lemma factory_requestStream_step_silent (P : Platform) (t0 : Z)
    (codes : option (gmap Z string)) (ev : Z * Event) :
  match snd ev with
  | Response _ _ | Timeout | Error _ => True
  | _ => Factory.requestStream_step P t0 codes Pending ev = Pending
  end.
Proof. unfold Factory.requestStream_step. by destruct (snd ev). Qed.

(** X8.  Once a response with a status below 400 arrived, the download is
    settled by the sink alone, and only by what the sink emits after the
    promise reactions have run: the two listeners are attached in the
    reaction to the response.  Until the reactions run the promise stays
    pending whatever happens, a close or an error of the sink included,
    which is not heard.  After that it stays pending, also through a
    timeout or an error of the transport, until the sink closes, which
    fulfils it with the envelope made of the response, or fails, which
    rejects it with the envelope of that failure.  The duration in the
    factory module's envelope is the time to the response, not to the end
    of the download. *)
Theorem download_waits_for_the_sink (P : Platform) (requestTimeout : Z)
    (config : Factory.Config) (t0 : Z) (b dbName docId attName : string) (sink : JsValue)
    (rev : string) (o : HttpOptions) (r : Request) (k : Trace -> Settlement)
    (pre early mid post : Trace) (now at_jobs code : Z) (hs : gmap string JsValue) :
  silent pre = true ->
  no_jobs early = true ->
  sink_idle mid = true ->
  code < 400 ->
  (Legacy.getAttachment P requestTimeout b dbName docId attName sink rev = Sent r k ->
   k (pre ++ (now, Response code hs) :: early)%list = Pending
   /\ k (pre ++ (now, Response code hs) :: early ++ (at_jobs, Jobs) :: mid)%list = Pending
   /\ (forall later,
         k (pre ++ (now, Response code hs) :: early ++ (at_jobs, Jobs) :: mid
              ++ (later, SinkClose) :: post)%list
         = Fulfilled (response_envelope hs code
                        (Legacy.status_message Legacy.getAttachment_codes code) None))
   /\ (forall later err,
         k (pre ++ (now, Response code hs) :: early ++ (at_jobs, Jobs) :: mid
              ++ (later, SinkError err) :: post)%list
         = Rejected (Legacy.stream_error err)))
  /\ (fst (Factory.getAttachment P config t0 dbName docId attName sink rev o) = Sent r k ->
      k (pre ++ (now, Response code hs) :: early)%list = Pending
      /\ k (pre ++ (now, Response code hs) :: early ++ (at_jobs, Jobs) :: mid)%list = Pending
      /\ (forall later,
            k (pre ++ (now, Response code hs) :: early ++ (at_jobs, Jobs) :: mid
                 ++ (later, SinkClose) :: post)%list
            = Fulfilled (response_envelope hs code
                           (Factory.statusCode P (Some Factory.getAttachment_codes) code)
                           (Some (now - t0))))
      /\ (forall later err,
            k (pre ++ (now, Response code hs) :: early ++ (at_jobs, Jobs) :: mid
                 ++ (later, SinkError err) :: post)%list
            = Rejected (Factory.stream_error err))).
Proof.
  intros Hpre Hearly Hmid Hcode. apply Z.ltb_lt in Hcode.
  split; intros Hk.
  - rewrite (legacy_download_sent _ _ _ _ _ _ _ _ _ _ Hk).
    apply (download_fulfilled _ _ (legacy_requestStream_step_keeps _)
             (legacy_requestStream_step_silent _)); try done.
    unfold Legacy.requestStream_step. simpl. by rewrite Hcode.
  - rewrite (factory_download_sent _ _ _ _ _ _ _ _ _ _ _ Hk).
    apply (download_fulfilled _ _ (factory_requestStream_step_keeps P t0 _)
             (factory_requestStream_step_silent P t0 _)); try done.
    unfold Factory.requestStream_step. simpl. by rewrite Hcode.
Qed.

Lemma download_waits_for_the_sink_witness :
  exists r k,
    fst (Factory.getAttachment Reference.node local_config 0 "db" "doc" "a.png" a_sink ""
           local_httpOptions) = Sent r k
    /\ k [(1, SinkClose); (2, Response 200 ∅); (2, SinkClose)] = Pending
    /\ k [(1, SinkClose); (2, Response 200 ∅); (2, SinkClose); (2, Jobs); (3, Timeout)]
       = Pending
    /\ k [(1, SinkClose); (2, Response 200 ∅); (2, SinkClose); (2, Jobs); (3, Timeout);
          (4, SinkClose)]
       = Fulfilled (response_envelope ∅ 200 "OK - Attachment exists" (Some 2)).
Proof.
  eexists _, _. split; [reflexivity|].
  destruct (proj2 (download_waits_for_the_sink Reference.node 10000 local_config 0
                     "http://localhost:5984" "db" "doc" "a.png" a_sink "" local_httpOptions
                     _ _ [(1, SinkClose)] [(2, SinkClose)] [(3, Timeout)] [] 2 2 200 ∅
                     eq_refl eq_refl eq_refl eq_refl)
              eq_refl) as (H1 & H2 & H3 & _).
  split; [exact H1 | split; [exact H2 | exact (H3 4)]].
Defined.

(** X9.  Before any response, a timeout or an error of the transport rejects
    the download with the envelope of that failure, and a response with a
    status of 400 or more rejects it with the envelope made of the response,
    each at once: the sink is not waited for. *)
Theorem download_fails_at_once (P : Platform) (requestTimeout : Z)
    (config : Factory.Config) (t0 : Z) (b dbName docId attName : string) (sink : JsValue)
    (rev : string) (o : HttpOptions) (r : Request) (k : Trace -> Settlement)
    (pre post : Trace) (now : Z) :
  silent pre = true ->
  (Legacy.getAttachment P requestTimeout b dbName docId attName sink rev = Sent r k ->
   (forall code hs, 400 <= code ->
      k (pre ++ (now, Response code hs) :: post)%list
      = Rejected (response_envelope hs code
                    (Legacy.status_message Legacy.getAttachment_codes code) None))
   /\ k (pre ++ (now, Timeout) :: post)%list = Rejected Legacy.timed_out
   /\ (forall err, k (pre ++ (now, Error err) :: post)%list
                   = Rejected (Legacy.transport_error err)))
  /\ (fst (Factory.getAttachment P config t0 dbName docId attName sink rev o) = Sent r k ->
      (forall code hs, 400 <= code ->
         k (pre ++ (now, Response code hs) :: post)%list
         = Rejected (response_envelope hs code
                       (Factory.statusCode P (Some Factory.getAttachment_codes) code)
                       (Some (now - t0))))
      /\ k (pre ++ (now, Timeout) :: post)%list = Rejected (Factory.timed_out t0 now)
      /\ (forall err, k (pre ++ (now, Error err) :: post)%list
                      = Rejected (Factory.transport_error t0 err now))).
Proof.
  intros Hpre. split; intros Hk.
  - rewrite (legacy_download_sent _ _ _ _ _ _ _ _ _ _ Hk).
    split; [|split]; intros;
      apply (download_rejected _ _ (legacy_requestStream_step_keeps _)
               (legacy_requestStream_step_silent _)); try done.
    unfold Legacy.requestStream_step. simpl.
    destruct (Z.ltb_spec code 400); [lia | done].
  - rewrite (factory_download_sent _ _ _ _ _ _ _ _ _ _ _ Hk).
    split; [|split]; intros;
      apply (download_rejected _ _ (factory_requestStream_step_keeps P t0 _)
               (factory_requestStream_step_silent P t0 _)); try done.
    unfold Factory.requestStream_step. simpl.
    destruct (Z.ltb_spec code 400); [lia | done].
Qed.

Lemma download_fails_at_once_witness :
  exists r k,
    Legacy.getAttachment Reference.node 10000 "http://localhost:5984" "db" "doc" "a.png"
      a_sink "" = Sent r k
    /\ k [(1, Response 404 ∅); (2, SinkClose)]
       = Rejected (response_envelope ∅ 404
                     "Not Found - Specified database, document or attchment was not found"
                     None).
Proof.
  eexists _, _. split; [reflexivity|].
  destruct (proj1 (download_fails_at_once Reference.node 10000 local_config 0
                     "http://localhost:5984" "db" "doc" "a.png" a_sink "" local_httpOptions
                     _ _ [] [(2, SinkClose)] 1 eq_refl) eq_refl) as (H1 & _).
  exact (H1 404 ∅ ltac:(lia)).
Defined.

(** X10.  A download into a value that is no writable stream does not throw,
    in either module: it returns a promise rejected with the error of the
    failed assertion, which is no envelope, before the URL is looked at and
    without a request; the options of the factory module's client stay as they
    are. *)
Theorem download_needs_a_sink (P : Platform) (requestTimeout : Z) (config : Factory.Config)
    (t0 : Z) (b dbName docId attName : string) (sink : JsValue) (rev : string)
    (o : HttpOptions) :
  is_writable sink = false ->
  Legacy.getAttachment P requestTimeout b dbName docId attName sink rev
  = Settled (Failed AssertionError)
  /\ Factory.getAttachment P config t0 dbName docId attName sink rev o
     = (Settled (Failed AssertionError), o).
Proof.
  intros Hw. unfold Legacy.getAttachment, Legacy.requestStream, Factory.getAttachment,
    Factory.requestStream.
  cbv zeta. cbn [Legacy.p_stream Factory.p_stream]. by rewrite Hw.
Qed.

Lemma download_needs_a_sink_witness :
  Legacy.getAttachment Reference.node 10000 "not-a-url" "db" "doc" "a.png"
    (JObj [("writable", JBool true)]) ""
  = Settled (Failed AssertionError).
Proof.
  exact (proj1 (download_needs_a_sink Reference.node 10000 local_config 0 "not-a-url"
                  "db" "doc" "a.png" (JObj [("writable", JBool true)]) "" local_httpOptions
                  eq_refl)).
Defined.

(** ** The shared options of a client *)

(** X11.  Whatever calls a client served before, each of its requests goes to
    the host, port and scheme of the base endpoint, with its credentials, with
    the certificate check and the timeout of the configuration (on by default,
    and 10000 ms by default): no call changes where the client connects. *)
Theorem client_keeps_its_endpoint (P : Platform) (opt : Factory.Options) (b : string)
    (client : Factory.Client) (cs : list (Z * Z * Call)) (t0 t1 : Z) (c : Call) (r : Request) :
  Factory.factory P opt = Return client ->
  Factory.baseUrl opt = Some b ->
  wire (fst (Factory.invoke P (Factory.config client) t0 t1 c
               (after_calls P (Factory.config client) cs (Factory.httpOptions client))))
    = Some r ->
  hostname (options r) = host_name (urlParse P b)
  /\ port (options r) = of_option (url_port (urlParse P b))
  /\ auth (options r) = url_auth (urlParse P b)
  /\ protocol (options r) = url_protocol (urlParse P b)
  /\ rejectUnauthorized (options r) = Some (default true (Factory.opt_verifyCertificate opt))
  /\ timeout r = default 10000 (Factory.opt_requestTimeout opt)
  /\ lib r = lib_of (url_protocol (urlParse P b)).
Proof.
  intros Hf Hb Hw.
  unfold Factory.factory in Hf. rewrite Hb in Hf.
  destruct (negb _); [done|]. injection Hf as <-.
  cbn [Factory.config Factory.httpOptions] in Hw.
  lazymatch type of Hw with
  | wire (fst (Factory.invoke _ ?cfg _ _ _ (after_calls _ _ _ ?o0))) = _ =>
      destruct (factory_call_keeps P cfg t0 t1 c (after_calls P cfg cs o0))
        as ((E1 & E2 & E3 & E4 & E5) & Hr & _);
      destruct (after_calls_keeps P cfg cs o0) as [(F1 & F2 & F3 & F4 & F5) _]
  end.
  destruct (Hr r Hw) as (-> & -> & ->).
  rewrite E1, E2, E3, E4, E5, F1, F2, F3, F4, F5. done.
Qed.

Lemma client_keeps_its_endpoint_witness :
  exists r,
    wire (fst (Factory.getDocument Reference.node local_config 9 9 "db" "doc" None
                 (after_calls Reference.node local_config
                    [(1, 1, CreateDocument "db" january ""); (5, 5, GetUrlPath "_all_dbs")]
                    local_httpOptions))) = Some r
    /\ hostname (options r) = Some "localhost"
    /\ port (options r) = JStr "5984"
    /\ timeout r = 10000.
Proof.
  eexists. split; [reflexivity|].
  destruct (client_keeps_its_endpoint Reference.node local_options "http://localhost:5984" _
              [(1, 1, CreateDocument "db" january ""); (5, 5, GetUrlPath "_all_dbs")] 9 9
              (GetDocument "db" "doc" None) _ local_client eq_refl eq_refl)
    as (H1 & H2 & _ & _ & _ & H6 & _).
  split; [exact H1|]. split; [exact H2 | exact H6].
Defined.

(** X12.  A client never drops a header: one that its shared options hold is
    sent with every later request.  Its value changes only where a call writes
    it: the three headers of the payload block when a payload is encoded,
    [Destination] when a document is copied.  So the destination of a copy
    travels with every request made after it. *)
Theorem client_never_drops_a_header (P : Platform) (config : Factory.Config)
    (cs : list (Z * Z * Call)) (t0 t1 : Z) (c : Call) (o : HttpOptions) (r : Request)
    (h : string) (v : JsValue) :
  req_headers o !! h = Some v ->
  wire (fst (Factory.invoke P config t0 t1 c (after_calls P config cs o))) = Some r ->
  exists v', req_headers (options r) !! h = Some v'
             /\ (h ∉ content_headers ->
                 (h = "Destination" ->
                  forallb (fun c => negb (is_copy c)) (c :: map snd cs) = true) ->
                 v' = v).
Proof.
  intros Hh Hw.
  destruct (after_calls_keeps P config cs o) as [_ Hcs].
  destruct (Hcs h v Hh) as (v1 & Hv1 & E1).
  destruct (factory_call_keeps P config t0 t1 c (after_calls P config cs o)) as (_ & Hr & Hc).
  destruct (Hr r Hw) as (-> & _).
  destruct (Hc h v1 Hv1) as (v2 & Hv2 & E2).
  exists v2. split; [done|]. intros Hn Hd. rewrite E2, E1; try done.
  - intros Hdest. specialize (Hd Hdest). by apply andb_true_iff in Hd as [_ Hd].
  - intros Hdest. specialize (Hd Hdest). apply andb_true_iff in Hd as [Hd _].
    by apply negb_true_iff in Hd.
Qed.

Lemma client_never_drops_a_header_witness :
  exists r,
    wire (fst (Factory.getInfo Reference.node local_config 9 9
                 (after_calls Reference.node local_config
                    [(1, 1, CopyDocument "db" "a" "b"); (5, 5, GetDatabase "db")]
                    local_httpOptions))) = Some r
    /\ req_headers (options r) !! "Destination" = Some (JStr "b").
Proof.
  eexists. split; [reflexivity|].
  destruct (client_never_drops_a_header Reference.node local_config
              [(5, 5, GetDatabase "db")] 9 9 GetInfo
              (after_calls Reference.node local_config [(1, 1, CopyDocument "db" "a" "b")]
                 local_httpOptions) _ "Destination" (JStr "b") eq_refl eq_refl)
    as (v' & Hv' & E).
  assert (v' = JStr "b") as Hb; [|rewrite Hb in Hv'; exact Hv'].
  apply E; [|done].
  unfold content_headers. intros Hin.
  repeat (apply elem_of_cons in Hin as [Hin | Hin]; [discriminate Hin|]).
  by apply elem_of_nil in Hin.
Defined.

Lemma factory_payload_adds (P : Platform) (postData postContentType : JsValue)
    (hs : gmap string JsValue) (h : string) :
  is_Some (fst (Factory.payload P postData postContentType hs) !! h) ->
  is_Some (hs !! h) \/ h ∈ content_headers.
Proof.
  assert (Hct : "content-type" ∈ content_headers) by (by repeat constructor).
  assert (Hcl : "content-length" ∈ content_headers) by (by repeat constructor).
  assert (Hte : "Transfer-Encoding" ∈ content_headers) by (by repeat constructor).
  assert (Hone : forall k x, k ∈ content_headers ->
            is_Some (<[k := x]> hs !! h) -> is_Some (hs !! h) \/ h ∈ content_headers).
  { intros k x Hk H. apply insert_only in H as [H | ->]; [by left | by right]. }
  assert (Htwo : forall k1 k2 x1 x2, k1 ∈ content_headers -> k2 ∈ content_headers ->
            is_Some (<[k2 := x2]> (<[k1 := x1]> hs) !! h) ->
            is_Some (hs !! h) \/ h ∈ content_headers).
  { intros k1 k2 x1 x2 H1 H2 H. apply insert_only in H as [H | ->]; [|by right].
    apply insert_only in H as [H | ->]; [by left | by right]. }
  unfold Factory.payload.
  destruct (isBuffer postData); [by apply Htwo|].
  destruct (is_readable postData); [by apply Htwo|].
  destruct (is_plain_object postData).
  - destruct (byteLength_of P _); cbn [fst]; [by apply Htwo | by apply Hone].
  - destruct (is_string postData); [by apply Htwo|].
    destruct (truthy postData || is_null postData); cbn [fst]; by left.
Qed.

Lemma factory_call_adds (P : Platform) (config : Factory.Config) (t0 t1 : Z) (c : Call)
    (o : HttpOptions) (h : string) :
  is_Some (req_headers (snd (Factory.invoke P config t0 t1 c o)) !! h) ->
  is_Some (req_headers o !! h) \/ h ∈ content_headers
  \/ (h = "Destination" /\ is_copy c = true).
Proof.
  apply (factory_call_cases P config t0 t1
           (fun c o p =>
              is_Some (req_headers (snd p) !! h) ->
              is_Some (req_headers o !! h) \/ h ∈ content_headers
              \/ (h = "Destination" /\ is_copy c = true))).
  - intros c' e o'. by left.
  - intros c' o'. by left.
  - intros c' param o' Hcopy. unfold Factory.request.
    set (dest := get_prop (JObj (default [] (Factory.p_headers param))) "Destination").
    set (o1 := Factory.with_request o' (Factory.p_method param) ("/" +:+ Factory.p_path param)).
    set (o2 := if truthy dest
               then Factory.with_headers o1 (<["Destination" := dest]> (req_headers o1))
               else o1).
    assert (Ho2 : is_Some (req_headers o2 !! h) ->
              is_Some (req_headers o' !! h) \/ (h = "Destination" /\ is_copy c' = true)).
    { unfold o2. destruct (truthy dest) eqn:Hd; simpl; [|by left].
      intros H. apply insert_only in H as [H | ->]; [by left|]. right. split; [done|].
      destruct (is_copy c'); [done|]. unfold dest in Hd. by rewrite Hcopy in Hd. }
    pose proof (factory_payload_adds P (Factory.p_postData param)
                  (Factory.p_postContentType param) (req_headers o2) h) as Hpl.
    assert (Hall : is_Some (fst (Factory.payload P (Factory.p_postData param)
                                   (Factory.p_postContentType param) (req_headers o2)) !! h) ->
              is_Some (req_headers o' !! h) \/ h ∈ content_headers
              \/ (h = "Destination" /\ is_copy c' = true)).
    { intros H. apply Hpl in H as [H | H]; [|by right; left].
      apply Ho2 in H as [H | H]; [by left | by right; right]. }
    clear Hpl. destruct (Factory.payload P _ _ (req_headers o2)) as [hs [pl|e]];
      [destruct (truthy (error pl))|]; exact Hall.
  - intros c' param o'. unfold Factory.requestStream.
    destruct (negb _); simpl; by left.
Qed.

Lemma after_calls_adds (P : Platform) (config : Factory.Config) (cs : list (Z * Z * Call))
    (o : HttpOptions) (h : string) :
  is_Some (req_headers (after_calls P config cs o) !! h) ->
  is_Some (req_headers o !! h) \/ h ∈ content_headers
  \/ (h = "Destination" /\ existsb is_copy (map snd cs) = true).
Proof.
  revert o. induction cs as [|[[t0 t1] c] cs IH]; intros o; [by left|].
  change (after_calls P config ((t0, t1, c) :: cs) o)
    with (after_calls P config cs (snd (Factory.invoke P config t0 t1 c o))).
  intros H. apply IH in H as [H | [H | [-> H]]].
  - apply factory_call_adds in H as [H | [H | [-> H]]]; [by left | by right; left |].
    right; right. split; [done|]. simpl. by rewrite H.
  - by right; left.
  - right; right. split; [done|]. simpl. rewrite H. by destruct (is_copy c).
Qed.

(** X13.  A client sends no header of its own making but the three of the
    payload block and [Destination]: every header of a request was in the
    shared options before the calls, or is one of those four, and
    [Destination] is there only once a document was copied.  A client fresh
    from the constructor thus sends its user agent, the accept header, and
    nothing else until a payload or a copy adds to them. *)
Theorem client_sends_only_known_headers (P : Platform) (config : Factory.Config)
    (cs : list (Z * Z * Call)) (t0 t1 : Z) (c : Call) (o : HttpOptions) (r : Request)
    (h : string) :
  wire (fst (Factory.invoke P config t0 t1 c (after_calls P config cs o))) = Some r ->
  is_Some (req_headers (options r) !! h) ->
  is_Some (req_headers o !! h) \/ h ∈ content_headers
  \/ (h = "Destination" /\ existsb is_copy (c :: map snd cs) = true).
Proof.
  intros Hw Hh.
  destruct (factory_call_keeps P config t0 t1 c (after_calls P config cs o)) as (_ & Hr & _).
  destruct (Hr r Hw) as (Ho & _). rewrite Ho in Hh.
  apply factory_call_adds in Hh as [Hh | [Hh | [-> Hh]]].
  - apply after_calls_adds in Hh as [Hh | [Hh | [-> Hh]]]; [by left | by right; left |].
    right; right. split; [done|]. simpl. rewrite Hh. by destruct (is_copy c).
  - by right; left.
  - right; right. split; [done|]. simpl. by rewrite Hh.
Qed.

Lemma client_sends_only_known_headers_witness :
  exists r,
    wire (fst (Factory.getDocument Reference.node local_config 9 9 "db" "doc" None
                 (after_calls Reference.node local_config [(1, 1, GetInfo)] local_httpOptions)))
      = Some r
    /\ req_headers (options r) !! "Destination" = None.
Proof.
  eexists. split; [reflexivity|].
  destruct (req_headers _ !! "Destination") as [v|] eqn:E; [|reflexivity].
  destruct (client_sends_only_known_headers Reference.node local_config [(1, 1, GetInfo)]
              9 9 (GetDocument "db" "doc" None) local_httpOptions _ "Destination" eq_refl
              (ex_intro _ v E)) as [H | [H | [_ H]]].
  - destruct H as [x Hx]. discriminate Hx.
  - unfold content_headers in H.
    repeat (apply elem_of_cons in H as [H | H]; [discriminate H|]).
    by apply elem_of_nil in H.
  - discriminate H.
Defined.

(** X14.  [copyDocument] needs both ids.  Given both, it sends a COPY request
    for the source document, whose id is escaped in the path, with the id of
    the new document as it is in the [Destination] header, and no body.  Given
    an empty or missing id, it does nothing and returns no promise at all,
    leaving the client as it was. *)
Theorem copyDocument_needs_both_ids (P : Platform) (config : Factory.Config) (t0 t1 : Z)
    (dbName docId newDocId : string) (o : HttpOptions) :
  (docId <> "" -> newDocId <> "" ->
   exists r k,
     fst (Factory.copyDocument P config t0 t1 dbName docId newDocId o) = Sent r k
     /\ method (options r) = Some "COPY"
     /\ path (options r)
        = Some ("/" +:+ encodeURIComponent dbName +:+ "/" +:+ encodeURIComponent docId)
     /\ req_headers (options r) = <["Destination" := JStr newDocId]> (req_headers o)
     /\ written r = WriteNothing)
  /\ (docId = "" \/ newDocId = "" ->
      Factory.copyDocument P config t0 t1 dbName docId newDocId o = (NoPromise, o)).
Proof.
  unfold Factory.copyDocument. split.
  - intros Hd Hn. rewrite !truthy_text by done. cbn [andb].
    unfold Factory.request.
    cbn [Factory.p_headers Factory.p_postData Factory.p_postContentType Factory.p_path
         Factory.p_method].
    change (get_prop (JObj (default [] (Some [("Destination", JStr newDocId)]))) "Destination")
      with (JStr newDocId).
    rewrite truthy_text by done. by eexists _, _.
  - intros [-> | ->]; [done|]. by destruct (truthy (JStr docId)).
Qed.

Lemma copyDocument_needs_both_ids_witness :
  (exists r k,
     fst (Factory.copyDocument Reference.node local_config 0 0 "db" "a/b" "c" local_httpOptions)
     = Sent r k
     /\ path (options r) = Some "/db/a%2Fb"
     /\ req_headers (options r) !! "Destination" = Some (JStr "c"))
  /\ Factory.copyDocument Reference.node local_config 0 0 "db" "doc" "" local_httpOptions
     = (NoPromise, local_httpOptions).
Proof.
  destruct (copyDocument_needs_both_ids Reference.node local_config 0 0 "db" "a/b" "c"
              local_httpOptions) as [H _].
  destruct (copyDocument_needs_both_ids Reference.node local_config 0 0 "db" "doc" ""
              local_httpOptions) as [_ H'].
  split; [|apply H'; by right].
  destruct (H ltac:(done) ltac:(done)) as (r & k & Hk & _ & Hp & Hh & _).
  exists r, k. split; [exact Hk|]. split; [exact Hp|].
  rewrite Hh. reflexivity.
Defined.

(** ** Paths and query strings *)

Lemma nat_of_hex_digit (n : nat) :
  (n < 16)%nat -> nat_of_ascii (hex_digit true n) = (if (n <? 10)%nat then 48 + n else 55 + n)%nat.
Proof.
  intros Hn. unfold hex_digit.
  destruct (n <? 10)%nat; apply nat_ascii_embedding; lia.
Qed.

Lemma hex_digit_injective (n m : nat) :
  (n < 16)%nat -> (m < 16)%nat -> hex_digit true n = hex_digit true m -> n = m.
Proof.
  intros Hn Hm H. apply (f_equal nat_of_ascii) in H.
  rewrite !nat_of_hex_digit in H by done.
  destruct (Nat.ltb_spec n 10), (Nat.ltb_spec m 10); lia.
Qed.

Lemma append_cons (c : ascii) (a b : string) : String c a +:+ b = String c (a +:+ b).
Proof. reflexivity. Qed.

Lemma append_nil (b : string) : "" +:+ b = b.
Proof. reflexivity. Qed.

Lemma append_assoc (a b c : string) : (a +:+ b) +:+ c = a +:+ (b +:+ c).
Proof.
  induction a as [|x a IH]; [done|]. by rewrite !append_cons, IH.
Qed.

Lemma percent_byte_head (c : ascii) (r : string) :
  exists d r', percent_byte c +:+ r = String d r' /\ delimiter d = false.
Proof.
  unfold percent_byte, delimiter. destruct (unreserved c) eqn:Hc.
  - exists c, r. by rewrite Hc.
  - by eexists _, _.
Qed.

Lemma percent_byte_split (c1 c2 : ascii) (r1 r2 : string) :
  percent_byte c1 +:+ r1 = percent_byte c2 +:+ r2 -> c1 = c2 /\ r1 = r2.
Proof.
  unfold percent_byte.
  destruct (unreserved c1) eqn:H1, (unreserved c2) eqn:H2;
    rewrite ?append_cons, ?append_nil.
  - by intros [= -> ->].
  - intros [= -> _]. discriminate H1.
  - intros [= <- _]. discriminate H2.
  - pose proof (nat_ascii_bounded c1) as B1. pose proof (nat_ascii_bounded c2) as B2.
    pose proof (Nat.div_mod_eq (nat_of_ascii c1) 16) as D1.
    pose proof (Nat.div_mod_eq (nat_of_ascii c2) 16) as D2.
    assert (nat_of_ascii c1 / 16 < 16)%nat as Q1 by (apply Nat.Div0.div_lt_upper_bound; lia).
    assert (nat_of_ascii c2 / 16 < 16)%nat as Q2 by (apply Nat.Div0.div_lt_upper_bound; lia).
    assert (nat_of_ascii c1 mod 16 < 16)%nat as M1 by (apply Nat.mod_upper_bound; lia).
    assert (nat_of_ascii c2 mod 16 < 16)%nat as M2 by (apply Nat.mod_upper_bound; lia).
    revert D1 D2 Q1 Q2 M1 M2.
    generalize (nat_of_ascii c1 / 16)%nat (nat_of_ascii c1 mod 16)%nat
               (nat_of_ascii c2 / 16)%nat (nat_of_ascii c2 mod 16)%nat.
    intros q1 m1 q2 m2 D1 D2 Q1 Q2 M1 M2 [= Hhi Hlo ->]. split; [|done].
    apply hex_digit_injective in Hhi; [|done..].
    apply hex_digit_injective in Hlo; [|done..].
    rewrite <- (ascii_nat_embedding c1), <- (ascii_nat_embedding c2). f_equal. lia.
Qed.

Lemma encodeURIComponent_cons (c : ascii) (a : string) :
  encodeURIComponent (String c a) = percent_byte c +:+ encodeURIComponent a.
Proof. reflexivity. Qed.

(** An encoded segment followed by a delimiter is read back in one way. *)
Lemma segment_unambiguous (a a' x x' : string) :
  delimited x = true -> delimited x' = true ->
  encodeURIComponent a +:+ x = encodeURIComponent a' +:+ x' -> a = a' /\ x = x'.
Proof.
  intros Hx Hx'. revert a'.
  induction a as [|c a IH]; intros [|c' a'];
    rewrite ?encodeURIComponent_cons; change (encodeURIComponent "") with "";
    rewrite ?append_nil.
  - done.
  - intros H. destruct (percent_byte_head c' (encodeURIComponent a' +:+ x')) as (d & r' & E & Hd).
    rewrite append_assoc, E in H. subst x. simpl in Hx. congruence.
  - intros H. destruct (percent_byte_head c (encodeURIComponent a +:+ x)) as (d & r' & E & Hd).
    rewrite append_assoc, E in H. subst x'. simpl in Hx'. congruence.
  - rewrite !append_assoc. intros H. apply percent_byte_split in H as [-> H].
    apply IH in H as [-> ->]. done.
Qed.

Lemma createQueryString_delimited (q : option (list (string * JsValue))) (s : string) :
  Legacy.createQueryString q = Return s -> delimited s = true.
Proof.
  unfold Legacy.createQueryString.
  destruct (Legacy.stringify_keys _ _) as [obj|]; [|done]. simpl.
  intros [= <-]. by destruct (length obj =? 0)%nat.
Qed.

(** X15.  The path of a request for a document tells the database, the
    document and the query apart: two calls of [getDocument] that put the same
    path on the wire were given the same database name, the same document id
    and queries with the same query string.  No name or id can add a segment
    or a query to the path, since their slashes and question marks are
    escaped. *)
Theorem document_paths_are_unambiguous (P : Platform) (config config' : Factory.Config)
    (t0 t1 t0' t1' : Z) (dbName docId dbName' docId' : string)
    (q q' : option (list (string * JsValue))) (o o' : HttpOptions) (r r' : Request) :
  wire (fst (Factory.getDocument P config t0 t1 dbName docId q o)) = Some r ->
  wire (fst (Factory.getDocument P config' t0' t1' dbName' docId' q' o')) = Some r' ->
  path (options r) = path (options r') ->
  dbName = dbName' /\ docId = docId'
  /\ Factory.createQueryString q = Factory.createQueryString q'.
Proof.
  unfold Factory.getDocument.
  rewrite (createQueryString_agree q), (createQueryString_agree q').
  destruct (Legacy.createQueryString q) as [s|] eqn:Hq; [|done].
  destruct (Legacy.createQueryString q') as [s'|] eqn:Hq'; [|done].
  apply createQueryString_delimited in Hq, Hq'.
  unfold Factory.request. cbn [Factory.p_headers Factory.p_postData Factory.p_postContentType
    Factory.p_path Factory.p_method default get_prop assoc truthy Factory.payload isBuffer
    is_readable is_plain_object is_string is_null orb andb is_function error fst snd wire].
  intros [= <-] [= <-]. cbn [options path Factory.with_headers Factory.with_request].
  intros [= H].
  apply segment_unambiguous in H as [-> H]; [|done..].
  injection H as H.
  apply segment_unambiguous in H as [-> ->]; done.
Qed.

Lemma document_paths_are_unambiguous_witness :
  "a/b" = "a/b" /\ "c" = "c"
  /\ Factory.createQueryString None = Factory.createQueryString (Some []).
Proof.
  apply (document_paths_are_unambiguous Reference.node local_config local_config 0 0 1 1
           "a/b" "c" "a/b" "c" None (Some []) local_httpOptions local_httpOptions _ _
           eq_refl eq_refl eq_refl).
Defined.

Lemma all_chars_append (p : ascii -> bool) (a b : string) :
  all_chars p (a +:+ b) = all_chars p a && all_chars p b.
Proof.
  unfold all_chars. induction a as [|c a IH]; [done|].
  rewrite append_cons. simpl. by rewrite IH, andb_assoc.
Qed.

Lemma all_chars_join (p : ascii -> bool) (sep : string) (l : list string) :
  all_chars p sep = true -> Forall (fun s => all_chars p s = true) l ->
  all_chars p (join sep l) = true.
Proof.
  intros Hsep. induction 1 as [|s l Hs Hl IH]; [done|].
  destruct l as [|s' l]; [done|].
  change (join sep (s :: s' :: l)) with (s +:+ sep +:+ join sep (s' :: l)).
  by rewrite !all_chars_append, Hs, Hsep, IH.
Qed.

Lemma hex_digit_unreserved (n : nat) : (n < 16)%nat -> unreserved (hex_digit true n) = true.
Proof.
  intros Hn. do 16 (destruct n as [|n]; [reflexivity|]). lia.
Qed.

Lemma percent_byte_query (c : ascii) : all_chars query_char (percent_byte c) = true.
Proof.
  unfold percent_byte.
  destruct (unreserved c) eqn:Hc.
  - unfold all_chars, query_char. simpl. by rewrite Hc.
  - pose proof (nat_ascii_bounded c) as B.
    assert (unreserved (hex_digit true (nat_of_ascii c / 16)) = true) as H1
      by (apply hex_digit_unreserved, Nat.Div0.div_lt_upper_bound; lia).
    assert (unreserved (hex_digit true (nat_of_ascii c mod 16)) = true) as H2
      by (apply hex_digit_unreserved, Nat.mod_upper_bound; lia).
    revert H1 H2.
    generalize (hex_digit true (nat_of_ascii c / 16)) (hex_digit true (nat_of_ascii c mod 16)).
    intros h1 h2 H1 H2. unfold all_chars, query_char. simpl. by rewrite H1, H2.
Qed.

Lemma escape_query (s : string) : all_chars query_char (querystring_escape s) = true.
Proof.
  unfold querystring_escape. induction s as [|c s IH]; [done|].
  cbn [concat_map]. by rewrite all_chars_append, percent_byte_query, IH.
Qed.

Lemma qs_fields_query (kv : string * JsValue) :
  Forall (fun s => all_chars query_char s = true) (qs_fields kv).
Proof.
  unfold qs_fields.
  assert (Hfield : forall v,
            all_chars query_char
              ((querystring_escape (fst kv) +:+ "=")
               +:+ querystring_escape (stringifyPrimitive v)) = true).
  { intros v. by rewrite !all_chars_append, !escape_query. }
  destruct (snd kv); try (by apply Forall_cons).
  apply Forall_forall. intros s Hs. apply list_elem_of_In, in_map_iff in Hs as (v & <- & _).
  apply Hfield.
Qed.

Lemma stringify_query (obj : list (string * JsValue)) :
  all_chars query_char (querystring_stringify obj) = true.
Proof.
  unfold querystring_stringify. apply all_chars_join; [done|].
  induction obj as [|kv obj IH]; simpl; [done|].
  apply Forall_app. split; [apply qs_fields_query | done].
Qed.

(** X16.  The query string either module builds holds only characters that are
    safe in a URL: the unreserved ones, the percent sign of an escape, and the
    question mark, the ampersand and the equals sign of its syntax.  No key
    and no value, JSON text included, leaves a space, a quote, a slash or a
    hash sign in it. *)
Theorem query_string_is_url_safe (q : option (list (string * JsValue))) (s : string) :
  Legacy.createQueryString q = Return s \/ Factory.createQueryString q = Return s ->
  forallb query_char (list_ascii_of_string s) = true.
Proof.
  intros Hs.
  assert (Legacy.createQueryString q = Return s) as H.
  { destruct Hs as [H | H]; [done|].
    etrans; [symmetry; apply createQueryString_agree | exact H]. }
  unfold Legacy.createQueryString in H.
  destruct (Legacy.stringify_keys _ _) as [obj|]; [|done]. simpl in H.
  injection H as <-.
  destruct (length obj =? 0)%nat; [done|].
  change (all_chars query_char ("?" +:+ querystring_stringify obj) = true).
  by rewrite all_chars_append, stringify_query.
Qed.

Lemma query_string_is_url_safe_witness :
  forallb query_char
    (list_ascii_of_string "?key=%22a%20b%2F%23%22&limit=10") = true.
Proof.
  apply (query_string_is_url_safe (Some [("key", JStr "a b/#"); ("limit", JNum 10)])).
  left. reflexivity.
Defined.

(** ** The two checks of the base endpoint *)

(** X17.  The constructor of the factory module is the stricter of the two
    checks: a base endpoint it accepts, its port being decimal as [url.parse]
    reports ports, is a URL the free-function module accepts too.  (The
    converse fails for an endpoint without a port, which only the
    free-function module accepts.) *)
Theorem factory_check_is_stricter (P : Platform) (opt : Factory.Options) (b : string)
    (client : Factory.Client) :
  Factory.factory P opt = Return client ->
  Factory.baseUrl opt = Some b ->
  decimal_port (url_port (urlParse P b)) ->
  Legacy.isValidUrl P b = true.
Proof.
  intros Hf Hb Hport. unfold Factory.factory in Hf. rewrite Hb in Hf.
  destruct (negb _) eqn:Hcheck; [done|].
  apply negb_false_iff in Hcheck.
  apply andb_true_iff in Hcheck as [Hcheck Hhost].
  apply andb_true_iff in Hcheck as [Hcheck _].
  apply andb_true_iff in Hcheck as [Hproto Hslashes].
  apply bool_decide_eq_true in Hslashes.
  unfold Legacy.isValidUrl.
  rewrite Hproto, Hhost, Hslashes, (decimal_port_is_a_number _ Hport). done.
Qed.

Lemma factory_check_is_stricter_witness :
  Legacy.isValidUrl Reference.node "http://localhost:5984" = true.
Proof.
  apply (factory_check_is_stricter Reference.node local_options "http://localhost:5984" _
           local_client eq_refl).
  reflexivity.
Defined.

(** ** The timeout of the free-function module *)

(** X18.  [setTimeout] changes the timeout only to a number that is not
    negative; given anything else it leaves the timeout as it is.  Either way
    it returns the timeout now in force, which is what [getTimeout] returns
    next and what the next request is made with; a timeout that was not
    negative never becomes negative. *)
Theorem setTimeout_keeps_a_valid_timeout (P : Platform) (requestTimeout : Z) (t : JsValue) :
  let returned := fst (Legacy.setTimeout requestTimeout t) in
  let after := snd (Legacy.setTimeout requestTimeout t) in
  returned = after
  /\ Legacy.getTimeout after = returned
  /\ (forall n, t = JNum n -> 0 <= n -> after = n)
  /\ ((forall n, t = JNum n -> n < 0) -> after = requestTimeout)
  /\ (0 <= requestTimeout -> 0 <= after)
  /\ (forall param r k, Legacy.request P after param = Sent r k -> timeout r = after).
Proof.
  cbv zeta. unfold Legacy.setTimeout, Legacy.getTimeout.
  assert (Hreq : forall rt param r k, Legacy.request P rt param = Sent r k -> timeout r = rt).
  { intros rt param r k. unfold Legacy.request.
    destruct (negb _); [done|].
    destruct (Legacy.payload _ _ _ _) as [hs [pl|e]]; [|done].
    destruct (truthy (error pl)); [done|]. by intros [= <- _]. }
  destruct t as [| | |n| | | | | | |]; simpl;
    try (repeat split; try done; try (by intros; eapply Hreq); intros n' [= ]).
  destruct (Z.leb_spec 0 n); simpl; repeat split; try done; try (by intros; eapply Hreq).
  - by intros n' [= <-].
  - intros Hneg. specialize (Hneg n eq_refl). lia.
  - intros n' [= <-]. lia.
Qed.

Lemma setTimeout_keeps_a_valid_timeout_witness :
  snd (Legacy.setTimeout 10000 (JNum 250)) = 250
  /\ snd (Legacy.setTimeout 10000 (JNum (-5))) = 10000
  /\ snd (Legacy.setTimeout 10000 (JStr "250")) = 10000.
Proof.
  destruct (setTimeout_keeps_a_valid_timeout Reference.node 10000 (JNum 250))
    as (_ & _ & H1 & _).
  destruct (setTimeout_keeps_a_valid_timeout Reference.node 10000 (JNum (-5)))
    as (_ & _ & _ & H2 & _).
  destruct (setTimeout_keeps_a_valid_timeout Reference.node 10000 (JStr "250"))
    as (_ & _ & _ & H3 & _).
  split; [exact (H1 250 eq_refl ltac:(lia))|]. split.
  - apply H2. intros n [= <-]. lia.
  - apply H3. intros n [= ].
Defined.

(** ** Payloads and answers *)

(** X19.  A plain object that does not serialise is handled as the platform
    has it, in both modules: the error [JSON.stringify] threw is recorded,
    then the byte length of the missing text is asked for.  Where that is a
    number the call is refused with the status-400 envelope that holds the
    error; where it throws, the call throws instead of returning a promise.
    The factory module has written the content type to the shared options by
    then. *)
Theorem payload_that_does_not_serialise (P : Platform) (requestTimeout : Z) (url : string)
    (config : Factory.Config) (t0 t1 : Z) (p : string) (o : HttpOptions)
    (m : option string) (codes : option (gmap Z string))
    (postData postContentType err : JsValue) :
  payload_kind postData = IsObject ->
  JSON_stringify postData = Throw err ->
  truthy err = true ->
  (Legacy.isValidUrl P url = true ->
   Legacy.request P requestTimeout
     {| Legacy.p_url := url; Legacy.p_method := m; Legacy.p_statusCodes := codes;
        Legacy.p_postData := postData; Legacy.p_postContentType := postContentType;
        Legacy.p_stream := JUndefined |}
   = refused_or_thrown P (Legacy.invalid_post_data err))
  /\ fst (Factory.request P config t0 t1
            {| Factory.p_path := p; Factory.p_method := m; Factory.p_headers := None;
               Factory.p_statusCodes := codes; Factory.p_postData := postData;
               Factory.p_postContentType := postContentType;
               Factory.p_stream := JUndefined |} o)
     = refused_or_thrown P (Factory.invalid_post_data t0 t1 err)
  /\ req_headers
       (snd (Factory.request P config t0 t1
               {| Factory.p_path := p; Factory.p_method := m; Factory.p_headers := None;
                  Factory.p_statusCodes := codes; Factory.p_postData := postData;
                  Factory.p_postContentType := postContentType;
                  Factory.p_stream := JUndefined |} o)) !! "content-type"
     = Some (JStr "application/json").
Proof.
  intros Hk He Ht. split.
  - intros Hv. by apply unserialisable_payload.
  - unfold payload_kind in Hk. unfold Factory.request, Factory.payload, refused_or_thrown.
    cbn [Factory.p_headers Factory.p_postData Factory.p_postContentType default get_prop
         assoc truthy].
    destruct (isBuffer postData); [done|].
    destruct (is_readable postData); [done|].
    destruct (is_plain_object postData); [|by destruct (is_string postData)].
    rewrite He. cbn [byteLength_of].
    destruct (byteLength_undefined P) as [n|e]; cbn [error fst snd]; [rewrite Ht|]; simpl.
    + split; [done|]. rewrite lookup_insert_ne by done. by rewrite lookup_insert_eq.
    + split; [done|]. by rewrite lookup_insert_eq.
Qed.

Lemma payload_that_does_not_serialise_witness :
  Legacy.request Reference.node 10000
    {| Legacy.p_url := "http://localhost:5984/db"; Legacy.p_method := Some "POST";
       Legacy.p_statusCodes := None; Legacy.p_postData := JCircular [];
       Legacy.p_postContentType := JUndefined; Legacy.p_stream := JUndefined |}
  = Threw (JError "TypeError" "The first argument must be of type string or an instance of Buffer")
  /\ fst (Factory.request Reference.node6 local_config 0 2
            {| Factory.p_path := "db"; Factory.p_method := Some "POST";
               Factory.p_headers := None; Factory.p_statusCodes := None;
               Factory.p_postData := JCircular []; Factory.p_postContentType := JUndefined;
               Factory.p_stream := JUndefined |} local_httpOptions)
     = Settled (Rejected
                  {| headers := ∅;
                     data := Some (JObj [("error",
                               JError "TypeError" "Converting circular structure to JSON")]);
                     status := 400; message := JStr "invalid post data";
                     duration := Some 2 |}).
Proof.
  split.
  - exact (proj1 (payload_that_does_not_serialise Reference.node 10000
                    "http://localhost:5984/db" local_config 0 0 "db" local_httpOptions
                    (Some "POST") None (JCircular []) JUndefined _ eq_refl eq_refl eq_refl)
             eq_refl).
  - exact (proj1 (proj2 (payload_that_does_not_serialise Reference.node6 10000
                           "http://localhost:5984/db" local_config 0 2 "db" local_httpOptions
                           (Some "POST") None (JCircular []) JUndefined _ eq_refl eq_refl
                           eq_refl))).
Defined.

Lemma bulk_assign (docs : JsValue) (opts acc : list (string * JsValue)) :
  NoDup (acc.*1 ++ opts.*1)%list -> "docs" ∉ acc.*1 ->
  obj_assign (("docs", docs) :: acc) opts
  = (("docs", default docs (assoc "docs" opts))
     :: acc ++ filter (fun kv => negb (String.eqb (fst kv) "docs")) opts)%list.
Proof.
  unfold obj_assign. revert docs acc.
  induction opts as [|[k v] opts IH]; intros docs acc Hnd Hacc.
  - simpl. by rewrite app_nil_r.
  - cbn [fold_left fst snd obj_set assoc].
    rewrite fmap_cons in Hnd. cbn [fst] in Hnd.
    assert (Hk : (k ∉ acc.*1) /\ (k ∉ opts.*1) /\ NoDup (acc.*1 ++ opts.*1)%list).
    { apply NoDup_app in Hnd as (Ha & Hd & Ho). apply NoDup_cons in Ho as [Hko Ho].
      repeat split; [| done |].
      - intros Hin. apply (Hd k Hin). apply list_elem_of_here.
      - apply NoDup_app. repeat split; [done | | done].
        intros x Hx Hxo. apply (Hd x Hx). by apply list_elem_of_further. }
    destruct Hk as (Hka & Hko & Hnd').
    rewrite (String.eqb_sym "docs" k). rewrite filter_cons. cbn [fst].
    destruct (String.eqb_spec k "docs") as [->|Hne].
    + rewrite decide_False by (intros H; done). rewrite (IH v acc Hnd' Hacc).
      by rewrite (proj2 (assoc_None "docs" opts) Hko).
    + rewrite decide_True by done.
      rewrite (obj_set_fresh k v acc Hka).
      rewrite (IH docs (acc ++ [(k, v)])%list).
      * by rewrite <- app_assoc.
      * rewrite fmap_app, <- app_assoc. simpl.
        apply NoDup_app in Hnd as (Ha & Hd & Ho).
        apply NoDup_app. repeat split; [done | | done].
        intros x Hx. apply (Hd x Hx).
      * rewrite fmap_app. simpl. intros Hin. apply elem_of_app in Hin as [Hin | Hin]; [done|].
        apply list_elem_of_singleton in Hin. by destruct Hne.
Qed.

(** X20.  [createBulkDocuments] posts one JSON object: the documents under
    [docs], then the options in their order (none of them being named by a
    number, which JavaScript would enumerate first).  Options that name [docs]
    themselves replace the documents of the call.  Unless the options make the
    object pass for a readable stream, it is sent as its JSON text with
    content type application/json and the byte length of the text, in both
    modules. *)
Theorem bulk_documents_travel_under_docs (P : Platform) (requestTimeout : Z) (b : string)
    (config : Factory.Config) (t0 t1 : Z) (o : HttpOptions) (dbName : string)
    (docs : JsValue) (opts : list (string * JsValue)) (s : string) :
  NoDup opts.*1 ->
  Forall (fun k => starts_with_digit (list_ascii_of_string k) = false) opts.*1 ->
  is_readable (bulk_body docs opts) = false ->
  JSON_stringify (bulk_body docs opts) = Return (Some s) ->
  (Legacy.isValidUrl P (b +:+ "/" +:+ encodeURIComponent dbName +:+ "/_bulk_docs") = true ->
   sends (Legacy.createBulkDocuments P requestTimeout b dbName docs (Some opts))
     (json_headers base_headers s) (WriteText s))
  /\ sends (fst (Factory.createBulkDocuments P config t0 t1 dbName docs (Some opts) o))
       (json_headers (req_headers o) s) (WriteText s).
Proof.
  intros Hnd _ Hr Hs.
  assert (Hkind : payload_kind (bulk_body docs opts) = IsObject).
  { unfold payload_kind. by rewrite Hr. }
  assert (Hbody : JObj (obj_assign [("docs", docs)] (default [] (Some opts)))
                  = bulk_body docs opts).
  { unfold bulk_body. change (default [] (Some opts)) with opts.
    rewrite (bulk_assign docs opts []); [done | done | apply not_elem_of_nil]. }
  unfold Legacy.createBulkDocuments, Factory.createBulkDocuments. cbv zeta.
  rewrite Hbody. split.
  - intros Hv.
    pose proof (legacy_payload_dispatch P requestTimeout _
                  (Some "POST") (Some Legacy.createBulkDocuments_codes) JUndefined Hv
                  (bulk_body docs opts) JUndefined) as H.
    rewrite Hkind in H. exact (H s Hs).
  - pose proof (factory_payload_dispatch P config t0 t1
                  (encodeURIComponent dbName +:+ "/_bulk_docs")
                  (Some "POST") (Some Factory.createBulkDocuments_codes) JUndefined o
                  (bulk_body docs opts) JUndefined) as H.
    rewrite Hkind in H. exact (H s Hs).
Qed.

Lemma bulk_documents_travel_under_docs_witness :
  sends (fst (Factory.createBulkDocuments Reference.node local_config 0 0 "db"
                (JArr [january]) (Some [("new_edits", JBool false); ("docs", JArr [])])
                local_httpOptions))
    (json_headers (req_headers local_httpOptions)
       ("{" +:+ json_quote "docs" +:+ ":[]," +:+ json_quote "new_edits" +:+ ":false}"))
    (WriteText ("{" +:+ json_quote "docs" +:+ ":[]," +:+ json_quote "new_edits" +:+ ":false}")).
Proof.
  apply (proj2 (bulk_documents_travel_under_docs Reference.node 10000 "http://localhost:5984"
                  local_config 0 0 local_httpOptions "db" (JArr [january])
                  [("new_edits", JBool false); ("docs", JArr [])] _
                  ltac:(apply (bool_decide_unpack _); by vm_compute)
                  ltac:(by repeat constructor) eq_refl eq_refl)).
Defined.

(** X21.  The free-function module fulfils the promise of a call other than
    the download for every answer that ends, whatever its status: with the
    headers of the response, and with its status, or with status 500 when the
    body is not JSON. *)
Theorem legacy_fulfils_every_answer (P : Platform) (requestTimeout : Z) (b : string) (c : Call)
    (r : Request) (k : Trace -> Settlement) (t_res code : Z) (hs : gmap string JsValue)
    (chunks : list (Z * string)) (t_end : Z) :
  is_download c = false ->
  Legacy.invoke P requestTimeout b c = Some (Sent r k) ->
  exists e, k (exchange t_res code hs chunks t_end) = Fulfilled e
            /\ headers e = hs /\ (status e = code \/ status e = 500).
Proof.
  intros Hdl Hinv.
  refine (legacy_buffered_call P requestTimeout
            (fun res => forall r k, res = Sent r k ->
               exists e, k (exchange t_res code hs chunks t_end) = Fulfilled e
                         /\ headers e = hs /\ (status e = code \/ status e = 500))
            _ _ b c _ Hdl Hinv r k eq_refl); [done|].
  intros param r' k' Hk. rewrite (legacy_request_sent _ _ _ _ _ Hk), legacy_exchange.
  eexists. split; [reflexivity|]. unfold Legacy.on_end.
  destruct (JSON_parse P _); simpl; [by split; [|left] | by split; [|right]].
Qed.

Lemma legacy_fulfils_every_answer_witness :
  exists r k e,
    Legacy.deleteDocument Reference.node 10000 "http://localhost:5984" "db" "doc" "1-a"
    = Sent r k
    /\ k (exchange 1 409 ∅ [(2, "{}")] 3) = Fulfilled e /\ status e = 409.
Proof.
  destruct (legacy_fulfils_every_answer Reference.node 10000 "http://localhost:5984"
              (DeleteDocument "db" "doc" "1-a") _ _ 1 409 ∅ [(2, "{}")] 3 eq_refl eq_refl)
    as (e & He & _ & _).
  eexists _, _, _. split; [reflexivity|]. split; reflexivity.
Defined.

(** X22.  Only the text of the body counts, not the chunks it arrives in nor
    the time of the response: two answers with the same status, headers and
    end whose chunks add up to the same text settle a call alike, in both
    modules. *)
Theorem chunking_does_not_matter (P : Platform) (requestTimeout : Z) (config : Factory.Config)
    (t0 t1 : Z) (b : string) (c : Call) (o : HttpOptions) (r : Request)
    (k : Trace -> Settlement) (t_res t_res' code : Z) (hs : gmap string JsValue)
    (chunks chunks' : list (Z * string)) (t_end : Z) :
  is_download c = false ->
  Legacy.invoke P requestTimeout b c = Some (Sent r k)
  \/ fst (Factory.invoke P config t0 t1 c o) = Sent r k ->
  body_of chunks = body_of chunks' ->
  k (exchange t_res code hs chunks t_end) = k (exchange t_res' code hs chunks' t_end).
Proof.
  intros Hdl [H | H] Hbody.
  - refine (legacy_buffered_call P requestTimeout
              (fun res => forall r k, res = Sent r k ->
                 k (exchange t_res code hs chunks t_end)
                 = k (exchange t_res' code hs chunks' t_end))
              _ _ b c _ Hdl H r k eq_refl); [done|].
    intros param r' k' Hk. rewrite (legacy_request_sent _ _ _ _ _ Hk), !legacy_exchange.
    by rewrite Hbody.
  - refine (factory_buffered_call P config t0 t1
              (fun res => forall r k, res = Sent r k ->
                 k (exchange t_res code hs chunks t_end)
                 = k (exchange t_res' code hs chunks' t_end))
              _ _ _ c o Hdl r k H); [done | done |].
    intros param o' r' k' Hk.
    destruct (Factory.request P config t0 t1 param o') as [res o2] eqn:E.
    simpl in Hk. subst res. rewrite (factory_request_sent _ _ _ _ _ _ _ _ _ E).
    rewrite !factory_exchange. by rewrite Hbody.
Qed.

Lemma chunking_does_not_matter_witness :
  exists r k,
    fst (Factory.getInfo Reference.node local_config 0 0 local_httpOptions) = Sent r k
    /\ k (exchange 1 200 ∅ [(2, "{"); (3, "}")] 4) = k (exchange 2 200 ∅ [(3, "{}")] 4).
Proof.
  eexists _, _. split; [reflexivity|].
  exact (chunking_does_not_matter Reference.node 10000 local_config 0 0
           "http://localhost:5984" GetInfo local_httpOptions _ _ 1 2 200 ∅
           [(2, "{"); (3, "}")] [(3, "{}")] 4 eq_refl (or_intror eq_refl) eq_refl).
Defined.

(** ** The headers of the free-function module *)

Lemma legacy_call_cases (P : Platform) (requestTimeout : Z) (Q : Call -> CallResult -> Prop) :
  (forall c e, Q c (Threw e)) ->
  (forall c param, is_download c = false -> Q c (Legacy.request P requestTimeout param)) ->
  (forall c param, is_download c = true ->
     Q c (then_await_sink Legacy.stream_error (Legacy.requestStream P requestTimeout param))) ->
  forall b c res, Legacy.invoke P requestTimeout b c = Some res -> Q c res.
Proof.
  intros Hthrow Hreq Hstream b c res Hinv.
  destruct c; try discriminate Hinv; cbn [Legacy.invoke] in Hinv; injection Hinv as <-;
    unfold_api; cbv zeta;
    try (destruct (Legacy.createQueryString queryObj) as [queryStr|e]; [|apply Hthrow]);
    try (destruct (truthy (JStr docId)));
    first [by apply Hstream | by apply Hreq].
Qed.

Lemma legacy_payload_headers (P : Platform) (postData postContentType : JsValue)
    (hs : gmap string JsValue) (h : string) :
  (h ∉ content_headers ->
   fst (Legacy.payload P postData postContentType hs) !! h = hs !! h)
  /\ (is_Some (fst (Legacy.payload P postData postContentType hs) !! h) ->
      is_Some (hs !! h) \/ h ∈ content_headers).
Proof.
  assert (Hct : "content-type" ∈ content_headers) by (by repeat constructor).
  assert (Hcl : "content-length" ∈ content_headers) by (by repeat constructor).
  assert (Hte : "Transfer-Encoding" ∈ content_headers) by (by repeat constructor).
  assert (Hone : forall k x, k ∈ content_headers ->
            (h ∉ content_headers -> <[k := x]> hs !! h = hs !! h)
            /\ (is_Some (<[k := x]> hs !! h) -> is_Some (hs !! h) \/ h ∈ content_headers)).
  { intros k x Hk. split.
    - intros Hn. apply lookup_insert_ne. by intros <-.
    - intros H. apply insert_only in H as [H | ->]; [by left | by right]. }
  assert (Htwo : forall k1 k2 x1 x2, k1 ∈ content_headers -> k2 ∈ content_headers ->
            (h ∉ content_headers -> <[k2 := x2]> (<[k1 := x1]> hs) !! h = hs !! h)
            /\ (is_Some (<[k2 := x2]> (<[k1 := x1]> hs) !! h) ->
                is_Some (hs !! h) \/ h ∈ content_headers)).
  { intros k1 k2 x1 x2 H1 H2. split.
    - intros Hn. rewrite !lookup_insert_ne; [done | by intros <- | by intros <-].
    - intros H. apply insert_only in H as [H | ->]; [|by right].
      apply insert_only in H as [H | ->]; [by left | by right]. }
  unfold Legacy.payload.
  destruct (isBuffer postData); [by apply Htwo|].
  destruct (is_readable postData); [by apply Htwo|].
  destruct (is_plain_object postData).
  - destruct (byteLength_of P _); cbn [fst]; [by apply Htwo | by apply Hone].
  - destruct (is_string postData); [by apply Htwo|].
    destruct (truthy postData); cbn [fst]; (split; [done | by left]).
Qed.

(** X23.  Every request of the free-function module names its user agent, one
    other than the download asks for JSON, and the only further headers are
    the three that describe a payload: where the factory module's client
    gathers headers over its calls, a free function starts afresh. *)
Theorem legacy_headers_start_afresh (P : Platform) (requestTimeout : Z) (b : string) (c : Call)
    (res : CallResult) (r : Request) :
  Legacy.invoke P requestTimeout b c = Some res ->
  wire res = Some r ->
  req_headers (options r) !! "user-agent" = Some (JStr "couchdb-promises")
  /\ req_headers (options r) !! "accept"
     = (if is_download c then None else Some (JStr "application/json"))
  /\ (forall h, is_Some (req_headers (options r) !! h) -> h ∈ legacy_header_names).
Proof.
  intros Hinv. revert r.
  apply (legacy_call_cases P requestTimeout
           (fun c res => forall r, wire res = Some r ->
              req_headers (options r) !! "user-agent" = Some (JStr "couchdb-promises")
              /\ req_headers (options r) !! "accept"
                 = (if is_download c then None else Some (JStr "application/json"))
              /\ (forall h, is_Some (req_headers (options r) !! h) ->
                    h ∈ legacy_header_names))) with (b := b); [done | | | done].
  - intros c' param Hdl r. rewrite Hdl. unfold Legacy.request.
    destruct (negb _); [done|].
    cbn [req_headers].
    lazymatch goal with
    | |- context [Legacy.payload P ?pd ?ct ?hs0] =>
        pose proof (legacy_payload_headers P pd ct hs0) as Hpl;
        destruct (Legacy.payload P pd ct hs0) as [hs [pl|e]]; [|done]
    end.
    destruct (truthy (error pl)); [done|].
    intros [= <-]. cbn [options req_headers fst] in *.
    split; [|split].
    + rewrite (proj1 (Hpl "user-agent")); [done|].
      unfold content_headers. intros Hin.
      repeat (apply elem_of_cons in Hin as [Hin | Hin]; [discriminate Hin|]).
      by apply elem_of_nil in Hin.
    + rewrite (proj1 (Hpl "accept")); [done|].
      unfold content_headers. intros Hin.
      repeat (apply elem_of_cons in Hin as [Hin | Hin]; [discriminate Hin|]).
      by apply elem_of_nil in Hin.
    + intros h Hh. apply (proj2 (Hpl h)) in Hh as [Hh | Hh].
      * apply insert_only in Hh as [Hh | ->]; [|by repeat constructor].
        destruct (decide (h = "user-agent")) as [->|Hne]; [by repeat constructor|].
        rewrite lookup_singleton_ne in Hh by done. by destruct Hh.
      * unfold content_headers in Hh. unfold legacy_header_names.
        by do 2 apply list_elem_of_further.
  - intros c' param Hdl r. rewrite Hdl. unfold Legacy.requestStream.
    destruct (negb (is_writable _)); [done|].
    destruct (negb (Legacy.isValidUrl _ _)); [done|].
    intros [= <-]. cbn [options req_headers].
    split; [done|]. split; [done|].
    intros h Hh.
    destruct (decide (h = "user-agent")) as [->|Hne]; [by repeat constructor|].
    rewrite lookup_singleton_ne in Hh by done. by destruct Hh.
Qed.

Lemma legacy_headers_start_afresh_witness :
  exists r,
    wire (Legacy.getInfo Reference.node 10000 "http://localhost:5984") = Some r
    /\ req_headers (options r) !! "accept" = Some (JStr "application/json")
    /\ req_headers (options r) !! "content-type" = None.
Proof.
  destruct (legacy_headers_start_afresh Reference.node 10000 "http://localhost:5984" GetInfo
              _ _ eq_refl eq_refl) as (_ & Ha & Hn).
  eexists. split; [reflexivity|]. split; [exact Ha|].
  reflexivity.
Defined.

(** ** The two modules on one answer *)

Lemma messages_agree (P : Platform) (codes : option (gmap Z string)) (code : Z) :
  (forall table c', codes = Some table -> table !! c' <> Some "") ->
  same_fallback P code ->
  Legacy.status_message (default ∅ codes) code = Factory.statusCode P codes code.
Proof.
  intros Hne Hfb. unfold Legacy.status_message, Factory.statusCode, same_fallback in *.
  destruct codes as [table|]; simpl.
  - unfold entry_or at 1 3.
    destruct (table !! code) as [s|] eqn:E.
    + rewrite (lookup_union_Some_l _ _ _ _ E).
      destruct (String.eqb_spec s "") as [->|_]; [|done].
      by destruct (Hne table code eq_refl).
    + rewrite lookup_union_r by done. exact Hfb.
  - unfold entry_or at 1. rewrite lookup_empty.
    rewrite (left_id_L ∅ (∪)). exact Hfb.
Qed.

Lemma request_same_answer (P : Platform) (requestTimeout : Z) (config : Factory.Config)
    (t0 t1 : Z) (lp : Legacy.Param) (fp : Factory.Param) (o : HttpOptions)
    (r r' : Request) (k k' : Trace -> Settlement) (t_res code : Z) (hs : gmap string JsValue)
    (chunks : list (Z * string)) (t_end : Z) :
  Legacy.p_statusCodes lp = Factory.p_statusCodes fp ->
  (forall table c', Factory.p_statusCodes fp = Some table -> table !! c' <> Some "") ->
  same_fallback P code ->
  Legacy.request P requestTimeout lp = Sent r k ->
  fst (Factory.request P config t0 t1 fp o) = Sent r' k' ->
  exists e e',
    k (exchange t_res code hs chunks t_end) = Fulfilled e
    /\ k' (exchange t_res code hs chunks t_end) = by_status e'
    /\ same_answer (JSON_parse P (parsed_text (body_of chunks))) e e'.
Proof.
  intros Hcodes Hne Hfb Hk Hk'.
  destruct (Factory.request P config t0 t1 fp o) as [res o2] eqn:E.
  simpl in Hk'. subst res.
  rewrite (legacy_request_sent _ _ _ _ _ Hk), (factory_request_sent _ _ _ _ _ _ _ _ _ E).
  rewrite legacy_exchange, factory_exchange.
  eexists _, _. split; [reflexivity|]. split; [reflexivity|].
  unfold Legacy.on_end, Factory.on_end, parsed_text, same_answer.
  destruct (JSON_parse P _) as [d|err]; simpl.
  - rewrite Hcodes, (messages_agree P _ code Hne Hfb).
    split; [done|]. split; [done|]. split; [done|]. by intros d' [= <-].
  - split; [done|]. split; [done|]. split; [done|]. by intros d' [=].
Qed.

(** X24.  The two modules read one answer alike.  For a call both export,
    other than the download, and a status code on which their fallback tables
    agree, an exchange that ends gives envelopes with the same headers, the
    same status, the same message and, when the body is JSON, the same data;
    the free-function module fulfils with its envelope, the factory module
    fulfils or rejects by the status. *)
Theorem both_styles_read_the_same_answer (P : Platform) (requestTimeout : Z)
    (config : Factory.Config) (t0 t1 : Z) (b : string) (c : Call) (o : HttpOptions)
    (r r' : Request) (k k' : Trace -> Settlement) (t_res code : Z) (hs : gmap string JsValue)
    (chunks : list (Z * string)) (t_end : Z) :
  is_download c = false ->
  same_fallback P code ->
  Legacy.invoke P requestTimeout b c = Some (Sent r k) ->
  fst (Factory.invoke P config t0 t1 c o) = Sent r' k' ->
  exists e e',
    k (exchange t_res code hs chunks t_end) = Fulfilled e
    /\ k' (exchange t_res code hs chunks t_end) = by_status e'
    /\ same_answer (JSON_parse P (parsed_text (body_of chunks))) e e'.
Proof.
  intros Hdl Hfb Hinv Hw.
  destruct c; try discriminate Hdl; try discriminate Hinv;
    cbn [Legacy.invoke] in Hinv; injection Hinv as Hinv; cbn [Factory.invoke] in Hw;
    unfold_api; cbv zeta in *;
    try rewrite createQueryString_agree in Hw;
    try (destruct (Legacy.createQueryString queryObj) as [queryStr|e];
         [|discriminate Hinv]);
    try (destruct (truthy (JStr docId)));
    lazymatch type of Hw with
    | fst (Factory.request _ _ _ _ ?fp _) = _ =>
        lazymatch type of Hinv with
        | Legacy.request _ _ ?lp = _ =>
            apply (request_same_answer P requestTimeout config t0 t1 lp fp o r r' k k'
                     t_res code hs chunks t_end eq_refl); try done;
            intros table c' [= <-]; apply no_empty_entry; by vm_compute
        end
    end.
Qed.

Lemma both_styles_read_the_same_answer_witness :
  exists r k r' k' e e',
    Legacy.getDocument Reference.node 10000 "http://localhost:5984" "db" "missing" None
    = Sent r k
    /\ fst (Factory.getDocument Reference.node local_config 0 0 "db" "missing" None
              local_httpOptions) = Sent r' k'
    /\ k (exchange 1 404 ∅ [(2, not_found_body)] 3) = Fulfilled e
    /\ k' (exchange 1 404 ∅ [(2, not_found_body)] 3) = by_status e'
    /\ message e = message e'.
Proof.
  destruct (both_styles_read_the_same_answer Reference.node 10000 local_config 0 0
              "http://localhost:5984" (GetDocument "db" "missing" None) local_httpOptions
              _ _ _ _ 1 404 ∅ [(2, not_found_body)] 3 eq_refl eq_refl eq_refl eq_refl)
    as (e & e' & He & He' & _ & _ & Hm & _).
  eexists _, _, _, _, e, e'. split; [reflexivity|]. split; [reflexivity|].
  split; [exact He|]. split; [exact He' | exact Hm].
Defined.

(** ** A call that sends nothing *)

Lemma legacy_call_origins (P : Platform) (requestTimeout : Z) (Q : Call -> CallResult -> Prop) :
  (forall c e, Legacy.createQueryString (query_of c) = Throw e -> Q c (Threw e)) ->
  (forall c param, is_download c = false -> Legacy.p_postData param = payload_of c ->
     Q c (Legacy.request P requestTimeout param)) ->
  (forall c param, is_download c = true ->
     Q c (then_await_sink Legacy.stream_error (Legacy.requestStream P requestTimeout param))) ->
  forall b c res, Legacy.invoke P requestTimeout b c = Some res -> Q c res.
Proof.
  intros Hthrow Hreq Hstream b c res Hinv.
  destruct c; try discriminate Hinv; cbn [Legacy.invoke] in Hinv; injection Hinv as <-;
    unfold_api; cbv zeta;
    try (destruct (Legacy.createQueryString queryObj) as [queryStr|e] eqn:Hq;
         [|by apply Hthrow]);
    try (destruct (truthy (JStr docId)));
    first [by apply Hstream | by apply Hreq].
Qed.

Lemma factory_call_origins (P : Platform) (config : Factory.Config) (t0 t1 : Z)
    (Q : Call -> HttpOptions -> CallResult * HttpOptions -> Prop) :
  (forall c e o, Factory.createQueryString (query_of c) = Throw e -> Q c o (Threw e, o)) ->
  (forall c o, is_copy c = true -> Q c o (NoPromise, o)) ->
  (forall c param o, is_download c = false -> Factory.p_postData param = payload_of c ->
     Q c o (Factory.request P config t0 t1 param o)) ->
  (forall c param o, is_download c = true ->
     Q c o (let (res, o') := Factory.requestStream P config t0 param o in
            (then_await_sink Factory.stream_error res, o'))) ->
  forall c o, Q c o (Factory.invoke P config t0 t1 c o).
Proof.
  intros Hthrow Hnone Hreq Hstream c o.
  destruct c; cbn [Factory.invoke]; unfold_api; cbv zeta;
    try (destruct (Factory.createQueryString queryObj) as [queryStr|e] eqn:Hq;
         [|by apply Hthrow]);
    try (destruct (truthy (JStr docId) && truthy (JStr newDocId)); [|by apply Hnone]);
    try (destruct (truthy (JStr docId)));
    first [by apply Hstream | by apply Hreq].
Qed.

Lemma legacy_payload_refusal (P : Platform) (postData postContentType : JsValue)
    (hs hs' : gmap string JsValue) (pl : Payload) :
  Legacy.payload P postData postContentType hs = (hs', Return pl) ->
  truthy (error pl) = true ->
  refusal_of postData "unsoported post data" (error pl).
Proof.
  unfold Legacy.payload, refusal_of.
  destruct (isBuffer postData); [by intros [= _ <-]|].
  destruct (is_readable postData); [by intros [= _ <-]|].
  destruct (is_plain_object postData).
  - destruct (byteLength_of P _); [|done]. intros [= _ <-]. cbn [error].
    destruct (JSON_stringify postData); [done | by right].
  - destruct (is_string postData); [by intros [= _ <-]|].
    destruct (truthy postData); intros [= _ <-]; [by left | done].
Qed.

Lemma factory_payload_refusal (P : Platform) (postData postContentType : JsValue)
    (hs hs' : gmap string JsValue) (pl : Payload) :
  Factory.payload P postData postContentType hs = (hs', Return pl) ->
  truthy (error pl) = true ->
  refusal_of postData "unsupported post data" (error pl).
Proof.
  unfold Factory.payload, refusal_of.
  destruct (isBuffer postData); [by intros [= _ <-]|].
  destruct (is_readable postData); [by intros [= _ <-]|].
  destruct (is_plain_object postData).
  - destruct (byteLength_of P _); [|done]. intros [= _ <-]. cbn [error].
    destruct (JSON_stringify postData); [done | by right].
  - destruct (is_string postData); [by intros [= _ <-]|].
    destruct (truthy postData || is_null postData); intros [= _ <-]; [by left | done].
Qed.


